(** * CameraHardware: the V4L2 camera session of libcameraservice

    A shallow embedding of [camera/libcameraservice/CameraHardware.cpp].

    - Part 1 embeds the data the class works on.
    - Part 2 embeds every member function as a computation on the object,
      as executed by the thread that calls it.
    - Part 3 puts the preview thread, the detached auto-focus tasks and a
      client next to each other in an interleaving semantics.
    - Part 4 embeds the [createInstance] factory.
    - Part 5 defines what the statements and proofs speak of.
    - Part 6 states and proves the properties. *)

From stdpp Require Import base numbers option list gmap strings.

Local Open Scope Z_scope.

(* ================================================================== *)
(** * Part 1: data *)
(* ================================================================== *)

(** ** Status codes

    [status_t] is a 32-bit signed integer.  The named codes come from the
    platform header utils/Errors.h, which is outside this tree; the values
    below are that header's ([UNKNOWN_ERROR] is 0x80000000 read as int32,
    the other two are negated errno values).  The development only relies
    on them being different from [NO_ERROR]. *)
Definition status_t := Z.

Definition NO_ERROR : status_t := 0.
Definition UNKNOWN_ERROR : status_t := -2147483648.
Definition INVALID_OPERATION : status_t := -38.
Definition BAD_VALUE : status_t := -22.

(** ** Message kinds *)

(** Modelled from the spec: the CAMERA_MSG_ constants are declared in a
    header that is not part of the tree.  The spec fixes the enumeration of
    kinds and says that each one is a bit of the enabled-message mask; the
    bit positions are the platform's. *)
Inductive MsgKind :=
  | MsgError | MsgShutter | MsgFocus | MsgZoom | MsgPreviewFrame
  | MsgVideoFrame | MsgPostviewFrame | MsgRawImage | MsgCompressedImage.

Definition CAMERA_MSG_ERROR : Z := 0x001.
Definition CAMERA_MSG_SHUTTER : Z := 0x002.
Definition CAMERA_MSG_FOCUS : Z := 0x004.
Definition CAMERA_MSG_ZOOM : Z := 0x008.
Definition CAMERA_MSG_PREVIEW_FRAME : Z := 0x010.
Definition CAMERA_MSG_VIDEO_FRAME : Z := 0x020.
Definition CAMERA_MSG_POSTVIEW_FRAME : Z := 0x040.
Definition CAMERA_MSG_RAW_IMAGE : Z := 0x080.
Definition CAMERA_MSG_COMPRESSED_IMAGE : Z := 0x100.

Definition msg_bit (k : MsgKind) : Z :=
  match k with
  | MsgError => CAMERA_MSG_ERROR
  | MsgShutter => CAMERA_MSG_SHUTTER
  | MsgFocus => CAMERA_MSG_FOCUS
  | MsgZoom => CAMERA_MSG_ZOOM
  | MsgPreviewFrame => CAMERA_MSG_PREVIEW_FRAME
  | MsgVideoFrame => CAMERA_MSG_VIDEO_FRAME
  | MsgPostviewFrame => CAMERA_MSG_POSTVIEW_FRAME
  | MsgRawImage => CAMERA_MSG_RAW_IMAGE
  | MsgCompressedImage => CAMERA_MSG_COMPRESSED_IMAGE
  end.

Global Instance MsgKind_eq_dec : EqDecision MsgKind.
Proof. solve_decision. Defined.

(** ** Compile-time configuration (the #define lines of the file) *)
Definition VIDEO_DEVICE : string := "/dev/video0".
Definition MIN_WIDTH : Z := 640.
Definition MIN_HEIGHT : Z := 480.

(** V4L2_PIX_FMT_YUYV is v4l2_fourcc('Y','U','Y','V'). *)
Definition v4l2_fourcc (a b c d : Z) : Z :=
  Z.lor (Z.lor a (Z.shiftl b 8)) (Z.lor (Z.shiftl c 16) (Z.shiftl d 24)).
Definition V4L2_PIX_FMT_YUYV : Z := v4l2_fourcc 0x59 0x55 0x59 0x56.
Definition PIXEL_FORMAT : Z := V4L2_PIX_FMT_YUYV.

(** ** CameraParameters *)

(** Modelled from the spec: the parameter container is declared outside
    this tree.  The spec lists what it carries (preview size, preview frame
    rate, preview pixel format, still-picture size, still-picture format)
    and calls the accessors simple getters and setters; that is what this
    record and its functions are. *)
Record CameraParameters := mkParams {
  previewSize : Z * Z;
  previewFrameRate : Z;
  previewFormat : string;
  pictureSize : Z * Z;
  pictureFormat : string
}.

(** [CameraParameters p;] -- a container with nothing set yet. *)
Definition CameraParameters_empty : CameraParameters :=
  mkParams (0, 0) 0 EmptyString (0, 0) EmptyString.

Definition setPreviewSize (w h : Z) (p : CameraParameters) : CameraParameters :=
  mkParams (w, h) (previewFrameRate p) (previewFormat p)
           (pictureSize p) (pictureFormat p).
Definition setPreviewFrameRate (fps : Z) (p : CameraParameters) : CameraParameters :=
  mkParams (previewSize p) fps (previewFormat p)
           (pictureSize p) (pictureFormat p).
Definition setPreviewFormat (f : string) (p : CameraParameters) : CameraParameters :=
  mkParams (previewSize p) (previewFrameRate p) f
           (pictureSize p) (pictureFormat p).
Definition setPictureSize (w h : Z) (p : CameraParameters) : CameraParameters :=
  mkParams (previewSize p) (previewFrameRate p) (previewFormat p)
           (w, h) (pictureFormat p).
Definition setPictureFormat (f : string) (p : CameraParameters) : CameraParameters :=
  mkParams (previewSize p) (previewFrameRate p) (previewFormat p)
           (pictureSize p) f.

Definition getPreviewSize (p : CameraParameters) : Z * Z := previewSize p.
Definition getPreviewFrameRate (p : CameraParameters) : Z := previewFrameRate p.
Definition getPreviewFormat (p : CameraParameters) : string := previewFormat p.
Definition getPictureSize (p : CameraParameters) : Z * Z := pictureSize p.
Definition getPictureFormat (p : CameraParameters) : string := pictureFormat p.

(** The C library's [strcmp], up to the magnitude of a non-zero result. *)
Definition strcmp (a b : string) : Z :=
  match String.compare a b with
  | Eq => 0
  | Lt => -1
  | Gt => 1
  end.

(** ** Shared memory

    [MemoryHeapBase(size)] and [MemoryBase(heap, offset, size)]: only the
    geometry of the region is kept, not its bytes. *)
Record MemoryHeapBase := mkHeap { heap_size : Z }.
Record MemoryBase := mkMem {
  mem_heap : MemoryHeapBase;
  mem_offset : Z;
  mem_size : Z
}.

(** What is handed to the data callback: the preview [mBuffer] (an [sp],
    possibly null) or the buffer [GrabJpegFrame] returned. *)
Inductive DataMem :=
  | PreviewMem (b : option MemoryBase)
  | JpegMem.

(** ** Function pointers, tokens, thread handles

    A callback is known by the address registered for it; [None] is the
    null pointer.  [mUser] is an opaque address.  A [PreviewThread] object
    is known by its identity (a number). *)
Abbreviation fnptr := (option nat) (only parsing).
Abbreviation PreviewThread := nat (only parsing).

(** ** The object *)
Record CameraHardware := mkHW {
  mParameters : CameraParameters;
  mHeap : option MemoryHeapBase;
  mPreviewHeap : option MemoryHeapBase;
  mRawHeap : option MemoryHeapBase;
  mBuffer : option MemoryBase;
  mPreviewFrameSize : Z;
  mCurrentPreviewFrame : Z;
  previewStopped : bool;
  nQueued : Z;
  nDequeued : Z;
  mMsgEnabled : Z;
  mNotifyFn : fnptr;
  mDataFn : fnptr;
  mTimestampFn : fnptr;
  mUser : Z;
  mPreviewThread : option PreviewThread
}.

Definition set_mParameters (p : CameraParameters) (s : CameraHardware) :=
  mkHW p (mHeap s) (mPreviewHeap s) (mRawHeap s) (mBuffer s)
       (mPreviewFrameSize s) (mCurrentPreviewFrame s) (previewStopped s)
       (nQueued s) (nDequeued s) (mMsgEnabled s)
       (mNotifyFn s) (mDataFn s) (mTimestampFn s) (mUser s) (mPreviewThread s).
Definition set_mHeap (h : option MemoryHeapBase) (s : CameraHardware) :=
  mkHW (mParameters s) h (mPreviewHeap s) (mRawHeap s) (mBuffer s)
       (mPreviewFrameSize s) (mCurrentPreviewFrame s) (previewStopped s)
       (nQueued s) (nDequeued s) (mMsgEnabled s)
       (mNotifyFn s) (mDataFn s) (mTimestampFn s) (mUser s) (mPreviewThread s).
Definition set_mBuffer (b : option MemoryBase) (s : CameraHardware) :=
  mkHW (mParameters s) (mHeap s) (mPreviewHeap s) (mRawHeap s) b
       (mPreviewFrameSize s) (mCurrentPreviewFrame s) (previewStopped s)
       (nQueued s) (nDequeued s) (mMsgEnabled s)
       (mNotifyFn s) (mDataFn s) (mTimestampFn s) (mUser s) (mPreviewThread s).
Definition set_mPreviewFrameSize (n : Z) (s : CameraHardware) :=
  mkHW (mParameters s) (mHeap s) (mPreviewHeap s) (mRawHeap s) (mBuffer s)
       n (mCurrentPreviewFrame s) (previewStopped s)
       (nQueued s) (nDequeued s) (mMsgEnabled s)
       (mNotifyFn s) (mDataFn s) (mTimestampFn s) (mUser s) (mPreviewThread s).
Definition set_previewStopped (b : bool) (s : CameraHardware) :=
  mkHW (mParameters s) (mHeap s) (mPreviewHeap s) (mRawHeap s) (mBuffer s)
       (mPreviewFrameSize s) (mCurrentPreviewFrame s) b
       (nQueued s) (nDequeued s) (mMsgEnabled s)
       (mNotifyFn s) (mDataFn s) (mTimestampFn s) (mUser s) (mPreviewThread s).
Definition set_mMsgEnabled (m : Z) (s : CameraHardware) :=
  mkHW (mParameters s) (mHeap s) (mPreviewHeap s) (mRawHeap s) (mBuffer s)
       (mPreviewFrameSize s) (mCurrentPreviewFrame s) (previewStopped s)
       (nQueued s) (nDequeued s) m
       (mNotifyFn s) (mDataFn s) (mTimestampFn s) (mUser s) (mPreviewThread s).
Definition set_mNotifyFn (f : fnptr) (s : CameraHardware) :=
  mkHW (mParameters s) (mHeap s) (mPreviewHeap s) (mRawHeap s) (mBuffer s)
       (mPreviewFrameSize s) (mCurrentPreviewFrame s) (previewStopped s)
       (nQueued s) (nDequeued s) (mMsgEnabled s)
       f (mDataFn s) (mTimestampFn s) (mUser s) (mPreviewThread s).
Definition set_mDataFn (f : fnptr) (s : CameraHardware) :=
  mkHW (mParameters s) (mHeap s) (mPreviewHeap s) (mRawHeap s) (mBuffer s)
       (mPreviewFrameSize s) (mCurrentPreviewFrame s) (previewStopped s)
       (nQueued s) (nDequeued s) (mMsgEnabled s)
       (mNotifyFn s) f (mTimestampFn s) (mUser s) (mPreviewThread s).
Definition set_mTimestampFn (f : fnptr) (s : CameraHardware) :=
  mkHW (mParameters s) (mHeap s) (mPreviewHeap s) (mRawHeap s) (mBuffer s)
       (mPreviewFrameSize s) (mCurrentPreviewFrame s) (previewStopped s)
       (nQueued s) (nDequeued s) (mMsgEnabled s)
       (mNotifyFn s) (mDataFn s) f (mUser s) (mPreviewThread s).
Definition set_mUser (u : Z) (s : CameraHardware) :=
  mkHW (mParameters s) (mHeap s) (mPreviewHeap s) (mRawHeap s) (mBuffer s)
       (mPreviewFrameSize s) (mCurrentPreviewFrame s) (previewStopped s)
       (nQueued s) (nDequeued s) (mMsgEnabled s)
       (mNotifyFn s) (mDataFn s) (mTimestampFn s) u (mPreviewThread s).
Definition set_mPreviewThread (t : option PreviewThread) (s : CameraHardware) :=
  mkHW (mParameters s) (mHeap s) (mPreviewHeap s) (mRawHeap s) (mBuffer s)
       (mPreviewFrameSize s) (mCurrentPreviewFrame s) (previewStopped s)
       (nQueued s) (nDequeued s) (mMsgEnabled s)
       (mNotifyFn s) (mDataFn s) (mTimestampFn s) (mUser s) t.

(* ================================================================== *)
(** * Part 2: the member functions *)
(* ================================================================== *)

(** ** What a call does besides changing the object *)

(** Calls on the [camera] member (the V4L2 device wrapper). *)
Inductive DevOp :=
  | DevOpen (path : string) (w h fmt : Z)
  | DevInit
  | DevStartStreaming
  | DevStopStreaming
  | DevUninit
  | DevClose
  | DevGrabPreviewFrame (dst : MemoryHeapBase)
  | DevGrabJpegFrame.

(** The public entry points.  An entry point whose outcome depends on
    something the environment decides carries that decision: the identity
    of the object [new PreviewThread(this)] yields, and what
    [createThread] answers. *)
Inductive Call :=
  | SetCallbacks (notify_cb data_cb data_cb_timestamp : fnptr) (arg : Z)
  | EnableMsgType (msgType : Z)
  | DisableMsgType (msgType : Z)
  | MsgTypeEnabled (msgType : Z)
  | StartPreview (fresh : PreviewThread)
  | StopPreview
  | PreviewEnabled
  | StartRecording
  | StopRecording
  | RecordingEnabled
  | ReleaseRecordingFrame
  | AutoFocus (created : bool)
  | CancelAutoFocus
  | TakePicture
  | CancelPicture
  | Dump
  | SetParameters (params : CameraParameters)
  | SendCommand (command arg1 arg2 : Z)
  | GetParameters
  | GetPreviewHeap
  | GetRawHeap
  | Release.

Inductive Ret :=
  | RVoid
  | RStatus (r : status_t)
  | RBool (b : bool)
  | RParams (p : CameraParameters)
  | RHeap (h : option MemoryHeapBase).

Inductive Event :=
  | EvCall (c : Call)
  | EvReturn (c : Call) (r : Ret)
  | EvDev (d : DevOp)
  | EvNotify (fn : nat) (msgType ext1 ext2 user : Z)
  | EvData (fn : nat) (msgType : Z) (mem : DataMem) (user : Z)
  | EvSpawnPreview (t : PreviewThread)
  | EvSpawnFocus
  | EvRequestExitAndWait (t : PreviewThread)
  | EvCloseDevice.

(** ** The monad: state of the object, a log of events, and faults

    A fault is what the machine does with a call through a null function
    pointer or a dereference of a null [sp]: the process dies there.  The
    events logged up to that point are kept. *)
Inductive outcome (A : Type) :=
  | Done (a : A) (s : CameraHardware) (tr : list Event)
  | Fault (tr : list Event).
Arguments Done {A} a s tr.
Arguments Fault {A} tr.

Definition M (A : Type) : Type := CameraHardware → outcome A.

Definition ret {A} (a : A) : M A := λ s, Done a s [].
Definition bind {A B} (m : M A) (k : A → M B) : M B :=
  λ s, match m s with
       | Done a s1 tr1 =>
           match k a s1 with
           | Done b s2 tr2 => Done b s2 (tr1 ++ tr2)
           | Fault tr2 => Fault (tr1 ++ tr2)
           end
       | Fault tr1 => Fault tr1
       end.
Definition get : M CameraHardware := λ s, Done s s [].
Definition modify (f : CameraHardware → CameraHardware) : M unit :=
  λ s, Done tt (f s) [].
Definition emit (e : Event) : M unit := λ s, Done tt s [e].
Definition fault {A} : M A := λ _, Fault [].
Definition when (b : bool) (m : M unit) : M unit := if b then m else ret tt.

Global Instance M_ret : MRet M := @ret.
Global Instance M_bind : MBind M := λ A B k m, bind m k.

(** [if (mask & bit)] *)
Definition flag_set (mask bit : Z) : bool := negb (Z.land mask bit =? 0).

(** [mNotifyFn(msgType, ext1, ext2, mUser)] *)
Definition call_mNotifyFn (msgType ext1 ext2 : Z) : M unit :=
  s ← get;
  match mNotifyFn s with
  | Some fn => emit (EvNotify fn msgType ext1 ext2 (mUser s))
  | None => fault
  end.

(** [mDataFn(msgType, mem, mUser)] *)
Definition call_mDataFn (msgType : Z) (mem : DataMem) : M unit :=
  s ← get;
  match mDataFn s with
  | Some fn => emit (EvData fn msgType mem (mUser s))
  | None => fault
  end.

(** ** Callbacks and the message mask *)

Definition setCallbacks (notify_cb data_cb data_cb_timestamp : fnptr) (arg : Z)
  : M unit :=
  modify (set_mNotifyFn notify_cb);;
  modify (set_mDataFn data_cb);;
  modify (set_mTimestampFn data_cb_timestamp);;
  modify (set_mUser arg).

Definition enableMsgType (msgType : Z) : M unit :=
  modify (λ s, set_mMsgEnabled (Z.lor (mMsgEnabled s) msgType) s).

Definition disableMsgType (msgType : Z) : M unit :=
  modify (λ s, set_mMsgEnabled (Z.land (mMsgEnabled s) (Z.lnot msgType)) s).

Definition msgTypeEnabled (msgType : Z) : M bool :=
  s ← get; ret (flag_set (mMsgEnabled s) msgType).

(** ** Preview *)

(** [camera.GrabPreviewFrame(mHeap->getBase())] *)
Definition grabPreviewFrame : M unit :=
  s ← get;
  match mHeap s with
  | Some h => emit (EvDev (DevGrabPreviewFrame h))
  | None => fault
  end.

(** The dispatch at the end of one pass of the preview loop. *)
Definition previewDispatch : M unit :=
  s ← get;
  when (flag_set (mMsgEnabled s) CAMERA_MSG_PREVIEW_FRAME)
       (call_mDataFn CAMERA_MSG_PREVIEW_FRAME (PreviewMem (mBuffer s))).

Definition previewThread : M status_t :=
  s ← get;
  when (negb (previewStopped s)) (grabPreviewFrame;; previewDispatch);;
  ret NO_ERROR.

Definition startPreview (fresh : PreviewThread) : M status_t :=
  s ← get;
  match mPreviewThread s with
  | Some _ => ret INVALID_OPERATION
  | None =>
      emit (EvDev (DevOpen VIDEO_DEVICE MIN_WIDTH MIN_HEIGHT PIXEL_FORMAT));;
      modify (set_mPreviewFrameSize (MIN_WIDTH * MIN_HEIGHT * 2));;
      s ← get;
      modify (set_mHeap (Some (mkHeap (mPreviewFrameSize s))));;
      s ← get;
      modify (set_mBuffer
                (match mHeap s with
                 | Some h => Some (mkMem h 0 (mPreviewFrameSize s))
                 | None => None
                 end));;
      emit (EvDev DevInit);;
      emit (EvDev DevStartStreaming);;
      modify (set_previewStopped false);;
      modify (set_mPreviewThread (Some fresh));;
      emit (EvSpawnPreview fresh);;
      ret NO_ERROR
  end.

(** [stopPreview], cut at its lock scopes and at the wait between them. *)
Definition stopPreview_flag : M unit :=
  modify (set_previewStopped true).

Definition stopPreview_teardown : M unit :=
  s ← get;
  when (bool_decide (mPreviewThread s ≠ None))
       (emit (EvDev DevUninit);;
        emit (EvDev DevStopStreaming);;
        emit (EvDev DevClose)).

Definition stopPreview_read : M (option PreviewThread) :=
  s ← get; ret (mPreviewThread s).

Definition stopPreview_wait (previewThread : option PreviewThread) : M unit :=
  match previewThread with
  | Some t => emit (EvRequestExitAndWait t)
  | None => ret tt
  end.

Definition stopPreview_clear : M unit :=
  modify (set_mPreviewThread None).

Definition stopPreview : M unit :=
  stopPreview_flag;;
  stopPreview_teardown;;
  previewThread ← stopPreview_read;
  stopPreview_wait previewThread;;
  stopPreview_clear.

Definition previewEnabled : M bool :=
  s ← get; ret (bool_decide (mPreviewThread s ≠ None)).

(** ** Recording *)

Definition startRecording : M status_t := ret UNKNOWN_ERROR.
Definition stopRecording : M unit := ret tt.
Definition recordingEnabled : M bool := ret false.
Definition releaseRecordingFrame : M unit := ret tt.

(** ** Auto focus *)

Definition autoFocusThread : M status_t :=
  s ← get;
  when (flag_set (mMsgEnabled s) CAMERA_MSG_FOCUS)
       (call_mNotifyFn CAMERA_MSG_FOCUS 1 0);;
  ret NO_ERROR.

(** [created] is the answer of [createThread(beginAutoFocusThread, this)];
    when it is [true] a detached thread now runs [autoFocusThread]. *)
Definition autoFocus (created : bool) : M status_t :=
  if created then emit EvSpawnFocus;; ret NO_ERROR
  else ret UNKNOWN_ERROR.

Definition cancelAutoFocus : M status_t := ret NO_ERROR.

(** ** Still pictures *)

Definition pictureThread : M status_t :=
  s ← get;
  when (flag_set (mMsgEnabled s) CAMERA_MSG_SHUTTER)
       (call_mNotifyFn CAMERA_MSG_SHUTTER 0 0);;
  emit (EvDev (DevOpen VIDEO_DEVICE MIN_WIDTH MIN_HEIGHT PIXEL_FORMAT));;
  emit (EvDev DevInit);;
  emit (EvDev DevStartStreaming);;
  s ← get;
  when (flag_set (mMsgEnabled s) CAMERA_MSG_COMPRESSED_IMAGE)
       (emit (EvDev DevGrabJpegFrame);;
        call_mDataFn CAMERA_MSG_COMPRESSED_IMAGE JpegMem);;
  emit (EvDev DevUninit);;
  emit (EvDev DevStopStreaming);;
  emit (EvDev DevClose);;
  ret NO_ERROR.

Definition takePicture : M status_t :=
  stopPreview;;
  pictureThread;;
  ret NO_ERROR.

Definition cancelPicture : M status_t := ret NO_ERROR.

Definition dump : M status_t := ret NO_ERROR.

(** ** Parameters *)

Definition setParameters (params : CameraParameters) : M status_t :=
  if negb (strcmp (getPreviewFormat params) "yuv422sp" =? 0) then ret (-1)
  else if negb (strcmp (getPictureFormat params) "jpeg" =? 0) then ret (-1)
  else
    modify (set_mParameters params);;
    modify (λ s, set_mParameters
                   (setPreviewSize MIN_WIDTH MIN_HEIGHT (mParameters s)) s);;
    ret NO_ERROR.

Definition sendCommand (command arg1 arg2 : Z) : M status_t := ret BAD_VALUE.

Definition getParameters : M CameraParameters :=
  s ← get; ret (mParameters s).

Definition getPreviewHeap : M (option MemoryHeapBase) :=
  s ← get; ret (mHeap s).

Definition getRawHeap : M (option MemoryHeapBase) :=
  s ← get; ret (mRawHeap s).

Definition release : M unit := emit EvCloseDevice.

(** ** Construction *)

Definition initDefaultParameters : M unit :=
  let p := CameraParameters_empty in
  let p := setPreviewSize MIN_WIDTH MIN_HEIGHT p in
  let p := setPreviewFrameRate 15 p in
  let p := setPreviewFormat "yuv422sp" p in
  let p := setPictureSize MIN_WIDTH MIN_HEIGHT p in
  let p := setPictureFormat "jpeg" p in
  _ ← setParameters p;
  ret tt.

(** The member initialisers of the constructor.  [mMsgEnabled] has none:
    its first content is whatever the allocation holds, here [junk].  The
    three [sp] members without an initialiser start out null. *)
Definition CameraHardware_members (junk : Z) : CameraHardware :=
  {| mParameters := CameraParameters_empty;
     mHeap := None;
     mPreviewHeap := None;
     mRawHeap := None;
     mBuffer := None;
     mPreviewFrameSize := 0;
     mCurrentPreviewFrame := 0;
     previewStopped := true;
     nQueued := 0;
     nDequeued := 0;
     mMsgEnabled := junk;
     mNotifyFn := None;
     mDataFn := None;
     mTimestampFn := None;
     mUser := 0;
     mPreviewThread := None |}.

Definition CameraHardware_ctor (junk : Z) : outcome unit :=
  initDefaultParameters (CameraHardware_members junk).

(** ** One call, by name *)
Definition lift {A} (f : A → Ret) (m : M A) : M Ret := a ← m; ret (f a).

Definition exec_call (c : Call) : M Ret :=
  match c with
  | SetCallbacks n d t u => lift (λ _, RVoid) (setCallbacks n d t u)
  | EnableMsgType m => lift (λ _, RVoid) (enableMsgType m)
  | DisableMsgType m => lift (λ _, RVoid) (disableMsgType m)
  | MsgTypeEnabled m => lift RBool (msgTypeEnabled m)
  | StartPreview t => lift RStatus (startPreview t)
  | StopPreview => lift (λ _, RVoid) stopPreview
  | PreviewEnabled => lift RBool previewEnabled
  | StartRecording => lift RStatus startRecording
  | StopRecording => lift (λ _, RVoid) stopRecording
  | RecordingEnabled => lift RBool recordingEnabled
  | ReleaseRecordingFrame => lift (λ _, RVoid) releaseRecordingFrame
  | AutoFocus created => lift RStatus (autoFocus created)
  | CancelAutoFocus => lift RStatus cancelAutoFocus
  | TakePicture => lift RStatus takePicture
  | CancelPicture => lift RStatus cancelPicture
  | Dump => lift RStatus dump
  | SetParameters p => lift RStatus (setParameters p)
  | SendCommand c a1 a2 => lift RStatus (sendCommand c a1 a2)
  | GetParameters => lift RParams getParameters
  | GetPreviewHeap => lift RHeap getPreviewHeap
  | GetRawHeap => lift RHeap getRawHeap
  | Release => lift (λ _, RVoid) release
  end.

(* ================================================================== *)
(** * Part 3: the session next to its threads *)
(* ================================================================== *)

(** ** The preview thread *)

(** Modelled from the spec: the [PreviewThread] class and the [Thread]
    base class it derives from are declared outside this tree.  The spec
    has the preview loop run one pass after the other, each pass being one
    call of [previewThread], until it is asked to exit; and it has
    [requestExitAndWait] return only once the loop has fully exited.

    One pass of [previewThread] takes no lock, so it is cut where it reads
    or calls out: the test of [previewStopped], the frame grab, and the
    dispatch.  A thread is at one of these points. *)
Inductive PreviewPc :=
  | AtLoop        (* about to call previewThread(), i.e. to test previewStopped *)
  | AtGrab        (* about to call GrabPreviewFrame *)
  | AtDispatch    (* about to test the mask and dispatch *)
  | AtExitCheck   (* previewThread() returned; about to look at the exit request *)
  | Exited.

Global Instance PreviewPc_eq_dec : EqDecision PreviewPc.
Proof. solve_decision. Defined.

Record ThreadState := mkThread {
  pc : PreviewPc;
  exitPending : bool
}.

(** ** The client *)

(** A client issues the public calls one after the other.  Most of them
    are a single stretch of code under [mLock] or touch a single field;
    they happen in one step.  [stopPreview] is not: it releases the lock,
    tears the device down, and waits.  A client inside [stopPreview] (or
    inside [takePicture], which begins with it) is at one of these points. *)
Inductive StopPt :=
  | SFlag      (* about to set previewStopped, first lock scope *)
  | STeardown  (* about to test the handle and tear the device down *)
  | SRead      (* about to copy the handle, second lock scope *)
  | SRequest (previewThread : option PreviewThread)
               (* about to call requestExitAndWait on the copy, if not null *)
  | SWait (t : PreviewThread)
               (* inside requestExitAndWait, waiting for thread t *)
  | SClear     (* about to clear the handle, last lock scope *)
  | SPicture.  (* takePicture only: stopPreview is done, pictureThread is next *)

Inductive ClientPc :=
  | CIdle
  | CIn (c : Call) (pt : StopPt).

Record System := mkSys {
  hw : CameraHardware;
  threads : gmap nat ThreadState;
  focusTasks : nat;
  client : ClientPc;
  crashed : bool
}.

Definition set_hw (s : CameraHardware) (σ : System) : System :=
  mkSys s (threads σ) (focusTasks σ) (client σ) (crashed σ).
Definition set_threads (ts : gmap nat ThreadState) (σ : System) : System :=
  mkSys (hw σ) ts (focusTasks σ) (client σ) (crashed σ).
Definition set_focusTasks (n : nat) (σ : System) : System :=
  mkSys (hw σ) (threads σ) n (client σ) (crashed σ).
Definition set_client (c : ClientPc) (σ : System) : System :=
  mkSys (hw σ) (threads σ) (focusTasks σ) c (crashed σ).
Definition set_crashed (σ : System) : System :=
  mkSys (hw σ) (threads σ) (focusTasks σ) (client σ) true.

(** Who moves next. *)
Inductive Label :=
  | LCall (c : Call)               (* the client enters a public call *)
  | LClient                        (* the client goes on inside stopPreview / takePicture *)
  | LPreview (t : PreviewThread)   (* preview thread [t] moves *)
  | LFocus.                        (* one pending auto-focus task runs *)

(** Threads started by a stretch of code, read off its events. *)
Definition spawn (e : Event) (σ : System) : System :=
  match e with
  | EvSpawnPreview t => set_threads (<[t := mkThread AtLoop false]> (threads σ)) σ
  | EvSpawnFocus => set_focusTasks (S (focusTasks σ)) σ
  | _ => σ
  end.

Definition spawn_all (tr : list Event) (σ : System) : System :=
  foldl (λ σ e, spawn e σ) σ tr.

(** Run a stretch of a member function on the object of the system. *)
Definition on_hw {A} (m : M A) (σ : System)
    (k : A → System → System * list Event) : System * list Event :=
  match m (hw σ) with
  | Done a s tr =>
      let '(σ', tr') := k a (spawn_all tr (set_hw s σ)) in (σ', tr ++ tr')
  | Fault tr => (set_crashed σ, tr)
  end.

(** The entry points that do not run in one step. *)
Definition is_split (c : Call) : bool :=
  match c with
  | StopPreview | TakePicture => true
  | _ => false
  end.

(** Modelled from the spec: [requestExitAndWait] asks the thread to exit
    and returns once its loop has exited. *)
Definition request_exit (t : nat) (σ : System) : System :=
  set_threads (alter (λ st, mkThread (pc st) true) t (threads σ)) σ.

Definition thread_exited (σ : System) (t : PreviewThread) : bool :=
  match threads σ !! t with
  | Some st => bool_decide (pc st = Exited)
  | None => false
  end.

(** The client enters a public call.  [stopPreview] and [takePicture] only
    begin; every other entry point runs to its return.  The object
    [startPreview] gets from [new] is one that no thread has had before. *)
Definition step_call (c : Call) (σ : System) : option (System * list Event) :=
  match client σ with
  | CIn _ _ => None
  | CIdle =>
      if is_split c then Some (set_client (CIn c SFlag) σ, [EvCall c])
      else
        let go :=
          let '(σ', tr) := on_hw (exec_call c) σ (λ r σ', (σ', [EvReturn c r])) in
          Some (σ', EvCall c :: tr) in
        match c with
        | StartPreview fresh =>
            if bool_decide (fresh ∈ dom (threads σ)) then None else go
        | _ => go
        end
  end.

(** The client goes on inside [stopPreview].  The wait is the one step
    that can be disabled: it needs the thread to have exited.  The picture
    sequence of [takePicture] is taken in one step. *)
Definition step_client (σ : System) : option (System * list Event) :=
  match client σ with
  | CIdle => None
  | CIn c SFlag =>
      Some (on_hw stopPreview_flag σ (λ _ σ', (set_client (CIn c STeardown) σ', [])))
  | CIn c STeardown =>
      Some (on_hw stopPreview_teardown σ (λ _ σ', (set_client (CIn c SRead) σ', [])))
  | CIn c SRead =>
      Some (on_hw stopPreview_read σ (λ h σ', (set_client (CIn c (SRequest h)) σ', [])))
  | CIn c (SRequest None) =>
      Some (on_hw (stopPreview_wait None) σ (λ _ σ', (set_client (CIn c SClear) σ', [])))
  | CIn c (SRequest (Some t)) =>
      Some (on_hw (stopPreview_wait (Some t)) σ
              (λ _ σ', (set_client (CIn c (SWait t)) (request_exit t σ'), [])))
  | CIn c (SWait t) =>
      if thread_exited σ t then Some (set_client (CIn c SClear) σ, []) else None
  | CIn c SClear =>
      Some (on_hw stopPreview_clear σ
              (λ _ σ',
                 match c with
                 | TakePicture => (set_client (CIn c SPicture) σ', [])
                 | _ => (set_client CIdle σ', [EvReturn c RVoid])
                 end))
  | CIn c SPicture =>
      Some (on_hw pictureThread σ
              (λ _ σ', (set_client CIdle σ', [EvReturn c (RStatus NO_ERROR)])))
  end.

Definition set_pc (t : PreviewThread) (p : PreviewPc) (σ : System) : System :=
  set_threads (alter (λ st, mkThread p (exitPending st)) t (threads σ)) σ.

(** Modelled from the spec: one step of the preview loop.  A pass is the
    body of [previewThread], in its three stretches; after a pass the loop
    ends if it was asked to exit, and starts the next pass otherwise. *)
Definition step_preview (t : PreviewThread) (σ : System)
  : option (System * list Event) :=
  match threads σ !! t with
  | None => None
  | Some st =>
      match pc st with
      | AtLoop =>
          Some (if previewStopped (hw σ) then set_pc t AtExitCheck σ
                else set_pc t AtGrab σ, [])
      | AtGrab =>
          Some (on_hw grabPreviewFrame σ (λ _ σ', (set_pc t AtDispatch σ', [])))
      | AtDispatch =>
          Some (on_hw previewDispatch σ (λ _ σ', (set_pc t AtExitCheck σ', [])))
      | AtExitCheck =>
          Some (if exitPending st then set_pc t Exited σ
                else set_pc t AtLoop σ, [])
      | Exited => None
      end
  end.

(** One of the detached threads [autoFocus] created runs
    [autoFocusThread]. *)
Definition step_focus (σ : System) : option (System * list Event) :=
  match focusTasks σ with
  | O => None
  | S n =>
      Some (on_hw autoFocusThread (set_focusTasks n σ) (λ _ σ', (σ', [])))
  end.

(** One step of the system.  After a fault nothing moves any more. *)
Definition step (l : Label) (σ : System) : option (System * list Event) :=
  if crashed σ then None
  else match l with
       | LCall c => step_call c σ
       | LClient => step_client σ
       | LPreview t => step_preview t σ
       | LFocus => step_focus σ
       end.

(** A run under a schedule: the state reached and the trace, or [None] if
    the schedule asks for a step that is not enabled. *)
Fixpoint run (sched : list Label) (σ : System) : option (System * list Event) :=
  match sched with
  | [] => Some (σ, [])
  | l :: sched' =>
      match step l σ with
      | None => None
      | Some (σ1, tr1) =>
          match run sched' σ1 with
          | None => None
          | Some (σ2, tr2) => Some (σ2, tr1 ++ tr2)
          end
      end
  end.

(** A session right after construction, with no thread and an idle client. *)
Definition boot (junk : Z) : option System :=
  match CameraHardware_ctor junk with
  | Done _ s _ => Some (mkSys s ∅ 0 CIdle false)
  | Fault _ => None
  end.

Definition reachable (σ : System) : Prop :=
  ∃ junk σ0 sched tr, boot junk = Some σ0 ∧ run sched σ0 = Some (σ, tr).

(** ** Reading a trace *)

Definition is_preview_dispatch (e : Event) : bool :=
  match e with
  | EvData _ msgType _ _ => bool_decide (msgType = CAMERA_MSG_PREVIEW_FRAME)
  | _ => false
  end.

Definition is_startPreview_call (e : Event) : bool :=
  match e with
  | EvCall (StartPreview _) => true
  | _ => false
  end.

Definition is_stopPreview_return (e : Event) : bool :=
  match e with
  | EvReturn StopPreview _ => true
  | _ => false
  end.

Definition is_callback (e : Event) : bool :=
  match e with
  | EvNotify _ _ _ _ _ | EvData _ _ _ _ => true
  | _ => false
  end.

(** The monitor of "no preview frame after stopPreview returned": [quiet]
    holds from a return of [stopPreview] to the next call of
    [startPreview]; the answer is [None] once a preview frame is dispatched
    while [quiet] holds. *)
Fixpoint monitor (quiet : bool) (tr : list Event) : option bool :=
  match tr with
  | [] => Some quiet
  | e :: tr' =>
      if quiet && is_preview_dispatch e then None
      else if is_stopPreview_return e then monitor true tr'
      else if is_startPreview_call e then monitor false tr'
      else monitor quiet tr'
  end.

(** Calls, returns and callbacks: what a consumer of the session sees. *)
Definition is_visible (e : Event) : bool :=
  match e with
  | EvCall _ | EvReturn _ _ | EvNotify _ _ _ _ _ | EvData _ _ _ _ => true
  | _ => false
  end.

(** [msgTypeEnabled] for one kind, and "exactly these kinds are enabled". *)
Definition kind_enabled (s : CameraHardware) (k : MsgKind) : bool :=
  flag_set (mMsgEnabled s) (msg_bit k).

Definition exactly_enabled (s : CameraHardware) (ks : list MsgKind) : Prop :=
  ∀ k, kind_enabled s k = bool_decide (k ∈ ks).

Definition no_call (l : Label) : Prop := ∀ c, l ≠ LCall c.

(* ================================================================== *)
(** * Part 4: the factory *)
(* ================================================================== *)

(** Modelled from the spec: the strong and weak pointer classes ([sp],
    [wp]) are declared outside this tree.  The spec has the consumer hold
    shared, reference-counted handles, and the factory track the session
    with a non-owning reference that can be promoted while a handle is
    left.  A process therefore has the sessions that are alive, each with
    the number of handles on it, and the [singleton] reference. *)
Record Process := mkProc {
  singleton : option nat;
  objects : gmap nat (CameraHardware * nat)
}.

Definition Process_start : Process := mkProc None ∅.

(** [wp::promote]: a new handle, if the object is still alive. *)
Definition promote (a : nat) (p : Process) : option Process :=
  match objects p !! a with
  | Some (s, n) => Some (mkProc (singleton p) (<[a := (s, S n)]> (objects p)))
  | None => None
  end.

(** [addr] is where [new CameraHardware()] puts the object, [junk] what
    that memory holds where [mMsgEnabled] will live. *)
Definition createInstance (addr : nat) (junk : Z) (p : Process)
  : option (nat * Process) :=
  let construct :=
    if bool_decide (addr ∈ dom (objects p)) then None
    else match CameraHardware_ctor junk with
         | Done _ s _ => Some (addr, mkProc (Some addr) (<[addr := (s, 1%nat)]> (objects p)))
         | Fault _ => None
         end in
  match singleton p with
  | Some a =>
      match promote a p with
      | Some p' => Some (a, p')
      | None => construct
      end
  | None => construct
  end.

(** A handle is copied. *)
Definition cloneHandle (a : nat) (p : Process) : option Process := promote a p.

(** A handle goes away; with the last one the destructor runs, which
    clears [singleton]. *)
Definition dropHandle (a : nat) (p : Process) : option Process :=
  match objects p !! a with
  | Some (s, S (S n)) => Some (mkProc (singleton p) (<[a := (s, S n)]> (objects p)))
  | Some (s, _) => Some (mkProc None (delete a (objects p)))
  | None => None
  end.

(** A call through a handle. *)
Definition callOn (a : nat) (c : Call) (p : Process) : option Process :=
  match objects p !! a with
  | Some (s, n) =>
      match exec_call c s with
      | Done _ s' _ => Some (mkProc (singleton p) (<[a := (s', n)]> (objects p)))
      | Fault _ => None
      end
  | None => None
  end.

Inductive ProcOp :=
  | PCreate (addr : nat) (junk : Z)
  | PClone (a : nat)
  | PDrop (a : nat)
  | PCall (a : nat) (c : Call).

Definition proc_step (o : ProcOp) (p : Process) : option Process :=
  match o with
  | PCreate addr junk => snd <$> createInstance addr junk p
  | PClone a => cloneHandle a p
  | PDrop a => dropHandle a p
  | PCall a c => callOn a c p
  end.

Fixpoint proc_run (ops : list ProcOp) (p : Process) : option Process :=
  match ops with
  | [] => Some p
  | o :: ops' =>
      match proc_step o p with
      | Some p' => proc_run ops' p'
      | None => None
      end
  end.

Definition proc_reachable (p : Process) : Prop :=
  ∃ ops, proc_run ops Process_start = Some p.

Definition default_parameters (q : CameraParameters) : Prop :=
  getPreviewSize q = (640, 480) ∧
  getPictureSize q = (640, 480) ∧
  getPreviewFrameRate q = 15 ∧
  getPreviewFormat q = "yuv422sp" ∧
  getPictureFormat q = "jpeg".

(* ================================================================== *)
(** * Part 5: vocabulary of the proofs *)
(* ================================================================== *)

(** ** What the stretches of code log, in closed form *)

(** The device calls of [stopPreview] and its wait, given the handle. *)
Definition teardown_events (h : option PreviewThread) : list Event :=
  match h with
  | Some _ => [EvDev DevUninit; EvDev DevStopStreaming; EvDev DevClose]
  | None => []
  end.

Definition wait_events (h : option PreviewThread) : list Event :=
  match h with
  | Some t => [EvRequestExitAndWait t]
  | None => []
  end.

(** The picture sequence in closed form: what the shutter dispatch and the
    compressed-image dispatch log, [None] standing for a fault. *)
Definition shutter_events (s : CameraHardware) : option (list Event) :=
  if flag_set (mMsgEnabled s) CAMERA_MSG_SHUTTER then
    match mNotifyFn s with
    | Some nf => Some [EvNotify nf CAMERA_MSG_SHUTTER 0 0 (mUser s)]
    | None => None
    end
  else Some [].

Definition jpeg_events (s : CameraHardware) : option (list Event) :=
  if flag_set (mMsgEnabled s) CAMERA_MSG_COMPRESSED_IMAGE then
    match mDataFn s with
    | Some df => Some [EvDev DevGrabJpegFrame;
                       EvData df CAMERA_MSG_COMPRESSED_IMAGE JpegMem (mUser s)]
    | None => None
    end
  else Some [].

Definition picture_open : list Event :=
  [EvDev (DevOpen VIDEO_DEVICE MIN_WIDTH MIN_HEIGHT PIXEL_FORMAT);
   EvDev DevInit; EvDev DevStartStreaming].

Definition picture_close : list Event :=
  [EvDev DevUninit; EvDev DevStopStreaming; EvDev DevClose].

(** ** Kinds of entry points and of events *)

(** The entry points that may change the preview thread handle. *)
Definition changes_handle (c : Call) : bool :=
  match c with
  | StartPreview _ | StopPreview | TakePicture => true
  | _ => false
  end.

(** The event that starts a preview thread. *)
Definition is_preview_spawn (e : Event) : bool :=
  match e with
  | EvSpawnPreview _ => true
  | _ => false
  end.

(** Events the monitor passes over whatever its state. *)
Definition is_plain (e : Event) : bool :=
  negb (is_stopPreview_return e) && negb (is_startPreview_call e) &&
  negb (is_preview_dispatch e).

(** ** The invariant of the interleaving semantics *)

Definition all_exited (σ : System) : Prop :=
  ∀ t st, threads σ !! t = Some st → pc st = Exited.

(** What holds of the object while the client is inside [stopPreview]. *)
Definition client_ok (σ : System) : Prop :=
  match client σ with
  | CIdle => True
  | CIn c pt =>
      is_split c = true ∧
      match pt with
      | SFlag => True
      | STeardown | SRead => previewStopped (hw σ) = true
      | SRequest h =>
          previewStopped (hw σ) = true ∧ h = mPreviewThread (hw σ)
      | SWait t =>
          previewStopped (hw σ) = true ∧ mPreviewThread (hw σ) = Some t ∧
          ∃ st, threads σ !! t = Some st ∧ exitPending st = true
      | SClear => previewStopped (hw σ) = true ∧ all_exited σ
      | SPicture => c = TakePicture ∧ mPreviewThread (hw σ) = None
      end
  end.

Record inv (σ : System) : Prop := mkInv {
  (* a preview thread that has not exited is the one the handle refers to *)
  inv_live : ∀ t st, threads σ !! t = Some st → pc st ≠ Exited →
                     mPreviewThread (hw σ) = Some t;
  (* the handle refers to a thread *)
  inv_handle : ∀ t, mPreviewThread (hw σ) = Some t → is_Some (threads σ !! t);
  (* without a handle the stopped flag is set *)
  inv_stopped : mPreviewThread (hw σ) = None → previewStopped (hw σ) = true;
  (* with a handle the preview heap is allocated *)
  inv_heap : ∀ t, mPreviewThread (hw σ) = Some t → is_Some (mHeap (hw σ));
  inv_client : client_ok σ
}.

(** Preview thread [t] has exited in [σ'], and nothing else differs from [σ]. *)
Definition drained (t : nat) (σ σ' : System) : Prop :=
  thread_exited σ' t = true ∧ hw σ' = hw σ ∧ client σ' = client σ ∧
  crashed σ' = false.

(** ** A capture *)

(** The fields the dispatches read. *)
Definition same_config (s s' : CameraHardware) : Prop :=
  mMsgEnabled s' = mMsgEnabled s ∧ mNotifyFn s' = mNotifyFn s ∧
  mDataFn s' = mDataFn s ∧ mUser s' = mUser s.

(** The two callbacks of a capture on a session configured like [s0]. *)
Definition shutter_cb (s0 : CameraHardware) (nf : nat) : Event :=
  EvNotify nf CAMERA_MSG_SHUTTER 0 0 (mUser s0).
Definition jpeg_cb (s0 : CameraHardware) (df : nat) : Event :=
  EvData df CAMERA_MSG_COMPRESSED_IMAGE JpegMem (mUser s0).

(** Where a capture stands: inside [takePicture] nothing but the call has
    been seen; back from it, the two callbacks and the return have. *)
Definition capture_phase (s0 : CameraHardware) (nf df : nat)
    (σ : System) (seen : list Event) : Prop :=
  same_config s0 (hw σ) ∧
  match client σ with
  | CIn TakePicture _ => seen = [EvCall TakePicture]
  | CIdle =>
      seen = [EvCall TakePicture; shutter_cb s0 nf; jpeg_cb s0 df;
              EvReturn TakePicture (RStatus NO_ERROR)] ∧
      mPreviewThread (hw σ) = None
  | CIn _ _ => False
  end.

(** ** The factory *)

(** The object the constructor yields. *)
Definition constructed (junk : Z) : CameraHardware :=
  set_mParameters (mkParams (640, 480) 15 "yuv422sp" (640, 480) "jpeg")
                  (CameraHardware_members junk).

(** At most one session is alive, and [singleton] refers to it. *)
Definition proc_inv (p : Process) : Prop :=
  (singleton p = None ∧ objects p = ∅) ∨
  (∃ a s n, singleton p = Some a ∧ objects p = {[ a := (s, S n) ]}).

(** ** Sample sessions and runs *)

(** The session right after construction, with the preview kind enabled,
    preview started, and no callback ever registered. *)
Definition unregistered_preview_session : outcome unit :=
  match CameraHardware_ctor 0 with
  | Done _ s _ =>
      (enableMsgType CAMERA_MSG_PREVIEW_FRAME;;
       startPreview 1%nat;;
       mret tt) s
  | Fault tr => Fault tr
  end.

(** The session right after construction, with preview started. *)
Definition previewing_session : outcome status_t :=
  match CameraHardware_ctor 0 with
  | Done _ s _ => startPreview 1%nat s
  | Fault tr => Fault tr
  end.

(** The session right after construction, with the shutter and
    compressed-image kinds enabled and no callback ever registered. *)
Definition unregistered_capture_session : outcome unit :=
  match CameraHardware_ctor 0 with
  | Done _ s _ =>
      enableMsgType (Z.lor CAMERA_MSG_SHUTTER CAMERA_MSG_COMPRESSED_IMAGE) s
  | Fault tr => Fault tr
  end.

(** A run with a preview frame before, during and none after [stopPreview]. *)
Definition stop_demo : list Label :=
  [LCall (SetCallbacks (Some 1%nat) (Some 2%nat) None 7);
   LCall (EnableMsgType CAMERA_MSG_PREVIEW_FRAME);
   LCall (StartPreview 5%nat);
   LPreview 5%nat; LPreview 5%nat; LPreview 5%nat; LPreview 5%nat;
   LPreview 5%nat;
   LCall StopPreview; LClient; LClient;
   LPreview 5%nat;
   LClient; LClient;
   LPreview 5%nat; LPreview 5%nat;
   LClient; LClient].

(** A session with the two kinds enabled, callbacks registered, preview
    running and the preview thread in the middle of a pass. *)
Definition capture_demo : list Label :=
  [LCall (SetCallbacks (Some 1%nat) (Some 2%nat) None 7);
   LCall (EnableMsgType (Z.lor CAMERA_MSG_SHUTTER CAMERA_MSG_COMPRESSED_IMAGE));
   LCall (StartPreview 5%nat);
   LPreview 5%nat; LPreview 5%nat].

(** Two handles taken on one session, a call through one of them, and
    both handles dropped. *)
Definition factory_demo : list ProcOp :=
  [PCreate 10 0; PCreate 11 5; PCall 10 (SetParameters
     (mkParams (320, 240) 30 "yuv422sp" (320, 240) "jpeg"));
   PDrop 10; PDrop 10].

(** ** The message mask as a 32-bit integer *)

(** The values an [int32_t] holds. *)
Definition in_int32 (z : Z) : Prop := -2147483648 ≤ z < 2147483648.

(** ** What the entry points leave of the object *)

(** The object after a [startPreview] that went through. *)
Definition started (fresh : nat) (s : CameraHardware) : CameraHardware :=
  set_mPreviewThread (Some fresh)
    (set_previewStopped false
       (set_mBuffer (Some (mkMem (mkHeap 614400) 0 614400))
          (set_mHeap (Some (mkHeap 614400))
             (set_mPreviewFrameSize 614400 s)))).

(** The stored parameters are ones [setParameters] accepts and has pinned. *)
Definition params_ok (q : CameraParameters) : Prop :=
  getPreviewFormat q = "yuv422sp" ∧
  getPictureFormat q = "jpeg" ∧
  getPreviewSize q = (640, 480).

(** No raw heap; no preview heap, or the one of 640 x 480 x 2 bytes with
    [mBuffer] covering all of it. *)
Definition heap_ok (s : CameraHardware) : Prop :=
  mRawHeap s = None ∧
  ((mHeap s = None ∧ mBuffer s = None) ∨
   (mHeap s = Some (mkHeap 614400) ∧
    mBuffer s = Some (mkMem (mkHeap 614400) 0 614400))).

(** ** The device, as the calling threads drive it *)

(** Where the capture device stands between the calls [startPreview],
    [stopPreview] and [pictureThread] make on it. *)
Inductive DevState :=
  | DClosed | DOpened | DInited | DStreaming | DUninited | DStopped.

(** The order those calls keep.  The device is opened on the fixed path,
    geometry and pixel format only.  The frame grabs of the preview thread
    are passed over: they are not ordered with respect to the client's
    calls. *)
Definition dev_next (d : DevState) (o : DevOp) : option DevState :=
  match o, d with
  | DevGrabPreviewFrame _, _ => Some d
  | DevOpen path w h fmt, DClosed =>
      if bool_decide (path = VIDEO_DEVICE ∧ w = 640 ∧ h = 480 ∧
                      fmt = V4L2_PIX_FMT_YUYV)
      then Some DOpened else None
  | DevInit, DOpened => Some DInited
  | DevStartStreaming, DInited => Some DStreaming
  | DevGrabJpegFrame, DStreaming => Some DStreaming
  | DevUninit, DStreaming => Some DUninited
  | DevStopStreaming, DUninited => Some DStopped
  | DevClose, DStopped => Some DClosed
  | _, _ => None
  end.

Fixpoint dev_follow (d : DevState) (tr : list Event) : option DevState :=
  match tr with
  | [] => Some d
  | EvDev o :: tr' =>
      match dev_next d o with
      | Some d' => dev_follow d' tr'
      | None => None
      end
  | _ :: tr' => dev_follow d tr'
  end.

(** Where the device should stand, given where the client is. *)
Definition dev_expected (σ : System) : DevState :=
  match client σ with
  | CIdle | CIn _ SFlag | CIn _ STeardown =>
      match mPreviewThread (hw σ) with
      | Some _ => DStreaming
      | None => DClosed
      end
  | CIn _ _ => DClosed
  end.

Definition is_dev (e : Event) : bool :=
  match e with
  | EvDev _ => true
  | _ => false
  end.

(** ** The callback slots *)

(** Both slots that the code calls through hold a function. *)
Definition callbacks_registered (s : CameraHardware) : Prop :=
  is_Some (mNotifyFn s) ∧ is_Some (mDataFn s).

(** Any step but a [setCallbacks] that passes a null notify or data
    callback. *)
Definition keeps_callbacks (l : Label) : bool :=
  match l with
  | LCall (SetCallbacks n d _ _) => bool_decide (is_Some n ∧ is_Some d)
  | _ => true
  end.

(** Frames, an auto-focus round and a capture on a registered session. *)
Definition registered_demo : list Label :=
  [LPreview 5%nat; LPreview 5%nat;
   LCall (EnableMsgType CAMERA_MSG_FOCUS);
   LCall (AutoFocus true); LFocus;
   LCall TakePicture; LClient; LClient; LClient; LClient;
   LPreview 5%nat; LPreview 5%nat;
   LClient; LClient; LClient].

(** ** Frames still under way when [previewStopped] is set *)

Definition is_preview_grab (e : Event) : bool :=
  match e with
  | EvDev (DevGrabPreviewFrame _) => true
  | _ => false
  end.

Definition is_startPreview_label (l : Label) : bool :=
  match l with
  | LCall (StartPreview _) => true
  | _ => false
  end.

(** Where the preview thread the handle refers to is in its pass. *)
Definition handled_pc (σ : System) : option PreviewPc :=
  match mPreviewThread (hw σ) with
  | Some t => pc <$> threads σ !! t
  | None => None
  end.

(** The grabs and dispatches the current pass still has before it, once it
    is past the test of [previewStopped]. *)
Definition grabs_due (σ : System) : nat :=
  match handled_pc σ with
  | Some AtGrab => 1
  | _ => 0
  end.

Definition frames_due (σ : System) : nat :=
  match handled_pc σ with
  | Some AtGrab | Some AtDispatch => 1
  | _ => 0
  end.

(** A preview thread past the test of [previewStopped] when the client
    sets the flag, and what follows. *)
Definition stale_demo : list Label :=
  [LCall (SetCallbacks (Some 1%nat) (Some 2%nat) None 7);
   LCall (EnableMsgType CAMERA_MSG_PREVIEW_FRAME);
   LCall (StartPreview 5%nat);
   LPreview 5%nat;
   LCall StopPreview; LClient].

Definition stale_rest : list Label :=
  [LPreview 5%nat; LPreview 5%nat; LPreview 5%nat; LPreview 5%nat;
   LClient; LClient; LClient;
   LPreview 5%nat;
   LClient; LClient;
   LCall (AutoFocus true); LFocus].

(** An event that is neither a preview grab nor a preview dispatch. *)
Definition quiet_event (e : Event) : bool :=
  negb (is_preview_grab e) && negb (is_preview_dispatch e).

(** What a stretch of a run logs, plus what is still due after it, does
    not exceed what was due before it. *)
Definition within_due (σ σ' : System) (tr : list Event) : Prop :=
  (length (filter is_preview_grab tr) + grabs_due σ' ≤ grabs_due σ)%nat ∧
  (length (filter is_preview_dispatch tr) + frames_due σ' ≤ frames_due σ)%nat.

(** ** Entry points that only observe *)

(** The entry points whose body reads at most one field and writes none,
    or is empty, or only returns a constant; and [autoFocus] when
    [createThread] refuses. *)
Definition is_observer (c : Call) : bool :=
  match c with
  | MsgTypeEnabled _ | PreviewEnabled
  | StartRecording | StopRecording | RecordingEnabled | ReleaseRecordingFrame
  | AutoFocus false | CancelAutoFocus | CancelPicture | Dump
  | SendCommand _ _ _ | GetParameters | GetPreviewHeap | GetRawHeap => true
  | _ => false
  end.

Definition observer_label (l : Label) : bool :=
  match l with
  | LCall c => is_observer c
  | _ => false
  end.

Definition observer_event (e : Event) : bool :=
  match e with
  | EvCall c | EvReturn c _ => is_observer c
  | _ => false
  end.

(** A schedule, and a trace, with the observing calls taken out. *)
Definition without_observers (sched : list Label) : list Label :=
  filter (λ l, negb (observer_label l)) sched.

Definition without_observations (tr : list Event) : list Event :=
  filter (λ e, negb (observer_event e)) tr.

(** [stop_demo] with observing calls put in between. *)
Definition observed_demo : list Label :=
  [LCall RecordingEnabled;
   LCall (SetCallbacks (Some 1%nat) (Some 2%nat) None 7);
   LCall (EnableMsgType CAMERA_MSG_PREVIEW_FRAME);
   LCall StartRecording;
   LCall (StartPreview 5%nat);
   LCall PreviewEnabled; LCall GetPreviewHeap;
   LPreview 5%nat; LPreview 5%nat; LPreview 5%nat;
   LCall (SendCommand 1 2 3); LCall CancelAutoFocus;
   LPreview 5%nat; LPreview 5%nat;
   LCall StopPreview; LClient; LClient;
   LPreview 5%nat;
   LClient; LClient;
   LPreview 5%nat; LPreview 5%nat;
   LClient; LClient;
   LCall PreviewEnabled; LCall GetParameters; LCall Dump].

(** ** Where the callbacks go *)

Definition is_setCallbacks (l : Label) : bool :=
  match l with
  | LCall (SetCallbacks _ _ _ _) => true
  | _ => false
  end.

(** The four fields [setCallbacks] writes. *)
Definition same_registration (s s' : CameraHardware) : Prop :=
  mNotifyFn s' = mNotifyFn s ∧ mDataFn s' = mDataFn s ∧
  mTimestampFn s' = mTimestampFn s ∧ mUser s' = mUser s.

(** A callback as an object with the registration of [s] makes it: to the
    registered function, with the registered token; a notification is the
    shutter one or a successful focus; a data callback is a preview frame
    with the whole 640 x 480 x 2 buffer or a compressed image. *)
Definition callback_ok (s : CameraHardware) (e : Event) : bool :=
  match e with
  | EvNotify fn m e1 e2 u =>
      bool_decide (mNotifyFn s = Some fn) && bool_decide (u = mUser s) &&
      (bool_decide (m = CAMERA_MSG_SHUTTER ∧ e1 = 0 ∧ e2 = 0) ||
       bool_decide (m = CAMERA_MSG_FOCUS ∧ e1 = 1 ∧ e2 = 0))
  | EvData fn m mem u =>
      bool_decide (mDataFn s = Some fn) && bool_decide (u = mUser s) &&
      match mem with
      | PreviewMem (Some b) =>
          bool_decide (m = CAMERA_MSG_PREVIEW_FRAME ∧
                       heap_size (mem_heap b) = 614400 ∧
                       mem_offset b = 0 ∧ mem_size b = 614400)
      | PreviewMem None => false
      | JpegMem => bool_decide (m = CAMERA_MSG_COMPRESSED_IMAGE)
      end
  | _ => true
  end.

(** ** The exported entry point *)

(** [openCameraHardware] is [createInstance]. *)
Definition openCameraHardware (addr : nat) (junk : Z) (p : Process)
  : option (nat * Process) :=
  createInstance addr junk p.

(** ** Auto-focus tasks and their notifications *)

Definition is_focus_notify (e : Event) : bool :=
  match e with
  | EvNotify _ msgType _ _ _ => bool_decide (msgType = CAMERA_MSG_FOCUS)
  | _ => false
  end.

Definition is_focus_spawn (e : Event) : bool :=
  match e with
  | EvSpawnFocus => true
  | _ => false
  end.

Definition is_focus_label (l : Label) : bool :=
  match l with
  | LFocus => true
  | _ => false
  end.

(** Auto-focus rounds, one of them refused by [createThread], a
    [cancelAutoFocus] in between, and the focus kind switched off before
    the last task runs. *)
Definition focus_demo : list Label :=
  [LCall (SetCallbacks (Some 1%nat) (Some 2%nat) None 7);
   LCall (EnableMsgType CAMERA_MSG_FOCUS);
   LCall (AutoFocus true); LCall (AutoFocus false); LCall (AutoFocus true);
   LCall CancelAutoFocus; LFocus;
   LCall (AutoFocus true);
   LCall (DisableMsgType CAMERA_MSG_FOCUS); LFocus].

(* ================================================================== *)
(** * Part 6: properties *)
(* ================================================================== *)

(** ** Tools *)

Ltac unfold_m :=
  unfold when in *;
  unfold mbind, mret, M_bind, M_ret, bind, ret, get, modify, emit, fault in *.

Lemma String_compare_refl (a : string) : String.compare a a = Eq.
Proof.
  induction a as [|c a IH]; simpl; [done|].
  unfold Ascii.compare. by rewrite N.compare_refl.
Qed.

Lemma strcmp_zero (a b : string) : strcmp a b = 0 ↔ a = b.
Proof.
  unfold strcmp. split.
  - destruct (String.compare a b) eqn:E; try discriminate.
    intros _. by apply String.compare_eq_iff.
  - intros ->. by rewrite String_compare_refl.
Qed.

Lemma strcmp_nonzero (a b : string) : negb (strcmp a b =? 0) = true ↔ a ≠ b.
Proof.
  rewrite negb_true_iff, Z.eqb_neq. by rewrite strcmp_zero.
Qed.

Lemma strcmp_same (a : string) : negb (strcmp a a =? 0) = false.
Proof.
  apply negb_false_iff, Z.eqb_eq. by apply strcmp_zero.
Qed.

(** ** Parameters *)

Section Parameters.
Variable s : CameraHardware.
Variable params : CameraParameters.

Lemma setParameters_bad_preview :
  getPreviewFormat params ≠ "yuv422sp" →
  setParameters params s = Done (-1) s [].
Proof.
  intros H. unfold setParameters.
  apply strcmp_nonzero in H. by rewrite H.
Qed.

Lemma setParameters_bad_picture :
  getPictureFormat params ≠ "jpeg" →
  setParameters params s = Done (-1) s [].
Proof.
  intros H. unfold setParameters.
  apply strcmp_nonzero in H. rewrite H.
  by destruct (negb (strcmp (getPreviewFormat params) "yuv422sp" =? 0)).
Qed.

Lemma setParameters_good :
  getPreviewFormat params = "yuv422sp" →
  getPictureFormat params = "jpeg" →
  setParameters params s =
    Done NO_ERROR
         (set_mParameters (setPreviewSize MIN_WIDTH MIN_HEIGHT params) s) [].
Proof.
  intros H1 H2. unfold setParameters.
  rewrite H1, H2, !strcmp_same. reflexivity.
Qed.
End Parameters.

(** C4.  A parameter set whose preview format is not "yuv422sp" or whose
    picture format is not "jpeg" is refused: [setParameters] returns -1,
    which is not [NO_ERROR], the object is exactly what it was, and the
    [getParameters] that follows answers what it would have answered
    before. *)
Theorem setParameters_invalid_format (s : CameraHardware) (params : CameraParameters) :
  getPreviewFormat params ≠ "yuv422sp" ∨ getPictureFormat params ≠ "jpeg" →
  setParameters params s = Done (-1) s [] ∧
  -1 ≠ NO_ERROR ∧
  (setParameters params;; getParameters) s = getParameters s.
Proof.
  intros H.
  assert (E : setParameters params s = Done (-1) s []).
  { destruct H; [by apply setParameters_bad_preview
                | by apply setParameters_bad_picture]. }
  split; [exact E|]. split; [done|].
  unfold mbind, M_bind, bind. rewrite E.
  unfold getParameters. unfold_m. reflexivity.
Qed.

Lemma setParameters_invalid_format_witness :
  let s := CameraHardware_members 0 in
  let params := setPreviewFormat "rgb565" CameraParameters_empty in
  setParameters params s = Done (-1) s [] ∧
  -1 ≠ NO_ERROR ∧
  (setParameters params;; getParameters) s = getParameters s.
Proof.
  intros s params.
  apply (setParameters_invalid_format s params).
  left. vm_compute. discriminate.
Defined.

(** C5.  A parameter set with preview format "yuv422sp" and picture format
    "jpeg" is accepted whatever else it holds: [setParameters] returns
    [NO_ERROR], nothing but [mParameters] changes, the stored preview size
    is 640x480, and the four other parameters are the requested ones. *)
Theorem setParameters_accepts_and_pins_preview_size
    (s : CameraHardware) (params : CameraParameters) :
  getPreviewFormat params = "yuv422sp" →
  getPictureFormat params = "jpeg" →
  ∃ s',
    setParameters params s = Done NO_ERROR s' [] ∧
    s' = set_mParameters (mParameters s') s ∧
    getPreviewSize (mParameters s') = (640, 480) ∧
    getPreviewFrameRate (mParameters s') = getPreviewFrameRate params ∧
    getPreviewFormat (mParameters s') = getPreviewFormat params ∧
    getPictureSize (mParameters s') = getPictureSize params ∧
    getPictureFormat (mParameters s') = getPictureFormat params.
Proof.
  intros H1 H2. eexists. split.
  - by apply setParameters_good.
  - by repeat split.
Qed.

Lemma setParameters_accepts_and_pins_preview_size_witness :
  let s := CameraHardware_members 0 in
  let params := mkParams (1920, 1080) 30 "yuv422sp" (2048, 1536) "jpeg" in
  ∃ s',
    setParameters params s = Done NO_ERROR s' [] ∧
    s' = set_mParameters (mParameters s') s ∧
    getPreviewSize (mParameters s') = (640, 480) ∧
    getPreviewFrameRate (mParameters s') = getPreviewFrameRate params ∧
    getPreviewFormat (mParameters s') = getPreviewFormat params ∧
    getPictureSize (mParameters s') = getPictureSize params ∧
    getPictureFormat (mParameters s') = getPictureFormat params.
Proof.
  intros s params.
  apply (setParameters_accepts_and_pins_preview_size s params); reflexivity.
Defined.

(** ** Preview: the handle *)

Lemma set_hw_same (σ : System) : set_hw (hw σ) σ = σ.
Proof. by destruct σ. Qed.

Lemma startPreview_running (s : CameraHardware) (fresh t : PreviewThread) :
  mPreviewThread s = Some t →
  startPreview fresh s = Done INVALID_OPERATION s [].
Proof.
  intros H. unfold startPreview. unfold_m. by rewrite H.
Qed.

(** C3.  While a preview thread handle is held, [startPreview] returns
    [INVALID_OPERATION] and does nothing else: no device call, no field of
    the object changed.  Seen from the whole system, the call is one step
    that leaves the object, the thread table (so the running preview
    thread) and everything else as they were. *)
Theorem startPreview_while_previewing (σ : System) (fresh t : PreviewThread) :
  mPreviewThread (hw σ) = Some t →
  startPreview fresh (hw σ) = Done INVALID_OPERATION (hw σ) [] ∧
  INVALID_OPERATION ≠ NO_ERROR ∧
  (client σ = CIdle → crashed σ = false → fresh ∉ dom (threads σ) →
   step (LCall (StartPreview fresh)) σ =
     Some (σ, [EvCall (StartPreview fresh);
               EvReturn (StartPreview fresh) (RStatus INVALID_OPERATION)])).
Proof.
  intros H. pose proof (startPreview_running (hw σ) fresh t H) as E.
  split; [exact E|]. split; [done|].
  intros Hc Hk Hf. unfold step, step_call. rewrite Hk, Hc. simpl.
  rewrite bool_decide_eq_false_2 by done.
  unfold on_hw, exec_call, lift, mbind, M_bind, bind. rewrite E. simpl.
  by rewrite set_hw_same.
Qed.

Lemma startPreview_while_previewing_witness :
  let σ := mkSys (set_mPreviewThread (Some 1%nat) (CameraHardware_members 0))
                 {[ 1%nat := mkThread AtLoop false ]} 0 CIdle false in
  startPreview 2%nat (hw σ) = Done INVALID_OPERATION (hw σ) [] ∧
  INVALID_OPERATION ≠ NO_ERROR ∧
  (client σ = CIdle → crashed σ = false → 2%nat ∉ dom (threads σ) →
   step (LCall (StartPreview 2%nat)) σ =
     Some (σ, [EvCall (StartPreview 2%nat);
               EvReturn (StartPreview 2%nat) (RStatus INVALID_OPERATION)])).
Proof.
  intros σ. apply (startPreview_while_previewing σ 2%nat 1%nat). reflexivity.
Defined.

(** What each stretch of code does, in closed form. *)

Lemma stopPreview_flag_eq s :
  stopPreview_flag s = Done tt (set_previewStopped true s) [].
Proof. reflexivity. Qed.

Lemma stopPreview_teardown_eq s :
  stopPreview_teardown s = Done tt s (teardown_events (mPreviewThread s)).
Proof.
  unfold stopPreview_teardown. unfold_m. by destruct (mPreviewThread s).
Qed.

Lemma stopPreview_read_eq s :
  stopPreview_read s = Done (mPreviewThread s) s [].
Proof. reflexivity. Qed.

Lemma stopPreview_wait_eq h s :
  stopPreview_wait h s = Done tt s (wait_events h).
Proof. by destruct h. Qed.

Lemma stopPreview_clear_eq s :
  stopPreview_clear s = Done tt (set_mPreviewThread None s) [].
Proof. reflexivity. Qed.

Lemma stopPreview_eq s :
  stopPreview s =
    Done tt (set_mPreviewThread None (set_previewStopped true s))
         (teardown_events (mPreviewThread s) ++ wait_events (mPreviewThread s)).
Proof.
  unfold stopPreview, stopPreview_flag, stopPreview_teardown, stopPreview_read,
    stopPreview_wait, stopPreview_clear.
  unfold_m. destruct s as [? ? ? ? ? ? ? ? ? ? ? ? ? ? ? [t|]]; reflexivity.
Qed.

Lemma startPreview_idle (s : CameraHardware) (fresh : PreviewThread) :
  mPreviewThread s = None →
  ∃ s', startPreview fresh s =
          Done NO_ERROR s'
               [EvDev (DevOpen VIDEO_DEVICE MIN_WIDTH MIN_HEIGHT PIXEL_FORMAT);
                EvDev DevInit; EvDev DevStartStreaming; EvSpawnPreview fresh] ∧
        mPreviewThread s' = Some fresh ∧
        previewStopped s' = false ∧
        mHeap s' = Some (mkHeap (MIN_WIDTH * MIN_HEIGHT * 2)) ∧
        mMsgEnabled s' = mMsgEnabled s ∧
        mNotifyFn s' = mNotifyFn s ∧ mDataFn s' = mDataFn s ∧
        mUser s' = mUser s ∧ mParameters s' = mParameters s.
Proof.
  intros H. unfold startPreview. unfold_m. rewrite H. simpl.
  eexists. split; [reflexivity|]. by repeat split.
Qed.

(** The stretches that only read the object. *)
Lemma grabPreviewFrame_reads s a s' tr :
  grabPreviewFrame s = Done a s' tr → s' = s.
Proof.
  unfold grabPreviewFrame. unfold_m.
  destruct (mHeap s); simpl; congruence.
Qed.

Lemma previewDispatch_reads s a s' tr :
  previewDispatch s = Done a s' tr → s' = s.
Proof.
  unfold previewDispatch, call_mDataFn. unfold_m.
  destruct (flag_set _ _), (mDataFn s); simpl; congruence.
Qed.

Lemma autoFocusThread_reads s a s' tr :
  autoFocusThread s = Done a s' tr → s' = s.
Proof.
  unfold autoFocusThread, call_mNotifyFn. unfold_m.
  destruct (flag_set _ _), (mNotifyFn s); simpl; congruence.
Qed.

Lemma previewDispatch_eq (s : CameraHardware) :
  previewDispatch s =
    if flag_set (mMsgEnabled s) CAMERA_MSG_PREVIEW_FRAME then
      match mDataFn s with
      | Some fn => Done tt s [EvData fn CAMERA_MSG_PREVIEW_FRAME
                                (PreviewMem (mBuffer s)) (mUser s)]
      | None => Fault []
      end
    else Done tt s [].
Proof.
  unfold previewDispatch, call_mDataFn. unfold_m.
  by destruct (flag_set _ _), (mDataFn s).
Qed.

Lemma autoFocusThread_eq (s : CameraHardware) :
  autoFocusThread s =
    if flag_set (mMsgEnabled s) CAMERA_MSG_FOCUS then
      match mNotifyFn s with
      | Some fn => Done NO_ERROR s [EvNotify fn CAMERA_MSG_FOCUS 1 0 (mUser s)]
      | None => Fault []
      end
    else Done NO_ERROR s [].
Proof.
  unfold autoFocusThread, call_mNotifyFn. unfold_m.
  by destruct (flag_set _ _), (mNotifyFn s).
Qed.

Lemma pictureThread_eq (s : CameraHardware) :
  pictureThread s =
    match shutter_events s with
    | None => Fault []
    | Some e1 =>
        match jpeg_events s with
        | None => Fault (e1 ++ picture_open ++ [EvDev DevGrabJpegFrame])
        | Some e2 => Done NO_ERROR s (e1 ++ picture_open ++ e2 ++ picture_close)
        end
    end.
Proof.
  unfold pictureThread, shutter_events, jpeg_events, call_mNotifyFn, call_mDataFn.
  unfold_m.
  destruct (flag_set (mMsgEnabled s) CAMERA_MSG_SHUTTER);
    destruct (mNotifyFn s) as [nf|]; simpl; try reflexivity;
    destruct (flag_set (mMsgEnabled s) CAMERA_MSG_COMPRESSED_IMAGE);
    destruct (mDataFn s) as [df|]; simpl; reflexivity.
Qed.

Lemma pictureThread_reads s a s' tr :
  pictureThread s = Done a s' tr → s' = s ∧ a = NO_ERROR.
Proof.
  rewrite pictureThread_eq.
  destruct (shutter_events s); [|done]. destruct (jpeg_events s); [|done].
  by intros [= <- <- _].
Qed.

Lemma exec_call_keeps_handle (c : Call) (s : CameraHardware) :
  changes_handle c = false →
  ∃ r s' tr, exec_call c s = Done r s' tr ∧
             mPreviewThread s' = mPreviewThread s ∧
             previewStopped s' = previewStopped s ∧
             mHeap s' = mHeap s.
Proof.
  destruct c; try discriminate; intros _;
    unfold exec_call, lift; unfold_m;
    try (do 3 eexists; split; [reflexivity|done]).
  - destruct created; do 3 eexists; (split; [reflexivity|done]).
  - unfold setParameters. unfold_m.
    destruct (negb _); [do 3 eexists; split; [reflexivity|done]|].
    destruct (negb _); do 3 eexists; (split; [reflexivity|done]).
Qed.

(** ** Calls without a failure path, and those with one *)

(** C9, as the code has it.  [cancelAutoFocus] and [cancelPicture] return
    [NO_ERROR] and [startRecording] returns [UNKNOWN_ERROR], each without
    touching the object.  [autoFocus] returns [NO_ERROR] when the focus
    task could be created, and then one task is started; it returns
    [UNKNOWN_ERROR] when [createThread] refused.  The task itself calls the
    notify slot once, for a successful focus, when the focus kind is
    enabled, and does nothing when it is not; with the kind enabled and no
    notify callback registered it faults. *)
Theorem focus_cancel_recording_results (s : CameraHardware) :
  cancelAutoFocus s = Done NO_ERROR s [] ∧
  cancelPicture s = Done NO_ERROR s [] ∧
  startRecording s = Done UNKNOWN_ERROR s [] ∧
  UNKNOWN_ERROR ≠ NO_ERROR ∧
  autoFocus true s = Done NO_ERROR s [EvSpawnFocus] ∧
  autoFocus false s = Done UNKNOWN_ERROR s [] ∧
  autoFocusThread s =
    (if flag_set (mMsgEnabled s) CAMERA_MSG_FOCUS then
       match mNotifyFn s with
       | Some fn => Done NO_ERROR s [EvNotify fn CAMERA_MSG_FOCUS 1 0 (mUser s)]
       | None => Fault []
       end
     else Done NO_ERROR s []).
Proof.
  repeat split; try done. apply autoFocusThread_eq.
Qed.

(** C9 as stated fails: on a freshly constructed session, [autoFocus]
    answers [UNKNOWN_ERROR] when the focus thread cannot be created. *)
Lemma autoFocus_reports_failure :
  ∃ s, CameraHardware_ctor 0 = Done tt s [] ∧
       exec_call (AutoFocus false) s = Done (RStatus UNKNOWN_ERROR) s [] ∧
       UNKNOWN_ERROR ≠ NO_ERROR.
Proof. eexists. repeat split. done. Qed.

(** ** Dispatch and the callback slots *)

(** C6 as stated fails: with the preview kind enabled and the data slot
    null, a pass of the preview loop grabs a frame and then faults on the
    call through the null slot. *)
Lemma null_data_slot_faults :
  ∃ s tr,
    unregistered_preview_session = Done tt s tr ∧
    mDataFn s = None ∧
    flag_set (mMsgEnabled s) CAMERA_MSG_PREVIEW_FRAME = true ∧
    previewThread s =
      Fault [EvDev (DevGrabPreviewFrame (mkHeap 614400))].
Proof. do 2 eexists. repeat split. Qed.

(** C6, as the code has it.  Dispatch is gated by the mask alone.  At each
    of the three places that dispatch (the preview pass, the focus task,
    the picture sequence): when the kind is not enabled nothing is called
    and nothing faults, whatever the slots hold; when the slot is
    registered nothing faults and the callbacks made go to the registered
    function only; and a fault happens exactly when an enabled kind meets
    a null slot. *)
Theorem dispatch_gated_by_mask_only (s : CameraHardware) :
  (* the preview pass *)
  (flag_set (mMsgEnabled s) CAMERA_MSG_PREVIEW_FRAME = false →
   previewDispatch s = Done tt s []) ∧
  (∀ fn, mDataFn s = Some fn →
   previewDispatch s =
     Done tt s (if flag_set (mMsgEnabled s) CAMERA_MSG_PREVIEW_FRAME
                then [EvData fn CAMERA_MSG_PREVIEW_FRAME (PreviewMem (mBuffer s)) (mUser s)]
                else [])) ∧
  (previewDispatch s = Fault [] ↔
   flag_set (mMsgEnabled s) CAMERA_MSG_PREVIEW_FRAME = true ∧ mDataFn s = None) ∧
  (* the focus task *)
  (flag_set (mMsgEnabled s) CAMERA_MSG_FOCUS = false →
   autoFocusThread s = Done NO_ERROR s []) ∧
  (∀ fn, mNotifyFn s = Some fn →
   autoFocusThread s =
     Done NO_ERROR s (if flag_set (mMsgEnabled s) CAMERA_MSG_FOCUS
                      then [EvNotify fn CAMERA_MSG_FOCUS 1 0 (mUser s)]
                      else [])) ∧
  (autoFocusThread s = Fault [] ↔
   flag_set (mMsgEnabled s) CAMERA_MSG_FOCUS = true ∧ mNotifyFn s = None) ∧
  (* the picture sequence *)
  (flag_set (mMsgEnabled s) CAMERA_MSG_SHUTTER = false →
   flag_set (mMsgEnabled s) CAMERA_MSG_COMPRESSED_IMAGE = false →
   ∃ tr, pictureThread s = Done NO_ERROR s tr ∧ filter is_callback tr = []) ∧
  (∀ nf df, mNotifyFn s = Some nf → mDataFn s = Some df →
   ∃ tr, pictureThread s = Done NO_ERROR s tr ∧
         filter is_callback tr =
           (if flag_set (mMsgEnabled s) CAMERA_MSG_SHUTTER
            then [EvNotify nf CAMERA_MSG_SHUTTER 0 0 (mUser s)] else []) ++
           (if flag_set (mMsgEnabled s) CAMERA_MSG_COMPRESSED_IMAGE
            then [EvData df CAMERA_MSG_COMPRESSED_IMAGE JpegMem (mUser s)] else [])) ∧
  ((∃ tr, pictureThread s = Fault tr) ↔
   (flag_set (mMsgEnabled s) CAMERA_MSG_SHUTTER = true ∧ mNotifyFn s = None) ∨
   (flag_set (mMsgEnabled s) CAMERA_MSG_COMPRESSED_IMAGE = true ∧ mDataFn s = None)).
Proof.
  rewrite pictureThread_eq, previewDispatch_eq, autoFocusThread_eq.
  unfold shutter_events, jpeg_events.
  split; [by intros ->|].
  split; [intros fn ->; by destruct (flag_set _ _)|].
  split.
  { destruct (flag_set _ CAMERA_MSG_PREVIEW_FRAME), (mDataFn s); split;
      (done || by intros []). }
  split; [by intros ->|].
  split; [intros fn ->; by destruct (flag_set _ _)|].
  split.
  { destruct (flag_set _ CAMERA_MSG_FOCUS), (mNotifyFn s); split;
      (done || by intros []). }
  split; [intros -> ->; by eexists|].
  split.
  { intros nf df -> ->.
    destruct (flag_set _ CAMERA_MSG_SHUTTER), (flag_set _ CAMERA_MSG_COMPRESSED_IMAGE);
      by eexists. }
  destruct (flag_set _ CAMERA_MSG_SHUTTER), (mNotifyFn s) as [nf|];
    destruct (flag_set _ CAMERA_MSG_COMPRESSED_IMAGE), (mDataFn s) as [df|];
    (split; [intros [tr H]; (discriminate H || (left; done) || (right; done))
            | intros [[? ?]|[? ?]]; (done || by eexists)]).
Qed.

Lemma dispatch_gated_by_mask_only_witness :
  let s := set_mDataFn (Some 7%nat)
             (set_mMsgEnabled CAMERA_MSG_PREVIEW_FRAME (CameraHardware_members 0)) in
  previewDispatch s =
    Done tt s [EvData 7%nat CAMERA_MSG_PREVIEW_FRAME (PreviewMem None) 0] ∧
  autoFocusThread s = Done NO_ERROR s [].
Proof.
  intros s.
  destruct (dispatch_gated_by_mask_only s) as (_ & Hp & _ & Hf & _).
  split.
  - apply (Hp 7%nat). reflexivity.
  - apply Hf. reflexivity.
Defined.

(* ------------------------------------------------------------------ *)
(** ** The invariant of the interleaving semantics *)
(* ------------------------------------------------------------------ *)

Lemma spawn_all_hw tr σ : hw (spawn_all tr σ) = hw σ.
Proof.
  revert σ. induction tr as [|e tr IH]; intros σ; [done|].
  simpl. rewrite IH. by destruct e.
Qed.

Lemma spawn_all_client tr σ : client (spawn_all tr σ) = client σ.
Proof.
  revert σ. induction tr as [|e tr IH]; intros σ; [done|].
  simpl. rewrite IH. by destruct e.
Qed.

Lemma spawn_all_threads tr σ :
  forallb (λ e, negb (is_preview_spawn e)) tr = true →
  threads (spawn_all tr σ) = threads σ.
Proof.
  revert σ. induction tr as [|e tr IH]; intros σ; [done|].
  simpl. intros [He Htr]%andb_true_iff. rewrite IH by done.
  by destruct e.
Qed.

Lemma exec_call_no_preview_spawn (c : Call) (s : CameraHardware) r s' tr :
  changes_handle c = false →
  exec_call c s = Done r s' tr →
  forallb (λ e, negb (is_preview_spawn e)) tr = true.
Proof.
  destruct c; try discriminate; intros _;
    unfold exec_call, lift; unfold_m; simpl;
    try (intros [= <- <- <-]; reflexivity).
  - destruct created; intros [= <- <- <-]; reflexivity.
  - unfold setParameters. unfold_m.
    destruct (negb _); [intros [= <- <- <-]; reflexivity|].
    destruct (negb _); intros [= <- <- <-]; reflexivity.
Qed.

Lemma inv_no_handle_all_exited σ :
  inv σ → mPreviewThread (hw σ) = None → all_exited σ.
Proof.
  intros Hi Hn t st Ht. destruct (decide (pc st = Exited)) as [|Hne]; [done|].
  pose proof (inv_live σ Hi t st Ht Hne). congruence.
Qed.

Lemma inv_set_crashed σ : inv σ → inv (set_crashed σ).
Proof. intros [? ? ? ? ?]. by constructor. Qed.

Lemma inv_boot junk σ : boot junk = Some σ → inv σ.
Proof.
  unfold boot. intros [= <-]. constructor; simpl; try done.
Qed.

Lemma on_hw_done {A} (m : M A) σ k a s tr :
  m (hw σ) = Done a s tr →
  on_hw m σ k =
    (let '(σ', tr') := k a (spawn_all tr (set_hw s σ)) in (σ', tr ++ tr')).
Proof. intros H. unfold on_hw. by rewrite H. Qed.

Lemma on_hw_fault {A} (m : M A) σ k tr :
  m (hw σ) = Fault tr → on_hw m σ k = (set_crashed σ, tr).
Proof. intros H. unfold on_hw. by rewrite H. Qed.

Lemma teardown_spawns h σ : spawn_all (teardown_events h) σ = σ.
Proof. by destruct h. Qed.

Lemma wait_spawns h σ : spawn_all (wait_events h) σ = σ.
Proof. by destruct h. Qed.

Lemma spawn_all_app tr1 tr2 σ :
  spawn_all (tr1 ++ tr2) σ = spawn_all tr2 (spawn_all tr1 σ).
Proof. apply foldl_app. Qed.

Lemma shutter_spawns s e σ : shutter_events s = Some e → spawn_all e σ = σ.
Proof.
  unfold shutter_events.
  destruct (flag_set _ _); [destruct (mNotifyFn s)|]; by intros [= <-].
Qed.

Lemma jpeg_spawns s e σ : jpeg_events s = Some e → spawn_all e σ = σ.
Proof.
  unfold jpeg_events.
  destruct (flag_set _ _); [destruct (mDataFn s)|]; by intros [= <-].
Qed.

Lemma pictureThread_spawns s a s' tr σ :
  pictureThread s = Done a s' tr → spawn_all tr σ = σ.
Proof.
  rewrite pictureThread_eq.
  destruct (shutter_events s) as [e1|] eqn:E1; [|done].
  destruct (jpeg_events s) as [e2|] eqn:E2; [|done].
  intros [= _ _ <-].
  rewrite !spawn_all_app, (shutter_spawns _ _ _ E1). simpl.
  by rewrite spawn_all_app, (jpeg_spawns _ _ _ E2).
Qed.

Ltac sys_simpl :=
  unfold set_pc, set_hw, set_threads, set_focusTasks, set_client, set_crashed in *;
  simpl in *.

Lemma inv_set_client σ cl :
  inv σ → client_ok (set_client cl σ) → inv (set_client cl σ).
Proof. intros [? ? ? ? ?] ?. by constructor. Qed.

(** Changing the state of one thread keeps the invariant, as long as the
    change does not revive the thread nor withdraw an exit request. *)
Lemma inv_alter_threads σ (f : ThreadState → ThreadState) t :
  (∀ st, threads σ !! t = Some st → pc (f st) ≠ Exited → pc st ≠ Exited) →
  (∀ st, threads σ !! t = Some st → pc st = Exited → pc (f st) = Exited) →
  (∀ st, threads σ !! t = Some st → exitPending st = true →
         exitPending (f st) = true) →
  inv σ → inv (set_threads (alter f t (threads σ)) σ).
Proof.
  intros Ha Hb Hc [H1 H2 H3 H4 H5]. constructor; sys_simpl; try done.
  - intros t0 st [[-> (st0 & Hst0 & ->)]|[Hne Hst]]%lookup_alter_Some Hpc.
    + eapply H1; eauto.
    + eapply H1; eauto.
  - intros t0 Ht0. apply lookup_alter_is_Some. by apply H2.
  - unfold client_ok in *. sys_simpl.
    destruct (client σ) as [|c pt]; [done|].
    destruct H5 as [Hs Hpt]. split; [done|].
    destruct pt; try done.
    + destruct Hpt as (Hst & Hh & st & Hl & He).
      split; [done|]. split; [done|].
      destruct (decide (t = t0)) as [->|Hne].
      * exists (f st). rewrite lookup_alter_eq, Hl. split; [done|]. by apply Hc.
      * exists st. by rewrite lookup_alter_ne.
    + destruct Hpt as [Hst Hall]. split; [done|].
      unfold all_exited in *. simpl in *.
      intros t0 st [[-> (st0 & Hst0 & ->)]|[Hne Hl]]%lookup_alter_Some.
      * apply Hb; [done|]. by eapply Hall.
      * by eapply Hall.
Qed.

Lemma step_client_inv σ σ' tr :
  inv σ → step_client σ = Some (σ', tr) → inv σ'.
Proof.
  intros Hi Hs. unfold step_client in Hs.
  destruct (client σ) as [|c pt] eqn:Hc; [done|].
  pose proof (inv_client σ Hi) as Hcl. unfold client_ok in Hcl. rewrite Hc in Hcl.
  destruct Hcl as [Hsplit Hpt].
  destruct pt as [| | |[t|]|t| |].
  - rewrite (on_hw_done _ _ _ _ _ _ (stopPreview_flag_eq _)) in Hs.
    simpl in Hs. injection Hs as <- <-.
    destruct Hi as [H1 H2 H3 H4 H5]. constructor; simpl; try done.
  - rewrite (on_hw_done _ _ _ _ _ _ (stopPreview_teardown_eq _)) in Hs.
    rewrite teardown_spawns, set_hw_same in Hs.
    simpl in Hs. injection Hs as <- <-.
    apply inv_set_client; [done|]. by unfold client_ok.
  - rewrite (on_hw_done _ _ _ _ _ _ (stopPreview_read_eq _)) in Hs.
    simpl in Hs. rewrite set_hw_same in Hs. injection Hs as <- <-.
    apply inv_set_client; [done|]. by unfold client_ok.
  - rewrite (on_hw_done _ _ _ _ _ _ (stopPreview_wait_eq _ _)) in Hs.
    rewrite wait_spawns, set_hw_same in Hs.
    simpl in Hs. injection Hs as <- <-.
    destruct Hpt as [Hst Hh].
    apply inv_set_client; [by apply inv_alter_threads|].
    unfold client_ok. simpl. split; [done|]. split; [done|]. split; [done|].
    destruct (inv_handle σ Hi t (eq_sym Hh)) as [st Hl].
    eexists. rewrite lookup_alter_eq, Hl. by split.
  - rewrite (on_hw_done _ _ _ _ _ _ (stopPreview_wait_eq _ _)) in Hs.
    rewrite wait_spawns, set_hw_same in Hs.
    simpl in Hs. injection Hs as <- <-.
    destruct Hpt as [Hst Hh].
    apply inv_set_client; [done|].
    unfold client_ok. simpl. split; [done|]. split; [done|].
    exact (inv_no_handle_all_exited σ Hi (eq_sym Hh)).
  - destruct (thread_exited σ t) eqn:Hex; [|done]. injection Hs as <- <-.
    destruct Hpt as (Hst & Hh & _).
    apply inv_set_client; [done|].
    unfold client_ok. simpl. split; [done|]. split; [done|].
    intros t0 st Hl. simpl in Hl.
    destruct (decide (pc st = Exited)) as [|Hne]; [done|].
    pose proof (inv_live σ Hi t0 st Hl Hne) as Ht0.
    assert (t0 = t) as -> by congruence.
    unfold thread_exited in Hex. rewrite Hl in Hex.
    by apply bool_decide_eq_true in Hex.
  - rewrite (on_hw_done _ _ _ _ _ _ (stopPreview_clear_eq _)) in Hs.
    simpl in Hs. destruct Hpt as [Hst Hall].
    assert (inv (set_hw (set_mPreviewThread None (hw σ)) σ)) as Hi'.
    { destruct Hi as [H1 H2 H3 H4 H5]. constructor; simpl; try done.
      - intros t0 st Hl Hne. by specialize (Hall t0 st Hl).
      - unfold client_ok. simpl. rewrite Hc. simpl. done. }
    destruct c; try done; injection Hs as <- <-;
      (apply inv_set_client; [done|]); by unfold client_ok.
  - destruct (pictureThread (hw σ)) as [a s' tr'|tr'] eqn:Hp.
    + rewrite (on_hw_done _ _ _ _ _ _ Hp) in Hs.
      rewrite (pictureThread_spawns _ _ _ _ _ Hp) in Hs.
      apply pictureThread_reads in Hp as [-> ->].
      rewrite set_hw_same in Hs. simpl in Hs. injection Hs as <- <-.
      apply inv_set_client; [done|]. by unfold client_ok.
    + rewrite (on_hw_fault _ _ _ _ Hp) in Hs. injection Hs as <- <-.
      by apply inv_set_crashed.
Qed.

Lemma inv_set_pc σ t st p :
  inv σ → threads σ !! t = Some st → pc st ≠ Exited → inv (set_pc t p σ).
Proof.
  intros Hi Hl Hne. unfold set_pc. apply inv_alter_threads; [| |done|done].
  - intros st' Hl' _. congruence.
  - intros st' Hl' He. congruence.
Qed.

Lemma inv_set_focusTasks σ n : inv σ → inv (set_focusTasks n σ).
Proof. intros [? ? ? ? ?]. by constructor. Qed.

Lemma grabPreviewFrame_eq (s : CameraHardware) :
  grabPreviewFrame s =
    match mHeap s with
    | Some h => Done tt s [EvDev (DevGrabPreviewFrame h)]
    | None => Fault []
    end.
Proof. unfold grabPreviewFrame. unfold_m. by destruct (mHeap s). Qed.

Lemma grabPreviewFrame_spawns s a s' tr σ :
  grabPreviewFrame s = Done a s' tr → spawn_all tr σ = σ.
Proof. rewrite grabPreviewFrame_eq. destruct (mHeap s); by intros [= _ _ <-]. Qed.

Lemma previewDispatch_spawns s a s' tr σ :
  previewDispatch s = Done a s' tr → spawn_all tr σ = σ.
Proof.
  rewrite previewDispatch_eq.
  destruct (flag_set _ _); [destruct (mDataFn s)|]; by intros [= _ _ <-].
Qed.

Lemma autoFocusThread_spawns s a s' tr σ :
  autoFocusThread s = Done a s' tr → spawn_all tr σ = σ.
Proof.
  rewrite autoFocusThread_eq.
  destruct (flag_set _ _); [destruct (mNotifyFn s)|]; by intros [= _ _ <-].
Qed.

Lemma step_preview_inv t σ σ' tr :
  inv σ → step_preview t σ = Some (σ', tr) → inv σ'.
Proof.
  intros Hi Hs. unfold step_preview in Hs.
  destruct (threads σ !! t) as [st|] eqn:Hl; [|done].
  destruct (pc st) eqn:Hpc; [| | | |done].
  - injection Hs as <- <-.
    destruct (previewStopped (hw σ)); eapply inv_set_pc; eauto; congruence.
  - destruct (grabPreviewFrame (hw σ)) as [a s' tr'|tr'] eqn:Hg.
    + rewrite (on_hw_done _ _ _ _ _ _ Hg) in Hs.
      rewrite (grabPreviewFrame_spawns _ _ _ _ _ Hg) in Hs.
      apply grabPreviewFrame_reads in Hg as ->.
      rewrite set_hw_same in Hs. injection Hs as <- <-.
      eapply inv_set_pc; eauto; congruence.
    + rewrite (on_hw_fault _ _ _ _ Hg) in Hs. injection Hs as <- <-.
      by apply inv_set_crashed.
  - destruct (previewDispatch (hw σ)) as [a s' tr'|tr'] eqn:Hg.
    + rewrite (on_hw_done _ _ _ _ _ _ Hg) in Hs.
      rewrite (previewDispatch_spawns _ _ _ _ _ Hg) in Hs.
      apply previewDispatch_reads in Hg as ->.
      rewrite set_hw_same in Hs. injection Hs as <- <-.
      eapply inv_set_pc; eauto; congruence.
    + rewrite (on_hw_fault _ _ _ _ Hg) in Hs. injection Hs as <- <-.
      by apply inv_set_crashed.
  - injection Hs as <- <-.
    destruct (exitPending st); eapply inv_set_pc; eauto; congruence.
Qed.

Lemma step_focus_inv σ σ' tr :
  inv σ → step_focus σ = Some (σ', tr) → inv σ'.
Proof.
  intros Hi Hs. unfold step_focus in Hs.
  destruct (focusTasks σ) as [|n]; [done|].
  destruct (autoFocusThread (hw σ)) as [a s' tr'|tr'] eqn:Hg.
  - rewrite (on_hw_done _ _ _ a s' tr') in Hs by done.
    rewrite (autoFocusThread_spawns _ _ _ _ _ Hg) in Hs.
    apply autoFocusThread_reads in Hg as ->.
    injection Hs as <- <-.
    change (inv (set_hw (hw (set_focusTasks n σ)) (set_focusTasks n σ))).
    rewrite set_hw_same. by apply inv_set_focusTasks.
  - rewrite (on_hw_fault _ _ _ tr') in Hs by done. injection Hs as <- <-.
    by apply inv_set_crashed, inv_set_focusTasks.
Qed.

(** The invariant only looks at the thread table, the client, and three
    fields of the object. *)
Lemma inv_frame σ σ' :
  threads σ' = threads σ →
  client σ' = client σ →
  mPreviewThread (hw σ') = mPreviewThread (hw σ) →
  previewStopped (hw σ') = previewStopped (hw σ) →
  mHeap (hw σ') = mHeap (hw σ) →
  inv σ → inv σ'.
Proof.
  intros Et Ec Eh Es Em [H1 H2 H3 H4 H5].
  constructor; rewrite ?Et, ?Eh, ?Es, ?Em; try done.
  unfold client_ok, all_exited in *. by rewrite Et, Ec, Eh, Es.
Qed.

(** An entry point that runs in one step. *)
Lemma step_call_atomic c σ σ' tr :
  is_split c = false →
  step_call c σ = Some (σ', tr) →
  client σ = CIdle ∧
  ((∃ r s' tr0, exec_call c (hw σ) = Done r s' tr0 ∧
                σ' = spawn_all tr0 (set_hw s' σ) ∧
                tr = EvCall c :: tr0 ++ [EvReturn c r]) ∨
   (∃ tr0, exec_call c (hw σ) = Fault tr0 ∧
           σ' = set_crashed σ ∧ tr = EvCall c :: tr0)).
Proof.
  intros Hsp Hs. unfold step_call in Hs.
  destruct (client σ); [|done]. split; [done|]. rewrite Hsp in Hs.
  assert (Hgo : (let '(σ', tr) := on_hw (exec_call c) σ (λ r σ', (σ', [EvReturn c r]))
                 in Some (σ', EvCall c :: tr)) = Some (σ', tr)).
  { destruct c; try done. by destruct (bool_decide _). }
  clear Hs. unfold on_hw in Hgo.
  destruct (exec_call c (hw σ)) as [r s' tr0|tr0].
  - left. injection Hgo as <- <-. by exists r, s', tr0.
  - right. injection Hgo as <- <-. by exists tr0.
Qed.

Lemma step_call_inv c σ σ' tr :
  inv σ → step_call c σ = Some (σ', tr) → inv σ'.
Proof.
  intros Hi Hs.
  destruct (is_split c) eqn:Hsp.
  { unfold step_call in Hs. destruct (client σ); [|done].
    rewrite Hsp in Hs. injection Hs as <- <-.
    apply inv_set_client; [done|]. by unfold client_ok. }
  assert (Hfresh : ∀ fresh, c = StartPreview fresh → fresh ∉ dom (threads σ)).
  { intros fresh ->. unfold step_call in Hs. destruct (client σ); [|done].
    simpl in Hs. destruct (bool_decide _) eqn:Hd; [done|].
    by apply bool_decide_eq_false in Hd. }
  apply step_call_atomic in Hs as [Hc Hs]; [|done].
  destruct Hs as [(r & s' & tr0 & He & -> & ->)|(tr0 & He & -> & ->)];
    [|by apply inv_set_crashed].
  destruct (changes_handle c) eqn:Hch.
  - destruct c; try done. clear Hsp Hch.
    specialize (Hfresh fresh eq_refl).
    unfold exec_call, lift, mbind, M_bind, bind in He.
    destruct (mPreviewThread (hw σ)) as [t|] eqn:Hh.
    + rewrite (startPreview_running _ _ _ Hh) in He. simpl in He.
      injection He as <- <- <-. simpl. by rewrite set_hw_same.
    + destruct (startPreview_idle (hw σ) fresh Hh)
        as (s1 & E & Hh1 & Hst1 & Hm1 & _).
      rewrite E in He. simpl in He. injection He as <- <- <-.
      simpl. destruct Hi as [H1 H2 H3 H4 H5]. constructor; sys_simpl.
      * intros t st Hl Hne. destruct (decide (t = fresh)) as [->|Hn]; [done|].
        rewrite lookup_insert_ne in Hl by done.
        specialize (H1 t st Hl Hne). congruence.
      * intros t Ht. assert (t = fresh) as -> by congruence.
        rewrite lookup_insert_eq. by eexists.
      * congruence.
      * intros t _. rewrite Hm1. by eexists.
      * unfold client_ok. simpl. by rewrite Hc.
  - destruct (exec_call_keeps_handle c (hw σ) Hch)
      as (r' & s'' & tr' & He' & Hh & Hst & Hm).
    rewrite He in He'. injection He' as <- <- <-.
    eapply inv_frame; [..|exact Hi].
    + rewrite spawn_all_threads; [done|].
      by eapply exec_call_no_preview_spawn.
    + by rewrite spawn_all_client.
    + by rewrite spawn_all_hw.
    + by rewrite spawn_all_hw.
    + by rewrite spawn_all_hw.
Qed.

Lemma step_inv l σ σ' tr : inv σ → step l σ = Some (σ', tr) → inv σ'.
Proof.
  intros Hi Hs. unfold step in Hs. destruct (crashed σ); [done|].
  destruct l.
  - by eapply step_call_inv.
  - by eapply step_client_inv.
  - by eapply step_preview_inv.
  - by eapply step_focus_inv.
Qed.

Lemma run_inv sched σ σ' tr : inv σ → run sched σ = Some (σ', tr) → inv σ'.
Proof.
  revert σ tr. induction sched as [|l sched IH]; intros σ tr Hi Hr; simpl in Hr.
  - by injection Hr as <- <-.
  - destruct (step l σ) as [[σ1 tr1]|] eqn:Hs; [|done].
    destruct (run sched σ1) as [[σ2 tr2]|] eqn:Hr2; [|done].
    injection Hr as <- <-. eapply IH; [|done]. by eapply step_inv.
Qed.

Lemma reachable_inv σ : reachable σ → inv σ.
Proof.
  intros (junk & σ0 & sched & tr & Hb & Hr).
  eapply run_inv; [|done]. by eapply inv_boot.
Qed.

(* ------------------------------------------------------------------ *)
(** ** What a step logs, and what it does to the handle *)
(* ------------------------------------------------------------------ *)

Lemma monitor_app q tr1 tr2 :
  monitor q (tr1 ++ tr2) =
    match monitor q tr1 with
    | Some q1 => monitor q1 tr2
    | None => None
    end.
Proof.
  revert q. induction tr1 as [|e tr1 IH]; intros q; [done|].
  simpl. destruct (q && is_preview_dispatch e); [done|].
  destruct (is_stopPreview_return e); [apply IH|].
  destruct (is_startPreview_call e); apply IH.
Qed.

Lemma monitor_plain q tr : forallb is_plain tr = true → monitor q tr = Some q.
Proof.
  induction tr as [|e tr IH]; [done|].
  simpl. unfold is_plain at 1.
  intros [[[H1 H2]%andb_true_iff H3]%andb_true_iff Htr]%andb_true_iff.
  apply negb_true_iff in H1, H2, H3. rewrite H1, H2, H3.
  rewrite andb_false_r. by apply IH.
Qed.

Lemma monitor_not_quiet tr :
  forallb (λ e, negb (is_stopPreview_return e)) tr = true →
  ∃ q', monitor false tr = Some q' ∧ q' = false.
Proof.
  induction tr as [|e tr IH]; [by eexists|].
  simpl. intros [H1 Htr]%andb_true_iff.
  apply negb_true_iff in H1. rewrite H1.
  destruct (is_startPreview_call e); by apply IH.
Qed.

Lemma exec_call_plain (c : Call) (s : CameraHardware) r s' tr :
  changes_handle c = false →
  exec_call c s = Done r s' tr →
  forallb is_plain tr = true.
Proof.
  destruct c; try discriminate; intros _;
    unfold exec_call, lift; unfold_m; simpl;
    try (intros [= <- <- <-]; reflexivity).
  - destruct created; intros [= <- <- <-]; reflexivity.
  - unfold setParameters. unfold_m.
    destruct (negb _); [intros [= <- <- <-]; reflexivity|].
    destruct (negb _); intros [= <- <- <-]; reflexivity.
Qed.

Lemma startPreview_plain fresh (s : CameraHardware) r s' tr :
  startPreview fresh s = Done r s' tr → forallb is_plain tr = true.
Proof.
  destruct (mPreviewThread s) as [t|] eqn:Hh.
  - rewrite (startPreview_running _ _ _ Hh). by intros [= _ _ <-].
  - destruct (startPreview_idle s fresh Hh) as (s1 & E & _).
    rewrite E. by intros [= _ _ <-].
Qed.

Lemma shutter_plain s e : shutter_events s = Some e → forallb is_plain e = true.
Proof.
  unfold shutter_events.
  destruct (flag_set _ _); [destruct (mNotifyFn s)|]; by intros [= <-].
Qed.

Lemma jpeg_plain s e : jpeg_events s = Some e → forallb is_plain e = true.
Proof.
  unfold jpeg_events.
  destruct (flag_set _ _); [destruct (mDataFn s)|]; by intros [= <-].
Qed.

Lemma pictureThread_plain (s : CameraHardware) r s' tr :
  pictureThread s = Done r s' tr → forallb is_plain tr = true.
Proof.
  rewrite pictureThread_eq.
  destruct (shutter_events s) as [e1|] eqn:E1; [|done].
  destruct (jpeg_events s) as [e2|] eqn:E2; [|done].
  intros [= _ _ <-].
  rewrite forallb_app, (shutter_plain _ _ E1). simpl.
  by rewrite forallb_app, (jpeg_plain _ _ E2).
Qed.

Lemma pictureThread_fault_plain (s : CameraHardware) tr :
  pictureThread s = Fault tr → forallb is_plain tr = true.
Proof.
  rewrite pictureThread_eq.
  destruct (shutter_events s) as [e1|] eqn:E1; [|by intros [= <-]].
  destruct (jpeg_events s) as [e2|] eqn:E2; [done|].
  intros [= <-].
  by rewrite forallb_app, (shutter_plain _ _ E1).
Qed.

Lemma autoFocusThread_plain (s : CameraHardware) tr :
  (∃ r s', autoFocusThread s = Done r s' tr) ∨ autoFocusThread s = Fault tr →
  forallb is_plain tr = true.
Proof.
  rewrite autoFocusThread_eq.
  destruct (flag_set _ _); [destruct (mNotifyFn s)|];
    intros [(r & s' & H)|H]; by simplify_eq.
Qed.

Lemma teardown_plain h : forallb is_plain (teardown_events h) = true.
Proof. by destruct h. Qed.

(** A step of the client inside [stopPreview] or [takePicture]: it never
    creates a handle, and what it logs is plain, except for the return of
    [stopPreview], at which there is no handle. *)
Lemma step_client_trace σ σ' tr :
  client_ok σ →
  step_client σ = Some (σ', tr) →
  (mPreviewThread (hw σ') = mPreviewThread (hw σ) ∨
   (∃ c, client σ = CIn c SClear) ∧ mPreviewThread (hw σ') = None) ∧
  ((tr = [EvReturn StopPreview RVoid] ∧ mPreviewThread (hw σ') = None ∧
    client σ = CIn StopPreview SClear) ∨
   forallb is_plain tr = true).
Proof.
  intros Hok Hs. unfold step_client in Hs. unfold client_ok in Hok.
  destruct (client σ) as [|c pt] eqn:Hc; [done|].
  destruct pt as [| | |[t|]|t| |].
  - rewrite (on_hw_done _ _ _ _ _ _ (stopPreview_flag_eq _)) in Hs.
    simpl in Hs. injection Hs as <- <-. split; [by left|by right].
  - rewrite (on_hw_done _ _ _ _ _ _ (stopPreview_teardown_eq _)) in Hs.
    rewrite teardown_spawns, set_hw_same in Hs.
    simpl in Hs. injection Hs as <- <-. split; [by left|right].
    rewrite app_nil_r. apply teardown_plain.
  - rewrite (on_hw_done _ _ _ _ _ _ (stopPreview_read_eq _)) in Hs.
    simpl in Hs. rewrite set_hw_same in Hs. injection Hs as <- <-.
    split; [by left|by right].
  - rewrite (on_hw_done _ _ _ _ _ _ (stopPreview_wait_eq _ _)) in Hs.
    rewrite wait_spawns, set_hw_same in Hs.
    simpl in Hs. injection Hs as <- <-. split; [by left|by right].
  - rewrite (on_hw_done _ _ _ _ _ _ (stopPreview_wait_eq _ _)) in Hs.
    rewrite wait_spawns, set_hw_same in Hs.
    simpl in Hs. injection Hs as <- <-. split; [by left|by right].
  - destruct (thread_exited σ t); [|done]. injection Hs as <- <-.
    split; [by left|by right].
  - rewrite (on_hw_done _ _ _ _ _ _ (stopPreview_clear_eq _)) in Hs.
    simpl in Hs.
    destruct c; injection Hs as <- <-;
      (split; [right; split; [by eexists|done]|]);
      try (by right); by left.
  - destruct (pictureThread (hw σ)) as [a s' tr'|tr'] eqn:Hp.
    + rewrite (on_hw_done _ _ _ _ _ _ Hp) in Hs.
      rewrite (pictureThread_spawns _ _ _ _ _ Hp) in Hs.
      pose proof (pictureThread_plain _ _ _ _ Hp) as Hpl.
      apply pictureThread_reads in Hp as [-> ->].
      rewrite set_hw_same in Hs. simpl in Hs. injection Hs as <- <-.
      split; [by left|right].
      destruct Hok as [_ [-> _]]. by rewrite forallb_app, Hpl.
    + rewrite (on_hw_fault _ _ _ _ Hp) in Hs. injection Hs as <- <-.
      split; [by left|right]. by eapply pictureThread_fault_plain.
Qed.

(** An entry point being called: [startPreview] is the only one after
    which there can be a handle where there was none. *)
Lemma step_call_trace c σ σ' tr :
  step_call c σ = Some (σ', tr) →
  ∃ tr', tr = EvCall c :: tr' ∧ forallb is_plain tr' = true ∧
         ((∃ fresh, c = StartPreview fresh) ∨
          mPreviewThread (hw σ') = mPreviewThread (hw σ)).
Proof.
  intros Hs. destruct (is_split c) eqn:Hsp.
  { unfold step_call in Hs. destruct (client σ); [|done].
    rewrite Hsp in Hs. injection Hs as <- <-.
    exists []. split; [done|]. split; [done|]. by right. }
  apply step_call_atomic in Hs as [Hc Hs]; [|done].
  destruct (changes_handle c) eqn:Hch.
  - destruct c; try done. clear Hsp Hch.
    destruct Hs as [(r & s' & tr0 & He & -> & ->)|(tr0 & He & -> & ->)].
    + eexists. split; [done|]. split; [|left; by eexists].
      unfold exec_call, lift, mbind, M_bind, bind in He.
      destruct (startPreview fresh (hw σ)) as [r1 s1 tr1|] eqn:E; [|done].
      simpl in He. injection He as <- <- <-.
      rewrite app_nil_r, forallb_app.
      by rewrite (startPreview_plain _ _ _ _ _ E).
    + unfold exec_call, lift, mbind, M_bind, bind in He.
      destruct (mPreviewThread (hw σ)) as [t|] eqn:Hh.
      * by rewrite (startPreview_running _ _ _ Hh) in He.
      * destruct (startPreview_idle (hw σ) fresh Hh) as (s1 & E & _).
        by rewrite E in He.
  - destruct (exec_call_keeps_handle c (hw σ) Hch)
      as (r' & s'' & tr' & He' & Hh & Hst & Hm).
    destruct Hs as [(r & s' & tr0 & He & -> & ->)|(tr0 & He & -> & ->)];
      [|congruence].
    rewrite He in He'. injection He' as <- <- <-.
    eexists. split; [done|]. split.
    + rewrite forallb_app, (exec_call_plain _ _ _ _ _ Hch He). simpl.
      destruct c; done.
    + right. by rewrite spawn_all_hw.
Qed.

(** A step of a preview thread: the thread had not exited, the object is
    untouched, and neither a call nor a return is logged. *)
Lemma step_preview_trace t σ σ' tr :
  step_preview t σ = Some (σ', tr) →
  (∃ st, threads σ !! t = Some st ∧ pc st ≠ Exited) ∧
  hw σ' = hw σ ∧
  forallb (λ e, negb (is_stopPreview_return e)) tr = true.
Proof.
  intros Hs. unfold step_preview in Hs.
  destruct (threads σ !! t) as [st|] eqn:Hl; [|done].
  split; [exists st; split; [done|]; intros E; by rewrite E in Hs|].
  destruct (pc st) eqn:Hpc; [| | | |done].
  - injection Hs as <- <-. by destruct (previewStopped (hw σ)).
  - unfold on_hw in Hs. rewrite grabPreviewFrame_eq in Hs.
    destruct (mHeap (hw σ)); injection Hs as <- <-; done.
  - unfold on_hw in Hs. rewrite previewDispatch_eq in Hs.
    destruct (flag_set _ _); [destruct (mDataFn (hw σ))|];
      injection Hs as <- <-; done.
  - injection Hs as <- <-. by destruct (exitPending st).
Qed.

Lemma step_focus_trace σ σ' tr :
  step_focus σ = Some (σ', tr) →
  hw σ' = hw σ ∧ forallb is_plain tr = true.
Proof.
  intros Hs. unfold step_focus in Hs.
  destruct (focusTasks σ) as [|n]; [done|].
  unfold on_hw in Hs. simpl in Hs. rewrite autoFocusThread_eq in Hs.
  destruct (flag_set _ _); [destruct (mNotifyFn (hw σ))|];
    injection Hs as <- <-; done.
Qed.

(** One step under the monitor: it does not trip, and while it says
    [quiet] there is no handle. *)
Lemma step_monitor l σ σ' tr q :
  inv σ →
  step l σ = Some (σ', tr) →
  (q = true → mPreviewThread (hw σ) = None) →
  ∃ q', monitor q tr = Some q' ∧
        (q' = true → mPreviewThread (hw σ') = None).
Proof.
  intros Hi Hs Hq. unfold step in Hs. destruct (crashed σ); [done|].
  destruct l as [c| |t|].
  - apply step_call_trace in Hs as (tr' & -> & Hpl & Hh).
    destruct (is_startPreview_call (EvCall c)) eqn:Hst.
    + exists false. simpl in *. rewrite Hst, andb_false_r.
      by rewrite (monitor_plain _ _ Hpl).
    + exists q. simpl in *. rewrite Hst, andb_false_r.
      split; [by apply monitor_plain|].
      destruct Hh as [[fresh ->]|Hh]; [done|]. by rewrite Hh.
  - apply step_client_trace in Hs as [Hh Htr]; [|by apply inv_client].
    destruct Htr as [(-> & Hn & _)|Hpl].
    + exists true. split; [|done]. simpl. by rewrite andb_false_r.
    + exists q. split; [by apply monitor_plain|].
      intros Hq'. destruct Hh as [->|[_ ?]]; auto.
  - apply step_preview_trace in Hs as ((st & Hl & Hne) & Hhw & Htr).
    pose proof (inv_live σ Hi t st Hl Hne) as Hh.
    destruct q; [specialize (Hq eq_refl); congruence|].
    destruct (monitor_not_quiet _ Htr) as (q' & Hm & ->).
    exists false. by split.
  - apply step_focus_trace in Hs as [Hhw Hpl].
    exists q. split; [by apply monitor_plain|]. by rewrite Hhw.
Qed.

Lemma run_monitor sched σ σ' tr q :
  inv σ →
  run sched σ = Some (σ', tr) →
  (q = true → mPreviewThread (hw σ) = None) →
  ∃ q', monitor q tr = Some q' ∧
        (q' = true → mPreviewThread (hw σ') = None).
Proof.
  revert σ tr q. induction sched as [|l sched IH]; intros σ tr q Hi Hr Hq;
    simpl in Hr.
  - injection Hr as <- <-. by exists q.
  - destruct (step l σ) as [[σ1 tr1]|] eqn:Hs; [|done].
    destruct (run sched σ1) as [[σ2 tr2]|] eqn:Hr2; [|done].
    injection Hr as <- <-.
    destruct (step_monitor _ _ _ _ _ Hi Hs Hq) as (q1 & Hm1 & Hq1).
    destruct (IH σ1 tr2 q1 (step_inv _ _ _ _ Hi Hs) Hr2 Hq1) as (q2 & Hm2 & Hq2).
    exists q2. by rewrite monitor_app, Hm1.
Qed.

(** What the monitor's verdict means. *)
Lemma monitor_quiet_stretch tr2 e tr3 q' :
  monitor true (tr2 ++ e :: tr3) = Some q' →
  is_preview_dispatch e = true →
  ∃ e', e' ∈ tr2 ∧ is_startPreview_call e' = true.
Proof.
  induction tr2 as [|x tr2 IH]; simpl; intros Hm He.
  - by rewrite He in Hm.
  - destruct (is_preview_dispatch x); [done|].
    destruct (is_stopPreview_return x).
    { destruct (IH Hm He) as (e' & Hin & Hst). exists e'. split; [by right|done]. }
    destruct (is_startPreview_call x) eqn:Hx.
    { exists x. split; [by left|done]. }
    destruct (IH Hm He) as (e' & Hin & Hst). exists e'. split; [by right|done].
Qed.

Lemma monitor_sound q tr q' :
  monitor q tr = Some q' →
  ∀ tr1 r tr2 e tr3,
    tr = tr1 ++ EvReturn StopPreview r :: tr2 ++ e :: tr3 →
    is_preview_dispatch e = true →
    ∃ e', e' ∈ tr2 ∧ is_startPreview_call e' = true.
Proof.
  intros Hm tr1 r tr2 e tr3 -> He.
  rewrite monitor_app in Hm.
  destruct (monitor q tr1) as [q1|]; [|done].
  simpl in Hm. rewrite andb_false_r in Hm.
  by eapply monitor_quiet_stretch.
Qed.

Lemma monitor_last q tr1 r q' :
  monitor q (tr1 ++ [EvReturn StopPreview r]) = Some q' → q' = true.
Proof.
  rewrite monitor_app. destruct (monitor q tr1) as [q1|]; [|done].
  simpl. rewrite andb_false_r. by intros [= <-].
Qed.

(** C1.  Take any run of the system from a freshly constructed session:
    any sequence of public calls, interleaved in any way with the steps of
    the preview thread and of the focus tasks.  In its trace, a preview
    frame dispatched after a return of [stopPreview] is preceded, after
    that return, by a new call of [startPreview].  And when [stopPreview]
    has just returned, [previewStopped] is set, the handle is cleared, and
    every preview thread has exited. *)
Theorem no_preview_frame_after_stopPreview
    (junk : Z) (σ0 σ : System) (sched : list Label) (tr : list Event) :
  boot junk = Some σ0 →
  run sched σ0 = Some (σ, tr) →
  (∀ tr1 r tr2 e tr3,
     tr = tr1 ++ EvReturn StopPreview r :: tr2 ++ e :: tr3 →
     is_preview_dispatch e = true →
     ∃ e', e' ∈ tr2 ∧ is_startPreview_call e' = true) ∧
  (∀ tr1 r,
     tr = tr1 ++ [EvReturn StopPreview r] →
     previewStopped (hw σ) = true ∧
     mPreviewThread (hw σ) = None ∧
     all_exited σ).
Proof.
  intros Hb Hr.
  pose proof (inv_boot _ _ Hb) as Hi0.
  pose proof (run_inv _ _ _ _ Hi0 Hr) as Hi.
  destruct (run_monitor sched σ0 σ tr false Hi0 Hr) as (q' & Hm & Hq'); [done|].
  split.
  - by eapply monitor_sound.
  - intros tr1 r ->. apply monitor_last in Hm as ->.
    specialize (Hq' eq_refl).
    split; [by apply inv_stopped|]. split; [done|].
    by apply inv_no_handle_all_exited.
Qed.

Lemma no_preview_frame_after_stopPreview_witness :
  ∃ σ0 σ tr,
    boot 0 = Some σ0 ∧
    run stop_demo σ0 = Some (σ, tr) ∧
    length (filter (λ e, is_preview_dispatch e = true) tr) = 2%nat ∧
    (∀ tr1 r tr2 e tr3,
       tr = tr1 ++ EvReturn StopPreview r :: tr2 ++ e :: tr3 →
       is_preview_dispatch e = true →
       ∃ e', e' ∈ tr2 ∧ is_startPreview_call e' = true) ∧
    (∀ tr1 r,
       tr = tr1 ++ [EvReturn StopPreview r] →
       previewStopped (hw σ) = true ∧
       mPreviewThread (hw σ) = None ∧
       all_exited σ).
Proof.
  destruct (boot 0) as [σ0|] eqn:Hb; [|by vm_compute in Hb].
  destruct (run stop_demo σ0) as [[σ tr]|] eqn:Hr.
  - exists σ0, σ, tr. split; [done|]. split; [done|]. split.
    + vm_compute in Hb. injection Hb as <-.
      vm_compute in Hr. injection Hr as <- <-. reflexivity.
    + exact (no_preview_frame_after_stopPreview 0 σ0 σ stop_demo tr Hb Hr).
  - vm_compute in Hb. injection Hb as <-. by vm_compute in Hr.
Defined.

(* ------------------------------------------------------------------ *)
(** ** The client inside [stopPreview], step by step *)
(* ------------------------------------------------------------------ *)

Lemma step_client_flag σ c :
  client σ = CIn c SFlag →
  step_client σ =
    Some (set_client (CIn c STeardown)
            (set_hw (set_previewStopped true (hw σ)) σ), []).
Proof. intros Hc. unfold step_client. by rewrite Hc. Qed.

Lemma step_client_teardown σ c :
  client σ = CIn c STeardown →
  step_client σ =
    Some (set_client (CIn c SRead) σ, teardown_events (mPreviewThread (hw σ))).
Proof.
  intros Hc. unfold step_client. rewrite Hc.
  rewrite (on_hw_done _ _ _ _ _ _ (stopPreview_teardown_eq _)).
  by rewrite teardown_spawns, set_hw_same, app_nil_r.
Qed.

Lemma step_client_read σ c :
  client σ = CIn c SRead →
  step_client σ =
    Some (set_client (CIn c (SRequest (mPreviewThread (hw σ)))) σ, []).
Proof.
  intros Hc. unfold step_client. rewrite Hc.
  rewrite (on_hw_done _ _ _ _ _ _ (stopPreview_read_eq _)).
  simpl. by rewrite set_hw_same.
Qed.

Lemma step_client_request_none σ c :
  client σ = CIn c (SRequest None) →
  step_client σ = Some (set_client (CIn c SClear) σ, []).
Proof.
  intros Hc. unfold step_client. rewrite Hc.
  rewrite (on_hw_done _ _ _ _ _ _ (stopPreview_wait_eq _ _)).
  simpl. by rewrite set_hw_same.
Qed.

Lemma step_client_request_some σ c t :
  client σ = CIn c (SRequest (Some t)) →
  step_client σ =
    Some (set_client (CIn c (SWait t)) (request_exit t σ),
          [EvRequestExitAndWait t]).
Proof.
  intros Hc. unfold step_client. rewrite Hc.
  rewrite (on_hw_done _ _ _ _ _ _ (stopPreview_wait_eq _ _)).
  simpl. by rewrite set_hw_same.
Qed.

Lemma step_client_wait σ c t :
  client σ = CIn c (SWait t) →
  step_client σ =
    if thread_exited σ t then Some (set_client (CIn c SClear) σ, []) else None.
Proof. intros Hc. unfold step_client. by rewrite Hc. Qed.

Lemma step_client_clear σ c :
  client σ = CIn c SClear →
  step_client σ =
    Some (set_client (match c with TakePicture => CIn c SPicture | _ => CIdle end)
            (set_hw (set_mPreviewThread None (hw σ)) σ),
          match c with TakePicture => [] | _ => [EvReturn c RVoid] end).
Proof.
  intros Hc. unfold step_client. rewrite Hc.
  rewrite (on_hw_done _ _ _ _ _ _ (stopPreview_clear_eq _)).
  simpl. by destruct c.
Qed.

Lemma step_client_picture σ c e1 e2 :
  client σ = CIn c SPicture →
  shutter_events (hw σ) = Some e1 →
  jpeg_events (hw σ) = Some e2 →
  step_client σ =
    Some (set_client CIdle σ,
          (e1 ++ picture_open ++ e2 ++ picture_close) ++
          [EvReturn c (RStatus NO_ERROR)]).
Proof.
  intros Hc E1 E2. unfold step_client. rewrite Hc.
  assert (Hp : pictureThread (hw σ) =
               Done NO_ERROR (hw σ) (e1 ++ picture_open ++ e2 ++ picture_close)).
  { by rewrite pictureThread_eq, E1, E2. }
  rewrite (on_hw_done _ _ _ _ _ _ Hp), (pictureThread_spawns _ _ _ _ _ Hp).
  by rewrite set_hw_same.
Qed.

Lemma set_previewStopped_same s b :
  previewStopped s = b → set_previewStopped b s = s.
Proof. intros <-. by destruct s. Qed.

Lemma set_mPreviewThread_same s h :
  mPreviewThread s = h → set_mPreviewThread h s = s.
Proof. intros <-. by destruct s. Qed.

Lemma set_client_same σ c : client σ = c → set_client c σ = σ.
Proof. intros <-. by destruct σ. Qed.

(** C7.  In a reachable state where the client is between calls and no
    preview thread handle is held, [stopPreview] changes nothing: the
    member function returns the object it was given and calls neither the
    device nor [requestExitAndWait]; in the system the call runs to its
    return on the client's steps alone, never waiting for another thread,
    and the whole state (object, threads, pending tasks) is what it was.
    For every object, [stopPreview] twice is [stopPreview] once. *)
Theorem stopPreview_idle_noop (σ : System) :
  reachable σ →
  client σ = CIdle →
  crashed σ = false →
  mPreviewThread (hw σ) = None →
  stopPreview (hw σ) = Done tt (hw σ) [] ∧
  run (LCall StopPreview :: replicate 5 LClient) σ =
    Some (σ, [EvCall StopPreview; EvReturn StopPreview RVoid]) ∧
  (∀ s, (stopPreview;; stopPreview) s = stopPreview s).
Proof.
  intros Hr Hc Hk Hh.
  pose proof (inv_stopped σ (reachable_inv σ Hr) Hh) as Hst.
  split; [|split].
  - rewrite stopPreview_eq, Hh. simpl.
    by rewrite (set_previewStopped_same _ _ Hst), (set_mPreviewThread_same _ _ Hh).
  - clear Hr. destruct σ as [s ts n cl cr]. simpl in *. subst cl cr.
    destruct s. simpl in *. subst. reflexivity.
  - intros s. unfold mbind, M_bind, bind. rewrite !stopPreview_eq. simpl.
    by rewrite app_nil_r.
Qed.

Lemma stopPreview_idle_noop_witness :
  ∃ σ, boot 0 = Some σ ∧
       stopPreview (hw σ) = Done tt (hw σ) [] ∧
       run (LCall StopPreview :: replicate 5 LClient) σ =
         Some (σ, [EvCall StopPreview; EvReturn StopPreview RVoid]) ∧
       (∀ s, (stopPreview;; stopPreview) s = stopPreview s).
Proof.
  destruct (boot 0) as [σ|] eqn:Hb; [|by vm_compute in Hb].
  exists σ. split; [done|].
  apply (stopPreview_idle_noop σ).
  - exists 0, σ, [], []. by split.
  - vm_compute in Hb. by injection Hb as <-.
  - vm_compute in Hb. by injection Hb as <-.
  - vm_compute in Hb. by injection Hb as <-.
Defined.

(* ------------------------------------------------------------------ *)
(** ** previewEnabled and the handle *)
(* ------------------------------------------------------------------ *)

Lemma step_handle l σ σ' tr :
  inv σ →
  step l σ = Some (σ', tr) →
  mPreviewThread (hw σ') = mPreviewThread (hw σ) ∨
  (∃ fresh, l = LCall (StartPreview fresh)) ∨
  (l = LClient ∧ (∃ c, client σ = CIn c SClear) ∧ mPreviewThread (hw σ') = None).
Proof.
  intros Hi Hs. unfold step in Hs. destruct (crashed σ); [done|].
  destruct l as [c| |t|].
  - apply step_call_trace in Hs as (tr' & _ & _ & [[fresh ->]|Hh]).
    + right. left. by eexists.
    + by left.
  - apply step_client_trace in Hs as [[Hh|Hh] _]; [| |by apply inv_client].
    + by left.
    + right. by right.
  - apply step_preview_trace in Hs as (_ & -> & _). by left.
  - apply step_focus_trace in Hs as [-> _]. by left.
Qed.

(** C10, as the code has it.  [previewEnabled] answers whether a preview
    thread handle is held and changes nothing.  It answers true after a
    [startPreview] that returned [NO_ERROR], and false after [stopPreview]
    and after [takePicture] (which begins with a full [stopPreview]).
    Every other public entry point completes and leaves the answer as it
    was.  In the running system the handle changes at two places only: a
    call of [startPreview], and the last stretch of [stopPreview], which
    clears it. *)
Theorem previewEnabled_tracks_handle (s : CameraHardware) :
  previewEnabled s = Done (bool_decide (mPreviewThread s ≠ None)) s [] ∧
  (∀ fresh s' tr,
     startPreview fresh s = Done NO_ERROR s' tr →
     previewEnabled s' = Done true s' []) ∧
  (∃ s' tr, stopPreview s = Done tt s' tr ∧
            previewEnabled s' = Done false s' []) ∧
  (∀ r s' tr, takePicture s = Done r s' tr →
              previewEnabled s' = Done false s' []) ∧
  (∀ c, changes_handle c = false →
        ∃ r s' tr b, exec_call c s = Done r s' tr ∧
                     previewEnabled s = Done b s [] ∧
                     previewEnabled s' = Done b s' []) ∧
  (∀ σ l σ' tr,
     reachable σ → step l σ = Some (σ', tr) →
     mPreviewThread (hw σ') = mPreviewThread (hw σ) ∨
     (∃ fresh, l = LCall (StartPreview fresh)) ∨
     (l = LClient ∧ (∃ c, client σ = CIn c SClear) ∧
      mPreviewThread (hw σ') = None)).
Proof.
  split; [reflexivity|].
  split.
  { intros fresh s' tr E. destruct (mPreviewThread s) as [t|] eqn:Hh.
    - by rewrite (startPreview_running _ _ _ Hh) in E.
    - destruct (startPreview_idle s fresh Hh) as (s1 & E1 & Hh1 & _).
      rewrite E1 in E. injection E as <- <-.
      unfold previewEnabled. unfold_m. by rewrite Hh1. }
  split.
  { do 2 eexists. split; [apply stopPreview_eq|]. reflexivity. }
  split.
  { intros r s' tr. unfold takePicture, mbind, M_bind, bind.
    rewrite stopPreview_eq.
    destruct (pictureThread _) as [a s1 tr1|tr1] eqn:Hp; [|done].
    apply pictureThread_reads in Hp as [-> ->]. simpl.
    by intros [= _ <- _]. }
  split.
  { intros c Hc.
    destruct (exec_call_keeps_handle c s Hc) as (r & s' & tr & E & Hh & _).
    exists r, s', tr, (bool_decide (mPreviewThread s ≠ None)).
    split; [done|]. split; [reflexivity|].
    unfold previewEnabled. unfold_m. by rewrite Hh. }
  intros σ l σ' tr Hr Hs. eapply step_handle; [|done]. by apply reachable_inv.
Qed.

Lemma previewEnabled_tracks_handle_witness :
  ∃ s' tr,
    startPreview 1%nat (CameraHardware_members 0) = Done NO_ERROR s' tr ∧
    previewEnabled s' = Done true s' [].
Proof.
  destruct (startPreview_idle (CameraHardware_members 0) 1%nat eq_refl)
    as (s' & E & _).
  eexists s', _. split; [exact E|].
  exact (proj1 (proj2 (previewEnabled_tracks_handle (CameraHardware_members 0)))
           1%nat s' _ E).
Defined.

(** C10 as stated fails: [takePicture] is neither [startPreview] nor
    [stopPreview], and it turns [previewEnabled] from true to false. *)
Lemma takePicture_turns_previewEnabled_off :
  ∃ s tr s' tr',
    previewing_session = Done NO_ERROR s tr ∧
    previewEnabled s = Done true s [] ∧
    exec_call TakePicture s = Done (RStatus NO_ERROR) s' tr' ∧
    previewEnabled s' = Done false s' [].
Proof.
  do 4 eexists.
  split; [lazy; reflexivity|].
  split; [lazy; reflexivity|].
  split; lazy; reflexivity.
Qed.

(* ------------------------------------------------------------------ *)
(** ** The factory *)
(* ------------------------------------------------------------------ *)

Lemma CameraHardware_ctor_eq (junk : Z) :
  CameraHardware_ctor junk =
    Done tt
         (set_mParameters
            (mkParams (640, 480) 15 "yuv422sp" (640, 480) "jpeg")
            (CameraHardware_members junk)) [].
Proof. reflexivity. Qed.

Lemma createInstance_none p addr junk :
  singleton p = None →
  addr ∉ dom (objects p) →
  createInstance addr junk p =
    Some (addr, mkProc (Some addr) (<[addr := (constructed junk, 1%nat)]> (objects p))).
Proof.
  intros Hs Hd. unfold createInstance. rewrite Hs.
  rewrite bool_decide_eq_false_2 by done.
  by rewrite CameraHardware_ctor_eq.
Qed.

Lemma createInstance_live p a s n addr junk :
  singleton p = Some a →
  objects p !! a = Some (s, n) →
  createInstance addr junk p =
    Some (a, mkProc (singleton p) (<[a := (s, S n)]> (objects p))).
Proof.
  intros Hs Hl. unfold createInstance, promote. by rewrite Hs, Hl.
Qed.

Lemma proc_step_inv o p p' : proc_inv p → proc_step o p = Some p' → proc_inv p'.
Proof.
  intros Hi Hs. destruct p as [sg objs]. unfold proc_inv in *. simpl in *.
  destruct Hi as [[-> ->]|(a & s & n & -> & ->)].
  - destruct o as [addr junk|a|a|a c]; simpl in Hs.
    + rewrite createInstance_none in Hs by (done || set_solver).
      simpl in Hs. injection Hs as <-.
      right. simpl. do 3 eexists. split; [done|]. by rewrite insert_empty.
    + unfold cloneHandle, promote in Hs. simpl in Hs.
      by rewrite lookup_empty in Hs.
    + unfold dropHandle in Hs. simpl in Hs. by rewrite lookup_empty in Hs.
    + unfold callOn in Hs. simpl in Hs. by rewrite lookup_empty in Hs.
  - destruct o as [addr junk|a'|a'|a' c]; simpl in Hs.
    + erewrite createInstance_live in Hs;
        [|done|simpl; apply lookup_singleton_eq].
      simpl in Hs. injection Hs as <-.
      right. simpl. do 3 eexists. split; [done|]. by rewrite insert_singleton_eq.
    + unfold cloneHandle, promote in Hs. simpl in Hs.
      destruct (decide (a' = a)) as [->|Hne].
      * rewrite lookup_singleton_eq in Hs. injection Hs as <-.
        right. simpl. do 3 eexists. split; [done|]. by rewrite insert_singleton_eq.
      * by rewrite lookup_singleton_ne in Hs.
    + unfold dropHandle in Hs. simpl in Hs.
      destruct (decide (a' = a)) as [->|Hne].
      * rewrite lookup_singleton_eq in Hs. destruct n as [|n]; injection Hs as <-.
        -- left. simpl. by rewrite delete_singleton_eq.
        -- right. simpl. do 3 eexists. split; [done|].
           by rewrite insert_singleton_eq.
      * by rewrite lookup_singleton_ne in Hs.
    + unfold callOn in Hs. simpl in Hs.
      destruct (decide (a' = a)) as [->|Hne].
      * rewrite lookup_singleton_eq in Hs.
        destruct (exec_call c s) as [r s' tr|]; [|done]. injection Hs as <-.
        right. simpl. do 3 eexists. split; [done|]. by rewrite insert_singleton_eq.
      * by rewrite lookup_singleton_ne in Hs.
Qed.

Lemma proc_reachable_inv p : proc_reachable p → proc_inv p.
Proof.
  intros [ops Hr].
  assert (Hgen : ∀ p0, proc_inv p0 → proc_run ops p0 = Some p → proc_inv p).
  { clear Hr. induction ops as [|o ops IH]; intros p0 Hi Hr; simpl in Hr.
    - by injection Hr as <-.
    - destruct (proc_step o p0) as [p1|] eqn:Hs; [|done].
      eapply IH; [|done]. by eapply proc_step_inv. }
  apply (Hgen Process_start); [|done]. by left.
Qed.

(** C8.  In any state the process can be in: while a session is alive
    (some handle to it is left), [createInstance] constructs nothing and
    answers that same session, with one more handle on it; dropping the
    last handle leaves no session and a cleared [singleton]; and when no
    session is alive, [createInstance] constructs one, whose parameters
    are 640x480 for preview and picture, 15 frames per second,
    "yuv422sp" and "jpeg". *)
Theorem createInstance_shares_or_constructs (p : Process) :
  proc_reachable p →
  (∀ a s n, objects p !! a = Some (s, n) →
     ∀ addr junk,
       createInstance addr junk p =
         Some (a, mkProc (singleton p) (<[a := (s, S n)]> (objects p)))) ∧
  (∀ a s, objects p !! a = Some (s, 1%nat) →
     dropHandle a p = Some (mkProc None ∅)) ∧
  (objects p = ∅ →
     ∀ addr junk, ∃ s,
       CameraHardware_ctor junk = Done tt s [] ∧
       createInstance addr junk p =
         Some (addr, mkProc (Some addr) {[ addr := (s, 1%nat) ]}) ∧
       default_parameters (mParameters s)).
Proof.
  intros Hi%proc_reachable_inv. destruct p as [sg objs].
  unfold proc_inv in Hi. simpl in *.
  destruct Hi as [[-> ->]|(a0 & s0 & n0 & -> & ->)].
  - split; [|split].
    + intros a s n Hl. by rewrite lookup_empty in Hl.
    + intros a s Hl. by rewrite lookup_empty in Hl.
    + intros _ addr junk. exists (constructed junk).
      split; [apply CameraHardware_ctor_eq|].
      split; [|by repeat split].
      rewrite createInstance_none by (done || set_solver).
      simpl. by rewrite insert_empty.
  - split; [|split].
    + intros a s n [<- [= <- <-]]%lookup_singleton_Some addr junk.
      by apply createInstance_live; [|apply lookup_singleton_eq].
    + intros a s [<- [= <- ->]]%lookup_singleton_Some.
      unfold dropHandle. simpl.
      by rewrite lookup_singleton_eq, delete_singleton_eq.
    + intros He. exfalso.
      assert (({[a0 := (s0, S n0)]} : gmap nat (CameraHardware * nat)) !! a0 = None)
        as Hl by (by rewrite He, lookup_empty).
      by rewrite lookup_singleton_eq in Hl.
Qed.

Lemma createInstance_shares_or_constructs_witness :
  ∃ p, proc_run factory_demo Process_start = Some p ∧
       objects p = ∅ ∧
       ∃ s, CameraHardware_ctor 3 = Done tt s [] ∧
            createInstance 12 3 p =
              Some (12%nat, mkProc (Some 12%nat) {[ 12%nat := (s, 1%nat) ]}) ∧
            default_parameters (mParameters s).
Proof.
  destruct (proc_run factory_demo Process_start) as [p|] eqn:Hr;
    [|by vm_compute in Hr].
  exists p. split; [done|].
  assert (objects p = ∅) as Ho.
  { vm_compute in Hr. by injection Hr as <-. }
  split; [done|].
  apply (createInstance_shares_or_constructs p); [|done].
  by exists factory_demo.
Defined.

(* ------------------------------------------------------------------ *)
(** ** takePicture *)
(* ------------------------------------------------------------------ *)

Lemma exactly_shutter_jpeg s :
  exactly_enabled s [MsgShutter; MsgCompressedImage] →
  flag_set (mMsgEnabled s) CAMERA_MSG_SHUTTER = true ∧
  flag_set (mMsgEnabled s) CAMERA_MSG_COMPRESSED_IMAGE = true ∧
  flag_set (mMsgEnabled s) CAMERA_MSG_PREVIEW_FRAME = false ∧
  flag_set (mMsgEnabled s) CAMERA_MSG_FOCUS = false.
Proof.
  intros H. repeat split.
  - apply (H MsgShutter).
  - apply (H MsgCompressedImage).
  - apply (H MsgPreviewFrame).
  - apply (H MsgFocus).
Qed.

Lemma same_config_events s s' :
  same_config s s' →
  shutter_events s' = shutter_events s ∧ jpeg_events s' = jpeg_events s.
Proof.
  intros (Hm & Hn & Hd & Hu). unfold shutter_events, jpeg_events.
  by rewrite Hm, Hn, Hd, Hu.
Qed.

Section Capture.
Variable s0 : CameraHardware.
Variables nf df : nat.
Hypothesis Hnf : mNotifyFn s0 = Some nf.
Hypothesis Hdf : mDataFn s0 = Some df.
Hypothesis Hshutter : flag_set (mMsgEnabled s0) CAMERA_MSG_SHUTTER = true.
Hypothesis Hjpeg : flag_set (mMsgEnabled s0) CAMERA_MSG_COMPRESSED_IMAGE = true.
Hypothesis Hpreview : flag_set (mMsgEnabled s0) CAMERA_MSG_PREVIEW_FRAME = false.
Hypothesis Hfocus : flag_set (mMsgEnabled s0) CAMERA_MSG_FOCUS = false.

Lemma capture_shutter s : same_config s0 s → shutter_events s = Some [shutter_cb s0 nf].
Proof.
  intros Hc. rewrite (proj1 (same_config_events _ _ Hc)).
  unfold shutter_events. by rewrite Hshutter, Hnf.
Qed.

Lemma capture_jpeg s :
  same_config s0 s → jpeg_events s = Some [EvDev DevGrabJpegFrame; jpeg_cb s0 df].
Proof.
  intros Hc. rewrite (proj2 (same_config_events _ _ Hc)).
  unfold jpeg_events. by rewrite Hjpeg, Hdf.
Qed.

Lemma capture_step l σ σ' tr seen :
  inv σ → no_call l →
  capture_phase s0 nf df σ seen →
  step l σ = Some (σ', tr) →
  capture_phase s0 nf df σ' (seen ++ filter is_visible tr).
Proof.
  intros Hi Hl [Hcfg Hph] Hs. unfold step in Hs.
  destruct (crashed σ); [done|].
  destruct l as [c| |t|]; [by destruct (Hl c)| | |].
  - (* the client goes on *)
    destruct (client σ) as [|c pt] eqn:Hc;
      [unfold step_client in Hs; by rewrite Hc in Hs|].
    destruct c; try done. subst seen.
    pose proof (inv_client σ Hi) as Hok. unfold client_ok in Hok.
    rewrite Hc in Hok. destruct Hok as [_ Hok].
    destruct pt as [| | |[t|]|t| |].
    + rewrite (step_client_flag _ _ Hc) in Hs. injection Hs as <- <-. by split.
    + rewrite (step_client_teardown _ _ Hc) in Hs. injection Hs as <- <-.
      split; [done|]. simpl. by destruct (mPreviewThread (hw σ)).
    + rewrite (step_client_read _ _ Hc) in Hs. injection Hs as <- <-. by split.
    + rewrite (step_client_request_some _ _ _ Hc) in Hs.
      injection Hs as <- <-. by split.
    + rewrite (step_client_request_none _ _ Hc) in Hs.
      injection Hs as <- <-. by split.
    + rewrite (step_client_wait _ _ _ Hc) in Hs.
      destruct (thread_exited σ t); [|done]. injection Hs as <- <-. by split.
    + rewrite (step_client_clear _ _ Hc) in Hs. injection Hs as <- <-. by split.
    + rewrite (step_client_picture _ _ _ _ Hc (capture_shutter _ Hcfg)
                 (capture_jpeg _ Hcfg)) in Hs.
      injection Hs as <- <-. split; [done|]. simpl. split; [done|].
      by destruct Hok.
  - (* a preview thread moves *)
    pose proof Hcfg as (Hm & _).
    assert (hw σ' = hw σ ∧ client σ' = client σ ∧ filter is_visible tr = [])
      as (Hhw & Hcl & Htr).
    { unfold step_preview in Hs.
      destruct (threads σ !! t) as [st|]; [|done].
      destruct (pc st); [| | | |done].
      - injection Hs as <- <-. by destruct (previewStopped (hw σ)).
      - unfold on_hw in Hs. rewrite grabPreviewFrame_eq in Hs.
        destruct (mHeap (hw σ)); injection Hs as <- <-; done.
      - unfold on_hw in Hs. rewrite previewDispatch_eq, Hm, Hpreview in Hs.
        injection Hs as <- <-. done.
      - injection Hs as <- <-. by destruct (exitPending st). }
    unfold capture_phase. by rewrite Hhw, Hcl, Htr, app_nil_r.
  - (* an auto-focus task runs *)
    pose proof Hcfg as (Hm & _).
    assert (hw σ' = hw σ ∧ client σ' = client σ ∧ filter is_visible tr = [])
      as (Hhw & Hcl & Htr).
    { unfold step_focus in Hs. destruct (focusTasks σ) as [|n]; [done|].
      unfold on_hw in Hs. simpl in Hs.
      rewrite autoFocusThread_eq, Hm, Hfocus in Hs.
      injection Hs as <- <-. done. }
    unfold capture_phase. by rewrite Hhw, Hcl, Htr, app_nil_r.
Qed.

Lemma capture_run sched σ σ' tr seen :
  inv σ → Forall no_call sched →
  capture_phase s0 nf df σ seen →
  run sched σ = Some (σ', tr) →
  capture_phase s0 nf df σ' (seen ++ filter is_visible tr).
Proof.
  revert σ tr seen.
  induction sched as [|l sched IH]; intros σ tr seen Hi Hl Hph Hr; simpl in Hr.
  - injection Hr as <- <-. by rewrite app_nil_r.
  - destruct (step l σ) as [[σ1 tr1]|] eqn:Hs; [|done].
    destruct (run sched σ1) as [[σ2 tr2]|] eqn:Hr2; [|done].
    injection Hr as <- <-.
    apply Forall_cons in Hl as [Hl1 Hl2].
    rewrite filter_app, app_assoc.
    eapply IH; [by eapply step_inv|done| |done].
    by eapply capture_step.
Qed.

End Capture.

(** *** The call can always run to its return *)

Lemma run_app s1 s2 σ :
  run (s1 ++ s2) σ =
    match run s1 σ with
    | Some (σ1, tr1) =>
        match run s2 σ1 with
        | Some (σ2, tr2) => Some (σ2, tr1 ++ tr2)
        | None => None
        end
    | None => None
    end.
Proof.
  revert σ. induction s1 as [|l s1 IH]; intros σ; simpl.
  - by destruct (run s2 σ) as [[? ?]|].
  - destruct (step l σ) as [[σ1 tr1]|]; [|done].
    rewrite IH. destruct (run s1 σ1) as [[σ2 tr2]|]; [|done].
    destruct (run s2 σ2) as [[σ3 tr3]|]; [|done].
    by rewrite app_assoc.
Qed.

Lemma drained_step t σ σ1 tr1 :
  step (LPreview t) σ = Some (σ1, tr1) →
  hw σ1 = hw σ → client σ1 = client σ →
  (∃ k σ' tr, run (replicate k (LPreview t)) σ1 = Some (σ', tr) ∧ drained t σ1 σ') →
  ∃ k σ' tr, run (replicate k (LPreview t)) σ = Some (σ', tr) ∧ drained t σ σ'.
Proof.
  intros Hs Hhw Hcl (k & σ' & tr & Hr & He & Hh & Hc & Hk).
  exists (S k), σ', (tr1 ++ tr). simpl. rewrite Hs, Hr.
  split; [done|]. unfold drained. by rewrite <- Hhw, <- Hcl.
Qed.

Lemma lookup_set_pc t p σ st :
  threads σ !! t = Some st →
  threads (set_pc t p σ) !! t = Some (mkThread p (exitPending st)).
Proof. intros Hl. unfold set_pc. simpl. by rewrite lookup_alter_eq, Hl. Qed.

(** Once asked to exit, with [previewStopped] set, a preview thread is
    gone after at most three steps of its own. *)
Lemma drain t σ st :
  threads σ !! t = Some st →
  exitPending st = true →
  crashed σ = false →
  previewStopped (hw σ) = true →
  is_Some (mHeap (hw σ)) →
  flag_set (mMsgEnabled (hw σ)) CAMERA_MSG_PREVIEW_FRAME = false →
  ∃ k σ' tr, run (replicate k (LPreview t)) σ = Some (σ', tr) ∧ drained t σ σ'.
Proof.
  intros Hl He Hk Hst [h Hh] Hfl.
  assert (Hcheck : ∀ σ st, threads σ !! t = Some st → exitPending st = true →
            crashed σ = false → pc st = AtExitCheck →
            ∃ k σ' tr, run (replicate k (LPreview t)) σ = Some (σ', tr) ∧
                       drained t σ σ').
  { clear. intros σ st Hl He Hk Hpc.
    exists 1%nat, (set_pc t Exited σ), []. simpl.
    unfold step, step_preview. rewrite Hk, Hl, Hpc, He. split; [done|].
    unfold drained, thread_exited. rewrite (lookup_set_pc _ _ _ _ Hl).
    by repeat split. }
  assert (Hdisp : ∀ σ st, threads σ !! t = Some st → exitPending st = true →
            crashed σ = false → pc st = AtDispatch →
            flag_set (mMsgEnabled (hw σ)) CAMERA_MSG_PREVIEW_FRAME = false →
            ∃ k σ' tr, run (replicate k (LPreview t)) σ = Some (σ', tr) ∧
                       drained t σ σ').
  { clear -Hcheck. intros σ st Hl He Hk Hpc Hfl.
    apply (drained_step t σ (set_pc t AtExitCheck σ) []); [|done|done|].
    - unfold step, step_preview, on_hw. rewrite Hk, Hl, Hpc.
      rewrite previewDispatch_eq, Hfl. simpl. by rewrite set_hw_same.
    - eapply Hcheck; [by apply lookup_set_pc|done|done|done]. }
  destruct (pc st) eqn:Hpc.
  - (* about to test previewStopped *)
    apply (drained_step t σ (set_pc t AtExitCheck σ) []); [|done|done|].
    + unfold step, step_preview. by rewrite Hk, Hl, Hpc, Hst.
    + eapply Hcheck; [by apply lookup_set_pc|done|done|done].
  - (* about to grab *)
    apply (drained_step t σ (set_pc t AtDispatch σ)
             [EvDev (DevGrabPreviewFrame h)]); [|done|done|].
    + unfold step, step_preview, on_hw. rewrite Hk, Hl, Hpc.
      rewrite grabPreviewFrame_eq, Hh. simpl. by rewrite set_hw_same.
    + eapply Hdisp; [by apply lookup_set_pc|done|done|done|done].
  - by eapply Hdisp.
  - by eapply Hcheck.
  - exists 0%nat, σ, []. split; [done|].
    unfold drained, thread_exited. rewrite Hl, Hpc. by repeat split.
Qed.

Lemma take_prefix σ :
  client σ = CIdle → crashed σ = false →
  run [LCall TakePicture; LClient; LClient; LClient] σ =
    Some (set_client (CIn TakePicture (SRequest (mPreviewThread (hw σ))))
            (set_hw (set_previewStopped true (hw σ)) σ),
          EvCall TakePicture :: teardown_events (mPreviewThread (hw σ))).
Proof.
  intros Hc Hk. destruct σ as [s ts n cl cr]. simpl in *. subst cl cr.
  destruct s as [? ? ? ? ? ? ? ? ? ? ? ? ? ? ? [t|]]; reflexivity.
Qed.

Lemma take_finish σ e1 e2 :
  client σ = CIn TakePicture SClear → crashed σ = false →
  shutter_events (hw σ) = Some e1 →
  jpeg_events (hw σ) = Some e2 →
  ∃ σ' tr, run [LClient; LClient] σ = Some (σ', tr) ∧ client σ' = CIdle.
Proof.
  intros Hc Hk E1 E2. simpl. unfold step at 1. rewrite Hk.
  rewrite (step_client_clear _ _ Hc).
  unfold step. simpl crashed. rewrite Hk.
  erewrite (step_client_picture _ TakePicture e1 e2); [by do 2 eexists|done|..].
  - exact E1.
  - exact E2.
Qed.

Lemma run_one l σ σ1 tr1 :
  step l σ = Some (σ1, tr1) → run [l] σ = Some (σ1, tr1).
Proof. intros Hs. simpl. by rewrite Hs, app_nil_r. Qed.

Lemma no_call_client : no_call LClient.
Proof. by intros c. Qed.

Lemma no_call_preview t : no_call (LPreview t).
Proof. by intros c. Qed.

Lemma takePicture_can_return σ e1 e2 :
  inv σ → client σ = CIdle → crashed σ = false →
  shutter_events (hw σ) = Some e1 →
  jpeg_events (hw σ) = Some e2 →
  flag_set (mMsgEnabled (hw σ)) CAMERA_MSG_PREVIEW_FRAME = false →
  ∃ sched σ' tr,
    Forall no_call sched ∧
    run (LCall TakePicture :: sched) σ = Some (σ', tr) ∧
    client σ' = CIdle.
Proof.
  intros Hi Hc Hk E1 E2 Hfl.
  pose proof (take_prefix σ Hc Hk) as Hpre.
  set (σ4 := set_client (CIn TakePicture (SRequest (mPreviewThread (hw σ))))
               (set_hw (set_previewStopped true (hw σ)) σ)) in *.
  destruct (mPreviewThread (hw σ)) as [t|] eqn:Hh.
  - (* a preview thread is running: ask it to exit, let it go, go on *)
    destruct (inv_handle σ Hi t Hh) as [st Hl].
    set (σ5 := set_client (CIn TakePicture (SWait t)) (request_exit t σ4)).
    assert (Hs5 : step LClient σ4 = Some (σ5, [EvRequestExitAndWait t])).
    { unfold step. simpl crashed. rewrite Hk.
      by rewrite (step_client_request_some σ4 TakePicture t). }
    destruct (drain t σ5 (mkThread (pc st) true)) as (k & σ6 & tr6 & Hr6 & Hd);
      [|done|done|done| |done|].
    { simpl. by rewrite lookup_alter_eq, Hl. }
    { simpl. by apply (inv_heap σ Hi t). }
    destruct Hd as (Hex & Hhw & Hcl & Hk6).
    set (σ7 := set_client (CIn TakePicture SClear) σ6).
    assert (Hs7 : step LClient σ6 = Some (σ7, [])).
    { unfold step. rewrite Hk6.
      rewrite (step_client_wait σ6 TakePicture t) by done. by rewrite Hex. }
    destruct (take_finish σ7 e1 e2) as (σ' & tr' & Hr' & Hc'); [done|done|..].
    { simpl. by rewrite Hhw. }
    { simpl. by rewrite Hhw. }
    exists ([LClient; LClient; LClient] ++ [LClient] ++
            replicate k (LPreview t) ++ [LClient] ++ [LClient; LClient]).
    do 2 eexists. split; [|split; [|exact Hc']].
    + repeat (apply Forall_app; split);
        try (by apply Forall_replicate, no_call_preview);
        repeat apply Forall_cons_2; auto using no_call_client.
    + change (LCall TakePicture :: ?a ++ ?b)
        with ([LCall TakePicture; LClient; LClient; LClient] ++ b).
      rewrite run_app, Hpre.
      rewrite run_app, (run_one _ _ _ _ Hs5).
      rewrite run_app, Hr6.
      rewrite run_app, (run_one _ _ _ _ Hs7).
      rewrite Hr'. reflexivity.
  - (* no preview thread *)
    set (σ5 := set_client (CIn TakePicture SClear) σ4).
    assert (Hs5 : step LClient σ4 = Some (σ5, [])).
    { unfold step. simpl crashed. rewrite Hk.
      by rewrite (step_client_request_none σ4 TakePicture). }
    destruct (take_finish σ5 e1 e2) as (σ' & tr' & Hr' & Hc'); [done..|].
    exists ([LClient; LClient; LClient] ++ [LClient] ++ [LClient; LClient]).
    do 2 eexists. split; [|split; [|exact Hc']].
    + repeat apply Forall_cons_2; auto using no_call_client.
    + change (LCall TakePicture :: ?a ++ ?b)
        with ([LCall TakePicture; LClient; LClient; LClient] ++ b).
      rewrite run_app, Hpre.
      rewrite run_app, (run_one _ _ _ _ Hs5).
      rewrite Hr'. reflexivity.
Qed.

(** C2 as stated fails: with exactly the two kinds enabled but the notify
    slot null, [takePicture] faults on the shutter dispatch; nothing is
    dispatched and nothing is returned. *)
Lemma takePicture_null_notify_faults :
  ∃ s tr,
    unregistered_capture_session = Done tt s tr ∧
    exactly_enabled s [MsgShutter; MsgCompressedImage] ∧
    takePicture s = Fault [].
Proof.
  do 2 eexists. split; [reflexivity|]. split; [|reflexivity].
  intros k. by destruct k.
Qed.

(** C2, as the code has it.  Let exactly the shutter and compressed-image
    kinds be enabled and a notify and a data callback be registered, in a
    reachable state with the client between calls, whether or not preview
    is running.  Then [takePicture], as a member function, returns
    [NO_ERROR], calls back once for the shutter and then once with the
    compressed image, and leaves no preview thread handle.  In the system,
    every run of the call to its return, however the preview thread and
    the focus tasks are interleaved with it, shows the consumer exactly:
    the call, the shutter notification, the compressed image, the return
    of [NO_ERROR] -- no preview frame; after it no handle is held and every
    preview thread has exited.  And there is always such a run. *)
Theorem takePicture_shutter_then_jpeg (σ : System) (nf df : nat) :
  reachable σ →
  client σ = CIdle →
  crashed σ = false →
  exactly_enabled (hw σ) [MsgShutter; MsgCompressedImage] →
  mNotifyFn (hw σ) = Some nf →
  mDataFn (hw σ) = Some df →
  (∃ s' tr,
     takePicture (hw σ) = Done NO_ERROR s' tr ∧
     filter is_callback tr =
       [EvNotify nf CAMERA_MSG_SHUTTER 0 0 (mUser (hw σ));
        EvData df CAMERA_MSG_COMPRESSED_IMAGE JpegMem (mUser (hw σ))] ∧
     mPreviewThread s' = None) ∧
  (∀ sched σ' tr,
     Forall no_call sched →
     run (LCall TakePicture :: sched) σ = Some (σ', tr) →
     client σ' = CIdle →
     filter is_visible tr =
       [EvCall TakePicture;
        EvNotify nf CAMERA_MSG_SHUTTER 0 0 (mUser (hw σ));
        EvData df CAMERA_MSG_COMPRESSED_IMAGE JpegMem (mUser (hw σ));
        EvReturn TakePicture (RStatus NO_ERROR)] ∧
     mPreviewThread (hw σ') = None ∧
     all_exited σ') ∧
  (∃ sched σ' tr,
     Forall no_call sched ∧
     run (LCall TakePicture :: sched) σ = Some (σ', tr) ∧
     client σ' = CIdle).
Proof.
  intros Hr%reachable_inv Hc Hk (Hsh & Hjp & Hpv & Hfo)%exactly_shutter_jpeg Hnf Hdf.
  pose proof (capture_shutter (hw σ) nf Hnf Hsh) as Esh.
  pose proof (capture_jpeg (hw σ) df Hdf Hjp) as Ejp.
  split; [|split].
  - unfold takePicture, mbind, M_bind, bind. rewrite stopPreview_eq.
    rewrite pictureThread_eq.
    rewrite (Esh (set_mPreviewThread None (set_previewStopped true (hw σ))))
      by done.
    rewrite (Ejp (set_mPreviewThread None (set_previewStopped true (hw σ))))
      by done.
    do 2 eexists. split; [reflexivity|]. split; [|done].
    rewrite !filter_app. by destruct (mPreviewThread (hw σ)).
  - intros sched σ' tr Hsched Hrun Hc'.
    simpl in Hrun. unfold step, step_call in Hrun. rewrite Hk, Hc in Hrun.
    simpl in Hrun.
    destruct (run sched _) as [[σ2 tr2]|] eqn:Hr2; [|done].
    injection Hrun as <- <-.
    set (σ1 := set_client (CIn TakePicture SFlag) σ) in *.
    assert (Hi1 : inv σ1) by (apply inv_set_client; [done|by unfold client_ok]).
    assert (Hph : capture_phase (hw σ) nf df σ1 [EvCall TakePicture])
      by (by split).
    pose proof (capture_run (hw σ) nf df Hnf Hdf Hsh Hjp Hpv Hfo
                  sched σ1 σ2 tr2 _ Hi1 Hsched Hph Hr2) as [_ Hfin].
    unfold capture_phase in Hfin. rewrite Hc' in Hfin.
    destruct Hfin as [Hseen Hh].
    split; [exact Hseen|]. split; [done|].
    apply inv_no_handle_all_exited; [|done]. by eapply run_inv.
  - assert (Hsame : same_config (hw σ) (hw σ)) by done.
    exact (takePicture_can_return σ _ _ Hr Hc Hk (Esh _ Hsame) (Ejp _ Hsame) Hpv).
Qed.

Lemma takePicture_shutter_then_jpeg_witness :
  ∃ σ0 σ tr0,
    boot 0 = Some σ0 ∧ run capture_demo σ0 = Some (σ, tr0) ∧
    mPreviewThread (hw σ) = Some 5%nat ∧
    ∃ sched σ' tr,
      Forall no_call sched ∧
      run (LCall TakePicture :: sched) σ = Some (σ', tr) ∧
      client σ' = CIdle.
Proof.
  destruct (boot 0) as [σ0|] eqn:Hb; [|by vm_compute in Hb].
  destruct (run capture_demo σ0) as [[σ tr0]|] eqn:Hr.
  - exists σ0, σ, tr0. split; [done|]. split; [done|].
    assert (Hreach : reachable σ) by (by exists 0, σ0, capture_demo, tr0).
    vm_compute in Hb. injection Hb as <-.
    vm_compute in Hr. injection Hr as <- <-.
    split; [reflexivity|].
    refine (proj2 (proj2 (takePicture_shutter_then_jpeg _ 1%nat 2%nat
                            Hreach eq_refl eq_refl _ eq_refl eq_refl))).
    intros k. by destruct k.
  - vm_compute in Hb. injection Hb as <-. by vm_compute in Hr.
Defined.

(* ================================================================== *)
(** * Part 7: further properties of the code *)
(* ================================================================== *)

(** ** The message mask *)

Lemma flag_set_lor a m m' :
  flag_set (Z.lor a m) m' = flag_set a m' || flag_set m m'.
Proof.
  unfold flag_set. rewrite Z.land_lor_distr_l.
  destruct (Z.land a m' =? 0) eqn:E1, (Z.land m m' =? 0) eqn:E2; simpl.
  - apply Z.eqb_eq in E1, E2. rewrite E1, E2. reflexivity.
  - apply negb_true_iff, Z.eqb_neq. rewrite Z.lor_eq_0_iff.
    apply Z.eqb_neq in E2. tauto.
  - apply negb_true_iff, Z.eqb_neq. rewrite Z.lor_eq_0_iff.
    apply Z.eqb_neq in E1. tauto.
  - apply negb_true_iff, Z.eqb_neq. rewrite Z.lor_eq_0_iff.
    apply Z.eqb_neq in E1. tauto.
Qed.

Lemma land_lnot_self a m : Z.land (Z.land a (Z.lnot m)) m = 0.
Proof.
  rewrite <- Z.land_assoc, (Z.land_comm (Z.lnot m) m), Z.land_lnot_diag.
  apply Z.land_0_r.
Qed.

Lemma land_lnot_disjoint a m m' :
  Z.land m' m = 0 → Z.land (Z.land a (Z.lnot m)) m' = Z.land a m'.
Proof.
  intros H. apply Z.bits_inj'. intros n Hn.
  rewrite !Z.land_spec, Z.lnot_spec by done.
  assert (Z.testbit (Z.land m' m) n = false) as Hb by (by rewrite H, Z.bits_0).
  rewrite Z.land_spec in Hb.
  destruct (Z.testbit a n), (Z.testbit m n), (Z.testbit m' n); done.
Qed.

(** X1.  Enabling a mask and asking for a mask: the answer is what it was
    before, or that the two masks share a bit.  After disabling a mask,
    asking for that same mask answers false, and asking for a mask that
    shares no bit with it answers as before.  Asking for the empty mask
    answers false whatever is enabled. *)
Theorem msgType_enable_disable_query (s : CameraHardware) (m m' : Z) :
  (enableMsgType m;; msgTypeEnabled m') s =
    Done (flag_set (mMsgEnabled s) m' || flag_set m m')
         (set_mMsgEnabled (Z.lor (mMsgEnabled s) m) s) [] ∧
  (disableMsgType m;; msgTypeEnabled m) s =
    Done false (set_mMsgEnabled (Z.land (mMsgEnabled s) (Z.lnot m)) s) [] ∧
  (Z.land m' m = 0 →
   (disableMsgType m;; msgTypeEnabled m') s =
     Done (flag_set (mMsgEnabled s) m')
          (set_mMsgEnabled (Z.land (mMsgEnabled s) (Z.lnot m)) s) []) ∧
  (enableMsgType m;; msgTypeEnabled 0) s =
    Done false (set_mMsgEnabled (Z.lor (mMsgEnabled s) m) s) [].
Proof.
  unfold enableMsgType, disableMsgType, msgTypeEnabled. unfold_m. simpl.
  split; [by rewrite flag_set_lor|].
  split; [unfold flag_set; by rewrite land_lnot_self|].
  split; [intros H; unfold flag_set; by rewrite land_lnot_disjoint|].
  unfold flag_set. by rewrite Z.land_0_r.
Qed.

Lemma msgType_enable_disable_query_witness :
  let s := CameraHardware_members 0x12 in
  (disableMsgType 0x02;; msgTypeEnabled 0x10) s =
    Done true (set_mMsgEnabled 0x10 s) [].
Proof.
  intros s.
  apply (proj1 (proj2 (proj2 (msgType_enable_disable_query s 0x02 0x10)))).
  reflexivity.
Defined.

Lemma msg_bit_disjoint (k k' : MsgKind) :
  k ≠ k' → Z.land (msg_bit k) (msg_bit k') = 0.
Proof. destruct k, k'; intros H; (reflexivity || by destruct H). Qed.

Lemma msg_bit_self (k : MsgKind) : flag_set (msg_bit k) (msg_bit k) = true.
Proof. by destruct k. Qed.

(** X2.  The kinds are independent: enabling one kind enables that kind and
    leaves every other kind as it was; disabling one kind disables that
    kind and leaves every other kind as it was. *)
Theorem msgKind_independent (s : CameraHardware) (k k' : MsgKind) :
  (∀ s', enableMsgType (msg_bit k) s = Done tt s' [] →
         kind_enabled s' k' = bool_decide (k' = k) || kind_enabled s k') ∧
  (∀ s', disableMsgType (msg_bit k) s = Done tt s' [] →
         kind_enabled s' k' = negb (bool_decide (k' = k)) && kind_enabled s k').
Proof.
  unfold enableMsgType, disableMsgType, kind_enabled. unfold_m.
  split; intros s' [= <-]; simpl.
  - rewrite flag_set_lor, orb_comm. f_equal.
    destruct (decide (k' = k)) as [->|Hne].
    + by rewrite bool_decide_eq_true_2, msg_bit_self.
    + rewrite bool_decide_eq_false_2 by done.
      unfold flag_set. rewrite msg_bit_disjoint by done. reflexivity.
  - destruct (decide (k' = k)) as [->|Hne].
    + rewrite bool_decide_eq_true_2 by done. simpl.
      unfold flag_set. by rewrite land_lnot_self.
    + rewrite bool_decide_eq_false_2 by done. simpl.
      unfold flag_set. rewrite land_lnot_disjoint; [done|].
      by apply msg_bit_disjoint.
Qed.

Lemma msgKind_independent_witness :
  let s := CameraHardware_members CAMERA_MSG_SHUTTER in
  let s' := set_mMsgEnabled (Z.lor CAMERA_MSG_SHUTTER CAMERA_MSG_FOCUS) s in
  enableMsgType (msg_bit MsgFocus) s = Done tt s' [] ∧
  kind_enabled s' MsgShutter =
    bool_decide (MsgShutter = MsgFocus) || kind_enabled s MsgShutter.
Proof.
  intros s s'. split; [reflexivity|].
  exact (proj1 (msgKind_independent s MsgFocus MsgShutter) s' eq_refl).
Defined.

(** X3.  Enabling two masks one after the other is enabling their union,
    in either order; disabling two masks one after the other is disabling
    their union; enabling a mask twice is enabling it once. *)
Theorem msgType_updates_compose (s : CameraHardware) (a b : Z) :
  (enableMsgType a;; enableMsgType b) s = enableMsgType (Z.lor a b) s ∧
  (enableMsgType a;; enableMsgType b) s = (enableMsgType b;; enableMsgType a) s ∧
  (disableMsgType a;; disableMsgType b) s = disableMsgType (Z.lor a b) s ∧
  (enableMsgType a;; enableMsgType a) s = enableMsgType a s.
Proof.
  unfold enableMsgType, disableMsgType. unfold_m. simpl.
  unfold set_mMsgEnabled. simpl.
  repeat split; do 2 f_equal.
  - by rewrite Z.lor_assoc.
  - by rewrite <- !Z.lor_assoc, (Z.lor_comm a b).
  - by rewrite Z.lnot_lor, Z.land_assoc.
  - by rewrite <- Z.lor_assoc, Z.lor_diag.
Qed.

Lemma in_int32_shiftr z : in_int32 z ↔ Z.shiftr z 31 = 0 ∨ Z.shiftr z 31 = -1.
Proof.
  unfold in_int32. rewrite Z.shiftr_div_pow2 by done.
  change (2 ^ 31) with 2147483648.
  pose proof (Z.div_mod z 2147483648 ltac:(done)) as Hd.
  pose proof (Z.mod_pos_bound z 2147483648 ltac:(done)) as Hm.
  lia.
Qed.

(** X4.  The mask never leaves the range of [int32_t]: if it holds a
    32-bit value and the argument is one, then so does the mask after
    [enableMsgType] and after [disableMsgType]. *)
Theorem msgType_updates_stay_int32 (s : CameraHardware) (m : Z) :
  in_int32 (mMsgEnabled s) →
  in_int32 m →
  (∀ s', enableMsgType m s = Done tt s' [] → in_int32 (mMsgEnabled s')) ∧
  (∀ s', disableMsgType m s = Done tt s' [] → in_int32 (mMsgEnabled s')).
Proof.
  intros Hs Hm. unfold enableMsgType, disableMsgType. unfold_m.
  apply in_int32_shiftr in Hs, Hm.
  split; intros s' [= <-]; simpl; apply in_int32_shiftr.
  - rewrite Z.shiftr_lor.
    destruct Hs as [-> | ->], Hm as [-> | ->]; auto.
  - rewrite Z.shiftr_land.
    assert (Z.shiftr (Z.lnot m) 31 = 0 ∨ Z.shiftr (Z.lnot m) 31 = -1) as Hn.
    { apply in_int32_shiftr. unfold in_int32 in *.
      apply in_int32_shiftr in Hm. unfold in_int32 in Hm.
      unfold Z.lnot. lia. }
    destruct Hs as [-> | ->], Hn as [-> | ->]; auto.
Qed.

Lemma msgType_updates_stay_int32_witness :
  let s := CameraHardware_members (-2147483648) in
  let s' := set_mMsgEnabled (-2147483648) s in
  in_int32 (mMsgEnabled s) ∧ in_int32 2147483647 ∧
  disableMsgType 2147483647 s = Done tt s' [] ∧
  in_int32 (mMsgEnabled s').
Proof.
  intros s s'.
  assert (in_int32 (mMsgEnabled s)) as H1 by (unfold in_int32; simpl; lia).
  assert (in_int32 2147483647) as H2 by (unfold in_int32; lia).
  split; [exact H1|]. split; [exact H2|]. split; [reflexivity|].
  exact (proj2 (msgType_updates_stay_int32 s 2147483647 H1 H2) s' eq_refl).
Defined.

(** ** What the entry points leave of the object *)

Lemma startPreview_started (s : CameraHardware) (fresh : nat) :
  mPreviewThread s = None →
  startPreview fresh s =
    Done NO_ERROR (started fresh s)
         [EvDev (DevOpen VIDEO_DEVICE MIN_WIDTH MIN_HEIGHT PIXEL_FORMAT);
          EvDev DevInit; EvDev DevStartStreaming; EvSpawnPreview fresh].
Proof.
  intros H. unfold startPreview. unfold_m. rewrite H. reflexivity.
Qed.

(** The object after an entry point that runs in one step. *)
Lemma exec_call_state (c : Call) (s : CameraHardware) r s' tr :
  is_split c = false →
  exec_call c s = Done r s' tr →
  s' = s ∨
  (∃ n d t u, c = SetCallbacks n d t u ∧
     s' = set_mUser u (set_mTimestampFn t (set_mDataFn d (set_mNotifyFn n s)))) ∨
  (∃ m, c = EnableMsgType m ∧
     s' = set_mMsgEnabled (Z.lor (mMsgEnabled s) m) s) ∨
  (∃ m, c = DisableMsgType m ∧
     s' = set_mMsgEnabled (Z.land (mMsgEnabled s) (Z.lnot m)) s) ∨
  (∃ fresh, c = StartPreview fresh ∧ mPreviewThread s = None ∧
     s' = started fresh s) ∨
  (∃ p, c = SetParameters p ∧
     getPreviewFormat p = "yuv422sp" ∧ getPictureFormat p = "jpeg" ∧
     s' = set_mParameters (setPreviewSize MIN_WIDTH MIN_HEIGHT p) s).
Proof.
  intros Hsp He. destruct c; try discriminate Hsp;
    unfold exec_call, lift in He; unfold_m; simpl in He;
    try (injection He as <- <- <-; by left).
  - injection He as <- <- <-. right. left. by do 4 eexists.
  - injection He as <- <- <-. right. right. left. by eexists.
  - injection He as <- <- <-. do 3 right. left. by eexists.
  - destruct (mPreviewThread s) as [t|] eqn:Hh.
    + rewrite (startPreview_running _ _ _ Hh) in He.
      injection He as <- <- <-. by left.
    + rewrite (startPreview_started _ _ Hh) in He.
      injection He as <- <- <-. do 4 right. left. by eexists.
  - destruct created; injection He as <- <- <-; by left.
  - destruct (decide (getPreviewFormat params = "yuv422sp")) as [E1|E1];
      [|rewrite (setParameters_bad_preview _ _ E1) in He;
        injection He as <- <- <-; by left].
    destruct (decide (getPictureFormat params = "jpeg")) as [E2|E2];
      [|rewrite (setParameters_bad_picture _ _ E2) in He;
        injection He as <- <- <-; by left].
    rewrite (setParameters_good _ _ E1 E2) in He.
    injection He as <- <- <-. do 5 right. by eexists.
Qed.

Lemma exec_call_atomic_done (c : Call) (s : CameraHardware) :
  is_split c = false → ∃ r s' tr, exec_call c s = Done r s' tr.
Proof.
  intros Hsp. destruct (changes_handle c) eqn:Hch.
  - destruct c; try done. unfold exec_call, lift, mbind, M_bind, bind.
    destruct (mPreviewThread s) as [t|] eqn:Hh.
    + rewrite (startPreview_running _ _ _ Hh). by do 3 eexists.
    + rewrite (startPreview_started _ _ Hh). by do 3 eexists.
  - destruct (exec_call_keeps_handle c s Hch) as (r & s' & tr & E & _).
    by do 3 eexists.
Qed.

(** What a step does to the object: an entry point ran in one step, or
    nothing, or [previewStopped] was set, or the handle was cleared. *)
Lemma step_hw l σ σ' tr :
  step l σ = Some (σ', tr) →
  (∃ c r tr0, l = LCall c ∧ is_split c = false ∧
              exec_call c (hw σ) = Done r (hw σ') tr0) ∨
  hw σ' = hw σ ∨
  hw σ' = set_previewStopped true (hw σ) ∨
  hw σ' = set_mPreviewThread None (hw σ).
Proof.
  intros Hs. unfold step in Hs. destruct (crashed σ); [done|].
  destruct l as [c| |t|].
  - destruct (is_split c) eqn:Hsp.
    + unfold step_call in Hs. destruct (client σ); [|done].
      rewrite Hsp in Hs. injection Hs as <- <-. right. by left.
    + apply step_call_atomic in Hs as [_ Hs]; [|done].
      destruct Hs as [(r & s' & tr0 & He & -> & ->)|(tr0 & He & -> & ->)].
      * left. exists c, r, tr0. by rewrite spawn_all_hw.
      * right. by left.
  - destruct (client σ) as [|c pt] eqn:Hc;
      [unfold step_client in Hs; by rewrite Hc in Hs|].
    destruct pt as [| | |[t|]|t| |].
    + rewrite (step_client_flag _ _ Hc) in Hs. injection Hs as <- <-.
      right. right. by left.
    + rewrite (step_client_teardown _ _ Hc) in Hs. injection Hs as <- <-.
      right. by left.
    + rewrite (step_client_read _ _ Hc) in Hs. injection Hs as <- <-.
      right. by left.
    + rewrite (step_client_request_some _ _ _ Hc) in Hs.
      injection Hs as <- <-. right. by left.
    + rewrite (step_client_request_none _ _ Hc) in Hs.
      injection Hs as <- <-. right. by left.
    + rewrite (step_client_wait _ _ _ Hc) in Hs.
      destruct (thread_exited σ t); [|done]. injection Hs as <- <-.
      right. by left.
    + rewrite (step_client_clear _ _ Hc) in Hs. injection Hs as <- <-.
      by do 3 right.
    + unfold step_client in Hs. rewrite Hc in Hs.
      destruct (pictureThread (hw σ)) as [a s' tr'|tr'] eqn:Hp.
      * rewrite (on_hw_done _ _ _ _ _ _ Hp) in Hs.
        rewrite (pictureThread_spawns _ _ _ _ _ Hp) in Hs.
        apply pictureThread_reads in Hp as [-> ->].
        rewrite set_hw_same in Hs. injection Hs as <- <-. right. by left.
      * rewrite (on_hw_fault _ _ _ _ Hp) in Hs. injection Hs as <- <-.
        right. by left.
  - apply step_preview_trace in Hs as (_ & -> & _). right. by left.
  - apply step_focus_trace in Hs as [-> _]. right. by left.
Qed.

(** A property of the object that construction gives and that every entry
    point keeps holds in every reachable state. *)
Lemma reachable_hw_invariant (P : CameraHardware → Prop) :
  (∀ junk, P (constructed junk)) →
  (∀ c s r s' tr, is_split c = false → P s →
                  exec_call c s = Done r s' tr → P s') →
  (∀ s, P s → P (set_previewStopped true s)) →
  (∀ s, P s → P (set_mPreviewThread None s)) →
  ∀ σ, reachable σ → P (hw σ).
Proof.
  intros Hctor Hcall Hflag Hclear σ (junk & σ0 & sched & tr & Hb & Hr).
  assert (H0 : P (hw σ0)).
  { unfold boot in Hb. rewrite CameraHardware_ctor_eq in Hb.
    injection Hb as <-. apply Hctor. }
  clear Hb. revert σ0 tr Hr H0.
  induction sched as [|l sched IH]; intros σ0 tr Hr H0; simpl in Hr.
  - by injection Hr as <- <-.
  - destruct (step l σ0) as [[σ1 tr1]|] eqn:Hs; [|done].
    destruct (run sched σ1) as [[σ2 tr2]|] eqn:Hr2; [|done].
    injection Hr as <- <-. eapply IH; [done|].
    apply step_hw in Hs
      as [(c & r & tr0 & -> & Hsp & He)|[->|[->| ->]]]; eauto.
Qed.

Lemma reachable_params_ok (σ : System) :
  reachable σ → params_ok (mParameters (hw σ)).
Proof.
  revert σ.
  apply (reachable_hw_invariant (λ s, params_ok (mParameters s))); try done.
  intros c s r s' tr Hsp HP He.
  apply exec_call_state in He
    as [->|[(n & d & t & u & _ & ->)|[(m & _ & ->)|[(m & _ & ->)|
        [(fresh & _ & _ & ->)|(p & _ & E1 & E2 & ->)]]]]]; try done.
Qed.

(** X5.  Whatever has been called, [getParameters] answers parameters with
    preview format "yuv422sp", picture format "jpeg" and preview size
    640x480. *)
Theorem stored_parameters_always_supported (σ : System) :
  reachable σ →
  ∃ q, getParameters (hw σ) = Done q (hw σ) [] ∧ params_ok q.
Proof.
  intros Hr. exists (mParameters (hw σ)). split; [reflexivity|].
  by apply reachable_params_ok.
Qed.

Lemma stored_parameters_always_supported_witness :
  ∃ σ0 σ tr, boot 0 = Some σ0 ∧ run capture_demo σ0 = Some (σ, tr) ∧
    ∃ q, getParameters (hw σ) = Done q (hw σ) [] ∧ params_ok q.
Proof.
  destruct (boot 0) as [σ0|] eqn:Hb; [|by vm_compute in Hb].
  destruct (run capture_demo σ0) as [[σ tr]|] eqn:Hr.
  - exists σ0, σ, tr. split; [done|]. split; [done|].
    apply (stored_parameters_always_supported σ).
    by exists 0, σ0, capture_demo, tr.
  - vm_compute in Hb. injection Hb as <-. by vm_compute in Hr.
Defined.

(** X6.  Reading back what [getParameters] answers and storing it again
    changes nothing; of two accepted parameter sets stored one after the
    other the second one wins; and a refused set after an accepted one
    leaves the accepted one in place. *)
Theorem setParameters_roundtrip_and_order (σ : System) (p1 p2 : CameraParameters) :
  reachable σ →
  (q ← getParameters; setParameters q) (hw σ) = Done NO_ERROR (hw σ) [] ∧
  (getPreviewFormat p2 = "yuv422sp" → getPictureFormat p2 = "jpeg" →
   (setParameters p1;; setParameters p2) (hw σ) = setParameters p2 (hw σ)) ∧
  (getPreviewFormat p1 = "yuv422sp" → getPictureFormat p1 = "jpeg" →
   (getPreviewFormat p2 ≠ "yuv422sp" ∨ getPictureFormat p2 ≠ "jpeg") →
   ∃ s1, setParameters p1 (hw σ) = Done NO_ERROR s1 [] ∧
         (setParameters p1;; setParameters p2) (hw σ) = Done (-1) s1 []).
Proof.
  intros Hr.
  destruct (reachable_params_ok σ Hr) as (E1 & E2 & E3).
  split; [|split].
  - unfold mbind, M_bind, bind, getParameters. unfold_m. simpl.
    rewrite (setParameters_good _ _ E1 E2). do 2 f_equal.
    unfold getPreviewSize in E3.
    destruct (hw σ) as [[ps ? ? ? ?] ? ? ? ? ? ? ? ? ? ? ? ? ? ? ?].
    simpl in *. by subst ps.
  - intros F1 F2. unfold mbind, M_bind, bind.
    rewrite (setParameters_good _ p2 F1 F2).
    destruct (decide (getPreviewFormat p1 = "yuv422sp")) as [G1|G1];
      [|rewrite (setParameters_bad_preview _ _ G1);
        by rewrite (setParameters_good _ _ F1 F2)].
    destruct (decide (getPictureFormat p1 = "jpeg")) as [G2|G2];
      [|rewrite (setParameters_bad_picture _ _ G2);
        by rewrite (setParameters_good _ _ F1 F2)].
    rewrite (setParameters_good _ _ G1 G2), (setParameters_good _ _ F1 F2).
    reflexivity.
  - intros F1 F2 Hbad. eexists. split; [by apply setParameters_good|].
    unfold mbind, M_bind, bind. rewrite (setParameters_good _ _ F1 F2).
    destruct Hbad as [B|B].
    + by rewrite (setParameters_bad_preview _ _ B).
    + by rewrite (setParameters_bad_picture _ _ B).
Qed.

Lemma setParameters_roundtrip_and_order_witness :
  ∃ σ0 σ tr, boot 0 = Some σ0 ∧ run capture_demo σ0 = Some (σ, tr) ∧
    (q ← getParameters; setParameters q) (hw σ) = Done NO_ERROR (hw σ) [].
Proof.
  destruct (boot 0) as [σ0|] eqn:Hb; [|by vm_compute in Hb].
  destruct (run capture_demo σ0) as [[σ tr]|] eqn:Hr.
  - exists σ0, σ, tr. split; [done|]. split; [done|].
    refine (proj1 (setParameters_roundtrip_and_order σ
                     CameraParameters_empty CameraParameters_empty _)).
    by exists 0, σ0, capture_demo, tr.
  - vm_compute in Hb. injection Hb as <-. by vm_compute in Hr.
Defined.

(** ** The preview heap *)

Lemma reachable_heap_ok (σ : System) : reachable σ → heap_ok (hw σ).
Proof.
  revert σ. apply (reachable_hw_invariant heap_ok).
  - intros junk. split; [done|]. by left.
  - intros c s r s' tr Hsp HP He.
    apply exec_call_state in He
      as [->|[(n & d & t & u & _ & ->)|[(m & _ & ->)|[(m & _ & ->)|
          [(fresh & _ & _ & ->)|(p & _ & E1 & E2 & ->)]]]]]; try done.
    destruct HP as [HR _]. split; [done|]. by right.
  - done.
  - done.
Qed.

(** X7.  In every reachable state there is no raw heap, and the preview
    heap is either not allocated yet or is the one of 640 x 480 x 2 =
    614400 bytes, with [mBuffer] covering all of it from offset 0.  Once
    allocated, the heap and the buffer are kept by every step of the
    system: [stopPreview] and [takePicture] do not release them and a later
    [startPreview] allocates the same geometry. *)
Theorem preview_heap_fixed_and_kept (σ : System) :
  reachable σ →
  getRawHeap (hw σ) = Done None (hw σ) [] ∧
  ((getPreviewHeap (hw σ) = Done None (hw σ) [] ∧ mBuffer (hw σ) = None) ∨
   (getPreviewHeap (hw σ) = Done (Some (mkHeap (640 * 480 * 2))) (hw σ) [] ∧
    mBuffer (hw σ) = Some (mkMem (mkHeap (640 * 480 * 2)) 0 (640 * 480 * 2)))) ∧
  (∀ l σ' tr,
     step l σ = Some (σ', tr) →
     is_Some (mHeap (hw σ)) →
     mHeap (hw σ') = mHeap (hw σ) ∧ mBuffer (hw σ') = mBuffer (hw σ)).
Proof.
  intros Hr. destruct (reachable_heap_ok σ Hr) as [HR HH].
  split; [|split].
  - unfold getRawHeap. unfold_m. by rewrite HR.
  - unfold getPreviewHeap. unfold_m.
    destruct HH as [[-> ->]|[-> ->]]; [by left|by right].
  - intros l σ' tr Hs [h Hh].
    destruct HH as [[HN _]|[HS HB]]; [congruence|].
    apply step_hw in Hs
      as [(c & r & tr0 & -> & Hsp & He)|[->|[->| ->]]]; try done.
    apply exec_call_state in He
      as [->|[(n & d & t & u & _ & ->)|[(m & _ & ->)|[(m & _ & ->)|
          [(fresh & _ & _ & ->)|(p & _ & E1 & E2 & ->)]]]]]; try done.
Qed.

Lemma preview_heap_fixed_and_kept_witness :
  ∃ σ0 σ tr, boot 0 = Some σ0 ∧ run stop_demo σ0 = Some (σ, tr) ∧
    mPreviewThread (hw σ) = None ∧
    getPreviewHeap (hw σ) = Done (Some (mkHeap 614400)) (hw σ) [].
Proof.
  destruct (boot 0) as [σ0|] eqn:Hb; [|by vm_compute in Hb].
  destruct (run stop_demo σ0) as [[σ tr]|] eqn:Hr.
  - exists σ0, σ, tr. split; [done|]. split; [done|].
    assert (Hreach : reachable σ) by (by exists 0, σ0, stop_demo, tr).
    destruct (preview_heap_fixed_and_kept σ Hreach) as (_ & [[HN _]|[HS _]] & _).
    + exfalso. vm_compute in Hb. injection Hb as <-.
      vm_compute in Hr. injection Hr as <- <-. discriminate HN.
    + split; [|exact HS].
      vm_compute in Hb. injection Hb as <-.
      vm_compute in Hr. by injection Hr as <- <-.
  - vm_compute in Hb. injection Hb as <-. by vm_compute in Hr.
Defined.

(** ** Starting and stopping *)

(** X8.  From an object without a handle, [startPreview] followed by
    [stopPreview] makes these calls in this order: open, init, start
    streaming, start the thread, uninit, stop streaming, close, wait for
    the thread.  It ends without a handle and with [previewStopped] set;
    the object differs from one that was stopped beforehand only in the
    frame size, the heap and the buffer.  A [startPreview] after it goes
    through again. *)
Theorem start_then_stop (s : CameraHardware) (fresh fresh' : nat) :
  mPreviewThread s = None →
  (startPreview fresh;; stopPreview) s =
    Done tt
      (set_mBuffer (Some (mkMem (mkHeap 614400) 0 614400))
         (set_mHeap (Some (mkHeap 614400))
            (set_mPreviewFrameSize 614400 (set_previewStopped true s))))
      [EvDev (DevOpen VIDEO_DEVICE 640 480 V4L2_PIX_FMT_YUYV);
       EvDev DevInit; EvDev DevStartStreaming; EvSpawnPreview fresh;
       EvDev DevUninit; EvDev DevStopStreaming; EvDev DevClose;
       EvRequestExitAndWait fresh] ∧
  ∃ s' tr, (startPreview fresh;; stopPreview;; startPreview fresh') s =
             Done NO_ERROR s' tr ∧
           mPreviewThread s' = Some fresh'.
Proof.
  intros Hh. unfold mbind, M_bind, bind.
  rewrite (startPreview_started _ _ Hh), stopPreview_eq.
  split.
  - destruct s. simpl in *. by subst.
  - rewrite startPreview_started by done. by do 2 eexists.
Qed.

Lemma start_then_stop_witness :
  ∃ s' tr, (startPreview 1%nat;; stopPreview;; startPreview 2%nat)
             (CameraHardware_members 0) = Done NO_ERROR s' tr ∧
           mPreviewThread s' = Some 2%nat.
Proof.
  exact (proj2 (start_then_stop (CameraHardware_members 0) 1%nat 2%nat eq_refl)).
Defined.

(** ** The order of the device calls *)

Lemma dev_follow_app d tr1 tr2 :
  dev_follow d (tr1 ++ tr2) =
    match dev_follow d tr1 with
    | Some d1 => dev_follow d1 tr2
    | None => None
    end.
Proof.
  revert d. induction tr1 as [|e tr1 IH]; intros d; [done|].
  destruct e; simpl; try apply IH.
  destruct (dev_next d d0); [apply IH|done].
Qed.

Lemma dev_follow_no_dev d tr :
  forallb (λ e, negb (is_dev e)) tr = true → dev_follow d tr = Some d.
Proof.
  induction tr as [|e tr IH]; [done|]. simpl.
  intros [He Htr]%andb_true_iff. destruct e; try done; by apply IH.
Qed.

Lemma exec_call_no_dev (c : Call) (s : CameraHardware) r s' tr :
  changes_handle c = false →
  exec_call c s = Done r s' tr →
  forallb (λ e, negb (is_dev e)) tr = true.
Proof.
  destruct c; try discriminate; intros _;
    unfold exec_call, lift; unfold_m; simpl;
    try (intros [= <- <- <-]; reflexivity).
  - destruct created; intros [= <- <- <-]; reflexivity.
  - unfold setParameters. unfold_m.
    destruct (negb _); [intros [= <- <- <-]; reflexivity|].
    destruct (negb _); intros [= <- <- <-]; reflexivity.
Qed.

Lemma shutter_no_dev s e d : shutter_events s = Some e → dev_follow d e = Some d.
Proof.
  unfold shutter_events.
  destruct (flag_set _ _); [destruct (mNotifyFn s)|]; by intros [= <-].
Qed.

Lemma jpeg_streaming s e :
  jpeg_events s = Some e → dev_follow DStreaming e = Some DStreaming.
Proof.
  unfold jpeg_events.
  destruct (flag_set _ _); [destruct (mDataFn s)|]; by intros [= <-].
Qed.

Lemma pictureThread_eq_on_hw σ (k : status_t → System → System * list Event) :
  (∀ a σ1, k a σ1 = (set_client CIdle σ1, [EvReturn TakePicture (RStatus NO_ERROR)])) →
  on_hw pictureThread σ k =
    match shutter_events (hw σ) with
    | None => (set_crashed σ, [])
    | Some e1 =>
        match jpeg_events (hw σ) with
        | None => (set_crashed σ, e1 ++ picture_open ++ [EvDev DevGrabJpegFrame])
        | Some e2 =>
            (set_client CIdle σ,
             (e1 ++ picture_open ++ e2 ++ picture_close) ++
             [EvReturn TakePicture (RStatus NO_ERROR)])
        end
    end.
Proof.
  intros Hk. unfold on_hw.
  destruct (pictureThread (hw σ)) as [a s' tr'|tr'] eqn:Hp.
  - rewrite (pictureThread_spawns _ _ _ _ _ Hp), Hk.
    pose proof Hp as Hp'. apply pictureThread_reads in Hp' as [-> ->].
    rewrite set_hw_same. rewrite pictureThread_eq in Hp.
    destruct (shutter_events (hw σ)); [|done].
    destruct (jpeg_events (hw σ)); [|done]. by injection Hp as <-.
  - rewrite pictureThread_eq in Hp.
    destruct (shutter_events (hw σ)); [|by injection Hp as <-].
    destruct (jpeg_events (hw σ)); [done|]. by injection Hp as <-.
Qed.

Lemma dev_follow_app_some d d1 tr1 tr2 :
  dev_follow d tr1 = Some d1 →
  dev_follow d (tr1 ++ tr2) = dev_follow d1 tr2.
Proof. intros H. by rewrite dev_follow_app, H. Qed.

Lemma dev_follow_picture s e1 e2 (tl : list Event) :
  shutter_events s = Some e1 →
  jpeg_events s = Some e2 →
  forallb (λ e, negb (is_dev e)) tl = true →
  dev_follow DClosed ((e1 ++ picture_open ++ e2 ++ picture_close) ++ tl) =
    Some DClosed.
Proof.
  intros E1 E2 Htl.
  assert (dev_follow DClosed picture_open = Some DStreaming) as Ho by done.
  assert (dev_follow DStreaming picture_close = Some DClosed) as Hcl by done.
  rewrite <- !app_assoc.
  rewrite (dev_follow_app_some _ _ _ _ (shutter_no_dev _ _ _ E1)).
  rewrite (dev_follow_app_some _ _ _ _ Ho).
  rewrite (dev_follow_app_some _ _ _ _ (jpeg_streaming _ _ E2)).
  rewrite (dev_follow_app_some _ _ _ _ Hcl). by apply dev_follow_no_dev.
Qed.

Lemma dev_follow_picture_fault s e1 :
  shutter_events s = Some e1 →
  dev_follow DClosed (e1 ++ picture_open ++ [EvDev DevGrabJpegFrame]) =
    Some DStreaming.
Proof.
  intros E1.
  assert (dev_follow DClosed picture_open = Some DStreaming) as Ho by done.
  rewrite (dev_follow_app_some _ _ _ _ (shutter_no_dev _ _ _ E1)).
  by rewrite (dev_follow_app_some _ _ _ _ Ho).
Qed.

Lemma dev_step l σ σ' tr :
  inv σ →
  step l σ = Some (σ', tr) →
  ∃ d', dev_follow (dev_expected σ) tr = Some d' ∧
        (crashed σ' = false → d' = dev_expected σ').
Proof.
  intros Hi Hs. unfold step in Hs. destruct (crashed σ) eqn:Hk; [done|].
  destruct l as [c| |t|].
  - (* a call *)
    destruct (is_split c) eqn:Hsp.
    { unfold step_call in Hs. destruct (client σ) eqn:Hc; [|done].
      rewrite Hsp in Hs. injection Hs as <- <-.
      eexists. split; [reflexivity|]. intros _.
      unfold dev_expected. simpl. by rewrite Hc. }
    apply step_call_atomic in Hs as [Hc Hs]; [|done].
    destruct Hs as [(r & s' & tr0 & He & -> & ->)|(tr0 & He & -> & ->)];
      [|eexists (dev_expected σ); split; [|done];
        destruct (exec_call_atomic_done c (hw σ) Hsp) as (? & ? & ? & E);
        congruence].
    unfold dev_expected. rewrite spawn_all_client, spawn_all_hw, Hc. simpl.
    destruct (changes_handle c) eqn:Hch.
    + destruct c; try done. clear Hsp Hch.
      unfold exec_call, lift, mbind, M_bind, bind in He.
      destruct (mPreviewThread (hw σ)) as [t|] eqn:Hh.
      * rewrite (startPreview_running _ _ _ Hh) in He. simpl in He.
        injection He as <- <- <-. rewrite ?Hc, ?Hh. by eexists.
      * rewrite (startPreview_started _ _ Hh) in He. simpl in He.
        injection He as <- <- <-. rewrite ?Hc. by eexists.
    + destruct (exec_call_keeps_handle c (hw σ) Hch)
        as (r' & s'' & tr' & He' & Hh & _).
      rewrite He in He'. injection He' as <- <- <-. rewrite ?Hc, ?Hh.
      pose proof (exec_call_no_dev _ _ _ _ _ Hch He) as Hnd.
      eexists. split; [|done].
      by rewrite (dev_follow_app_some _ _ _ _ (dev_follow_no_dev _ _ Hnd)).
  - (* the client goes on *)
    destruct (client σ) as [|c pt] eqn:Hc;
      [unfold step_client in Hs; by rewrite Hc in Hs|].
    pose proof (inv_client σ Hi) as Hok. unfold client_ok in Hok.
    rewrite Hc in Hok. destruct Hok as [_ Hok].
    unfold dev_expected at 1. rewrite Hc.
    destruct pt as [| | |[t|]|t| |].
    + rewrite (step_client_flag _ _ Hc) in Hs. injection Hs as <- <-.
      by eexists.
    + rewrite (step_client_teardown _ _ Hc) in Hs. injection Hs as <- <-.
      destruct (mPreviewThread (hw σ)); by eexists.
    + rewrite (step_client_read _ _ Hc) in Hs. injection Hs as <- <-.
      by eexists.
    + rewrite (step_client_request_some _ _ _ Hc) in Hs.
      injection Hs as <- <-. by eexists.
    + rewrite (step_client_request_none _ _ Hc) in Hs.
      injection Hs as <- <-. by eexists.
    + rewrite (step_client_wait _ _ _ Hc) in Hs.
      destruct (thread_exited σ t); [|done]. injection Hs as <- <-.
      by eexists.
    + rewrite (step_client_clear _ _ Hc) in Hs. injection Hs as <- <-.
      eexists DClosed. split; [by destruct c|]. intros _.
      unfold dev_expected. by destruct c.
    + destruct Hok as [-> Hh].
      unfold step_client in Hs. rewrite Hc in Hs.
      rewrite pictureThread_eq_on_hw in Hs by done.
      destruct (shutter_events (hw σ)) as [e1|] eqn:E1;
        [|injection Hs as <- <-; by eexists].
      destruct (jpeg_events (hw σ)) as [e2|] eqn:E2; injection Hs as <- <-.
      * eexists DClosed. split.
        -- exact (dev_follow_picture _ _ _
                    [EvReturn TakePicture (RStatus NO_ERROR)] E1 E2 eq_refl).
        -- intros _. unfold dev_expected. simpl. by rewrite Hh.
      * exists DStreaming. split; [|done].
        exact (dev_follow_picture_fault _ _ E1).
  - (* a preview thread moves *)
    assert (client σ' = client σ ∧ hw σ' = hw σ ∨ crashed σ' = true) as Hsame.
    { unfold step_preview in Hs.
      destruct (threads σ !! t) as [st|]; [|done].
      destruct (pc st); [| | | |done].
      - injection Hs as <- <-. left. by destruct (previewStopped (hw σ)).
      - unfold on_hw in Hs. rewrite grabPreviewFrame_eq in Hs.
        destruct (mHeap (hw σ)); injection Hs as <- <-; [by left|by right].
      - unfold on_hw in Hs. rewrite previewDispatch_eq in Hs.
        destruct (flag_set _ _); [destruct (mDataFn (hw σ))|];
          injection Hs as <- <-; (by left) || by right.
      - injection Hs as <- <-. left. by destruct (exitPending st). }
    exists (dev_expected σ). split.
    + unfold step_preview in Hs.
      destruct (threads σ !! t) as [st|]; [|done].
      destruct (pc st); [| | | |done].
      * by injection Hs as <- <-.
      * unfold on_hw in Hs. rewrite grabPreviewFrame_eq in Hs.
        destruct (mHeap (hw σ)); by injection Hs as <- <-.
      * unfold on_hw in Hs. rewrite previewDispatch_eq in Hs.
        destruct (flag_set _ _); [destruct (mDataFn (hw σ))|];
          by injection Hs as <- <-.
      * by injection Hs as <- <-.
    + intros Hk'. destruct Hsame as [[Hcl Hhw]|?]; [|congruence].
      unfold dev_expected. by rewrite Hcl, Hhw.
  - (* an auto-focus task runs *)
    unfold step_focus in Hs. destruct (focusTasks σ) as [|n]; [done|].
    unfold on_hw in Hs. simpl in Hs. rewrite autoFocusThread_eq in Hs.
    destruct (flag_set _ _); [destruct (mNotifyFn (hw σ))|];
      injection Hs as <- <-; by eexists.
Qed.

Lemma run_crashed sched σ σ' tr :
  crashed σ = true → run sched σ = Some (σ', tr) → σ' = σ ∧ tr = [].
Proof.
  intros Hk. destruct sched as [|l sched]; simpl.
  - by intros [= <- <-].
  - unfold step. by rewrite Hk.
Qed.

Lemma dev_run sched σ σ' tr :
  inv σ →
  crashed σ = false →
  run sched σ = Some (σ', tr) →
  ∃ d', dev_follow (dev_expected σ) tr = Some d' ∧
        (crashed σ' = false → d' = dev_expected σ').
Proof.
  revert σ tr. induction sched as [|l sched IH]; intros σ tr Hi Hk Hr;
    simpl in Hr.
  - injection Hr as <- <-. by eexists.
  - destruct (step l σ) as [[σ1 tr1]|] eqn:Hs; [|done].
    destruct (run sched σ1) as [[σ2 tr2]|] eqn:Hr2; [|done].
    injection Hr as <- <-.
    destruct (dev_step _ _ _ _ Hi Hs) as (d1 & Hd1 & He1).
    rewrite dev_follow_app, Hd1.
    destruct (crashed σ1) eqn:Hk1.
    + destruct (run_crashed _ _ _ _ Hk1 Hr2) as [-> ->].
      exists d1. split; [done|]. congruence.
    + rewrite (He1 eq_refl). apply IH; [by eapply step_inv|done|done].
Qed.

(** X9.  In every run from a freshly constructed session, the device calls
    made by [startPreview], [stopPreview] and [takePicture] keep their
    order: the device is opened only when closed, always on "/dev/video0"
    at 640x480 in YUYV, then initialised, then set streaming; a compressed
    frame is grabbed only while streaming; and it is torn down by uninit,
    stop streaming, close, in that order.  Whenever the client is between
    calls and nothing has faulted, the device is streaming if a preview
    thread handle is held and closed if not.  (The frame grabs of the
    preview thread are left out of this order.) *)
Theorem device_calls_in_order
    (junk : Z) (σ0 σ : System) (sched : list Label) (tr : list Event) :
  boot junk = Some σ0 →
  run sched σ0 = Some (σ, tr) →
  ∃ d, dev_follow DClosed tr = Some d ∧
       (crashed σ = false → client σ = CIdle →
        d = if bool_decide (mPreviewThread (hw σ) = None)
            then DClosed else DStreaming).
Proof.
  intros Hb Hr.
  pose proof (inv_boot _ _ Hb) as Hi.
  assert (crashed σ0 = false ∧ dev_expected σ0 = DClosed) as [Hk He].
  { unfold boot in Hb. rewrite CameraHardware_ctor_eq in Hb.
    by injection Hb as <-. }
  destruct (dev_run _ _ _ _ Hi Hk Hr) as (d & Hd & Hexp).
  rewrite He in Hd. exists d. split; [done|].
  intros Hk' Hc. rewrite (Hexp Hk'). unfold dev_expected. rewrite Hc.
  by destruct (mPreviewThread (hw σ)).
Qed.

Lemma device_calls_in_order_witness :
  ∃ σ0 σ tr, boot 0 = Some σ0 ∧ run stop_demo σ0 = Some (σ, tr) ∧
    length (filter is_dev tr) = 8%nat ∧
    ∃ d, dev_follow DClosed tr = Some d ∧
         (crashed σ = false → client σ = CIdle →
          d = if bool_decide (mPreviewThread (hw σ) = None)
              then DClosed else DStreaming).
Proof.
  destruct (boot 0) as [σ0|] eqn:Hb; [|by vm_compute in Hb].
  destruct (run stop_demo σ0) as [[σ tr]|] eqn:Hr.
  - exists σ0, σ, tr. split; [done|]. split; [done|]. split.
    + vm_compute in Hb. injection Hb as <-.
      vm_compute in Hr. by injection Hr as <- <-.
    + exact (device_calls_in_order 0 σ0 σ stop_demo tr Hb Hr).
  - vm_compute in Hb. injection Hb as <-. by vm_compute in Hr.
Defined.

(** ** Faults *)

Lemma spawn_all_keeps_crashed tr σ : crashed (spawn_all tr σ) = crashed σ.
Proof.
  revert σ. induction tr as [|e tr IH]; intros σ; [done|].
  simpl. rewrite IH. by destruct e.
Qed.

Lemma shutter_events_registered s :
  is_Some (mNotifyFn s) → is_Some (shutter_events s).
Proof.
  intros [nf Hn]. unfold shutter_events. rewrite Hn.
  by destruct (flag_set _ _).
Qed.

Lemma jpeg_events_registered s :
  is_Some (mDataFn s) → is_Some (jpeg_events s).
Proof.
  intros [df Hd]. unfold jpeg_events. rewrite Hd.
  by destruct (flag_set _ _).
Qed.

Lemma step_no_fault l σ σ' tr :
  inv σ →
  callbacks_registered (hw σ) →
  keeps_callbacks l = true →
  step l σ = Some (σ', tr) →
  crashed σ' = false ∧ callbacks_registered (hw σ').
Proof.
  intros Hi Hreg Hl Hs. unfold step in Hs.
  destruct (crashed σ) eqn:Hk; [done|].
  destruct l as [c| |t|].
  - destruct (is_split c) eqn:Hsp.
    { unfold step_call in Hs. destruct (client σ); [|done].
      rewrite Hsp in Hs. by injection Hs as <- <-. }
    apply step_call_atomic in Hs as [_ Hs]; [|done].
    destruct Hs as [(r & s' & tr0 & He & -> & _)|(tr0 & He & _)];
      [|destruct (exec_call_atomic_done c (hw σ) Hsp) as (? & ? & ? & E);
        congruence].
    rewrite spawn_all_keeps_crashed, spawn_all_hw. split; [done|]. simpl.
    apply exec_call_state in He
      as [->|[(n & d & t & u & -> & ->)|[(m & _ & ->)|[(m & _ & ->)|
          [(fresh & _ & _ & ->)|(p & _ & E1 & E2 & ->)]]]]]; try done.
    simpl in Hl. by apply bool_decide_eq_true in Hl.
  - destruct (client σ) as [|c pt] eqn:Hc;
      [unfold step_client in Hs; by rewrite Hc in Hs|].
    destruct pt as [| | |[t|]|t| |].
    + rewrite (step_client_flag _ _ Hc) in Hs. by injection Hs as <- <-.
    + rewrite (step_client_teardown _ _ Hc) in Hs. by injection Hs as <- <-.
    + rewrite (step_client_read _ _ Hc) in Hs. by injection Hs as <- <-.
    + rewrite (step_client_request_some _ _ _ Hc) in Hs.
      by injection Hs as <- <-.
    + rewrite (step_client_request_none _ _ Hc) in Hs.
      by injection Hs as <- <-.
    + rewrite (step_client_wait _ _ _ Hc) in Hs.
      destruct (thread_exited σ t); [|done]. by injection Hs as <- <-.
    + rewrite (step_client_clear _ _ Hc) in Hs. by injection Hs as <- <-.
    + destruct Hreg as [Hn Hd].
      destruct (shutter_events_registered _ Hn) as [e1 E1].
      destruct (jpeg_events_registered _ Hd) as [e2 E2].
      rewrite (step_client_picture _ _ _ _ Hc E1 E2) in Hs.
      by injection Hs as <- <-.
  - unfold step_preview in Hs.
    destruct (threads σ !! t) as [st|] eqn:Ht; [|done].
    destruct (pc st) eqn:Hpc; [| | | |done].
    + injection Hs as <- <-. by destruct (previewStopped (hw σ)).
    + assert (is_Some (mHeap (hw σ))) as [h Hh].
      { apply (inv_heap σ Hi t), (inv_live σ Hi t st Ht). by rewrite Hpc. }
      unfold on_hw in Hs. rewrite grabPreviewFrame_eq, Hh in Hs.
      by injection Hs as <- <-.
    + destruct Hreg as [Hn [df Hd]].
      unfold on_hw in Hs. rewrite previewDispatch_eq, Hd in Hs.
      destruct (flag_set _ _); injection Hs as <- <-;
        (split; [done|]); split; [done|by exists df|done|by exists df].
    + injection Hs as <- <-. by destruct (exitPending st).
  - unfold step_focus in Hs. destruct (focusTasks σ) as [|n]; [done|].
    destruct Hreg as [[nf Hn] Hd].
    unfold on_hw in Hs. simpl in Hs. rewrite autoFocusThread_eq, Hn in Hs.
    destruct (flag_set _ _); injection Hs as <- <-;
      (split; [done|]); split; [by exists nf|done|by exists nf|done].
Qed.

(** X10.  A session whose notify and data callbacks are registered never
    faults: from any reachable state that has not faulted, whatever the
    client calls and however the preview thread and the auto-focus tasks
    are scheduled, no step calls through a null pointer or reads a heap
    that is not there, as long as no later [setCallbacks] passes a null
    notify or data callback; and both callbacks stay registered. *)
Theorem registered_session_never_faults
    (σ σ' : System) (sched : list Label) (tr : list Event) :
  reachable σ →
  crashed σ = false →
  callbacks_registered (hw σ) →
  forallb keeps_callbacks sched = true →
  run sched σ = Some (σ', tr) →
  crashed σ' = false ∧ callbacks_registered (hw σ').
Proof.
  intros Hre. apply reachable_inv in Hre. revert σ tr Hre.
  induction sched as [|l sched IH]; intros σ tr Hi Hk Hreg Hall Hr;
    simpl in Hr.
  - by injection Hr as <- <-.
  - apply andb_true_iff in Hall as [Hl Hall].
    destruct (step l σ) as [[σ1 tr1]|] eqn:Hs; [|done].
    destruct (run sched σ1) as [[σ2 tr2]|] eqn:Hr2; [|done].
    injection Hr as <- <-.
    destruct (step_no_fault _ _ _ _ Hi Hreg Hl Hs) as [Hk1 Hreg1].
    apply (IH σ1 tr2); [by eapply step_inv|done|done|done|done].
Qed.

Lemma registered_session_never_faults_witness :
  ∃ σ0 σ tr0 σ' tr,
    boot 0 = Some σ0 ∧ run capture_demo σ0 = Some (σ, tr0) ∧
    run registered_demo σ = Some (σ', tr) ∧
    length (filter is_callback tr) = 3%nat ∧
    crashed σ' = false ∧ callbacks_registered (hw σ').
Proof.
  destruct (boot 0) as [σ0|] eqn:Hb; [|by vm_compute in Hb].
  destruct (run capture_demo σ0) as [[σ tr0]|] eqn:Hr;
    [|vm_compute in Hb; injection Hb as <-; by vm_compute in Hr].
  destruct (run registered_demo σ) as [[σ' tr]|] eqn:Hr';
    [|vm_compute in Hb; injection Hb as <-;
      vm_compute in Hr; injection Hr as <- <-; by vm_compute in Hr'].
  exists σ0, σ, tr0, σ', tr. split; [done|]. split; [done|]. split; [done|].
  assert (reachable σ) as Hre by (by exists 0, σ0, capture_demo, tr0).
  vm_compute in Hb. injection Hb as <-.
  vm_compute in Hr. injection Hr as <- <-.
  split.
  - vm_compute in Hr'. by injection Hr' as <- <-.
  - apply (registered_session_never_faults _ σ' registered_demo tr Hre);
      [done| |done|done].
    split; by eexists.
Defined.

(** ** Frames still under way when [previewStopped] is set *)

Lemma handled_pc_same σ σ' :
  mPreviewThread (hw σ') = mPreviewThread (hw σ) →
  threads σ' = threads σ →
  handled_pc σ' = handled_pc σ.
Proof. intros Hh Ht. unfold handled_pc. by rewrite Hh, Ht. Qed.

Lemma handled_pc_lookup σ t st :
  mPreviewThread (hw σ) = Some t →
  threads σ !! t = Some st →
  handled_pc σ = Some (pc st).
Proof. intros Hh Ht. unfold handled_pc. by rewrite Hh, Ht. Qed.

Lemma handled_pc_set_pc σ t st p :
  mPreviewThread (hw σ) = Some t →
  threads σ !! t = Some st →
  handled_pc (set_pc t p σ) = Some p.
Proof.
  intros Hh Ht. unfold handled_pc.
  change (hw (set_pc t p σ)) with (hw σ).
  by rewrite Hh, (lookup_set_pc _ _ _ _ Ht).
Qed.

Lemma handled_pc_request_exit σ t :
  handled_pc (request_exit t σ) = handled_pc σ.
Proof.
  unfold handled_pc, request_exit. simpl.
  destruct (mPreviewThread (hw σ)) as [t'|]; [|done].
  destruct (decide (t' = t)) as [->|Hne].
  - rewrite lookup_alter_eq. by destruct (threads σ !! t).
  - by rewrite lookup_alter_ne.
Qed.

Lemma quiet_counts (tr : list Event) :
  forallb quiet_event tr = true →
  length (filter is_preview_grab tr) = 0%nat ∧
  length (filter is_preview_dispatch tr) = 0%nat.
Proof.
  induction tr as [|e tr IH]; [done|]. simpl.
  intros [He Htr]%andb_true_iff. apply IH in Htr as [H1 H2].
  apply andb_true_iff in He as [Hg Hd].
  apply negb_true_iff in Hg. apply negb_true_iff in Hd.
  rewrite !filter_cons, Hg, Hd. by destruct (decide _) as [[]|].
Qed.

Lemma within_due_quiet σ σ' tr :
  handled_pc σ' = handled_pc σ →
  forallb quiet_event tr = true →
  within_due σ σ' tr.
Proof.
  intros Hp [H1 H2]%quiet_counts. unfold within_due, grabs_due, frames_due.
  rewrite H1, H2, Hp. done.
Qed.

Lemma within_due_final σ σ' tr :
  handled_pc σ' = None →
  forallb quiet_event tr = true →
  within_due σ σ' tr.
Proof.
  intros Hp [H1 H2]%quiet_counts. unfold within_due, grabs_due, frames_due.
  rewrite H1, H2, Hp. simpl. lia.
Qed.

Lemma within_due_trans σ σ1 σ2 tr1 tr2 :
  within_due σ σ1 tr1 → within_due σ1 σ2 tr2 → within_due σ σ2 (tr1 ++ tr2).
Proof.
  unfold within_due. rewrite !filter_app, !length_app. lia.
Qed.

Lemma exec_call_quiet (c : Call) (s : CameraHardware) r s' tr :
  changes_handle c = false →
  exec_call c s = Done r s' tr →
  forallb quiet_event tr = true.
Proof.
  destruct c; try discriminate; intros _;
    unfold exec_call, lift; unfold_m; simpl;
    try (intros [= <- <- <-]; reflexivity).
  - destruct created; intros [= <- <- <-]; reflexivity.
  - unfold setParameters. unfold_m.
    destruct (negb _); [intros [= <- <- <-]; reflexivity|].
    destruct (negb _); intros [= <- <- <-]; reflexivity.
Qed.

Lemma shutter_quiet s e : shutter_events s = Some e → forallb quiet_event e = true.
Proof.
  unfold shutter_events.
  destruct (flag_set _ _); [destruct (mNotifyFn s)|]; by intros [= <-].
Qed.

Lemma jpeg_quiet s e : jpeg_events s = Some e → forallb quiet_event e = true.
Proof.
  unfold jpeg_events.
  destruct (flag_set _ _); [destruct (mDataFn s)|]; by intros [= <-].
Qed.

Lemma step_stale l σ σ' tr :
  inv σ →
  previewStopped (hw σ) = true →
  is_startPreview_label l = false →
  step l σ = Some (σ', tr) →
  previewStopped (hw σ') = true ∧ within_due σ σ' tr.
Proof.
  intros Hi Hst Hl Hs. unfold step in Hs.
  destruct (crashed σ) eqn:Hk; [done|].
  destruct l as [c| |t|].
  - destruct (is_split c) eqn:Hsp.
    { unfold step_call in Hs. destruct (client σ); [|done].
      rewrite Hsp in Hs. injection Hs as <- <-.
      split; [done|]. by apply within_due_quiet. }
    apply step_call_atomic in Hs as [_ Hs]; [|done].
    destruct Hs as [(r & s' & tr0 & He & -> & ->)|(tr0 & He & _)];
      [|destruct (exec_call_atomic_done c (hw σ) Hsp) as (? & ? & ? & E);
        congruence].
    assert (changes_handle c = false) as Hch by (by destruct c).
    destruct (exec_call_keeps_handle c (hw σ) Hch)
      as (r' & s'' & tr' & He' & Hh & Hps & _).
    rewrite He in He'. injection He' as <- <- <-.
    rewrite spawn_all_hw. split; [simpl; congruence|].
    apply within_due_quiet.
    + apply handled_pc_same; [by rewrite spawn_all_hw|].
      rewrite spawn_all_threads; [done|].
      by eapply exec_call_no_preview_spawn.
    + simpl. rewrite forallb_app.
      by rewrite (exec_call_quiet _ _ _ _ _ Hch He).
  - destruct (client σ) as [|c pt] eqn:Hc;
      [unfold step_client in Hs; by rewrite Hc in Hs|].
    pose proof (inv_client σ Hi) as Hok. unfold client_ok in Hok.
    rewrite Hc in Hok. destruct Hok as [_ Hok].
    destruct pt as [| | |[t|]|t| |].
    + rewrite (step_client_flag _ _ Hc) in Hs. injection Hs as <- <-.
      split; [done|]. by apply within_due_quiet.
    + rewrite (step_client_teardown _ _ Hc) in Hs. injection Hs as <- <-.
      split; [done|]. apply within_due_quiet; [done|].
      by destruct (mPreviewThread (hw σ)).
    + rewrite (step_client_read _ _ Hc) in Hs. injection Hs as <- <-.
      split; [done|]. by apply within_due_quiet.
    + rewrite (step_client_request_some _ _ _ Hc) in Hs.
      injection Hs as <- <-. split; [done|].
      apply within_due_quiet; [|done].
      exact (handled_pc_request_exit σ t).
    + rewrite (step_client_request_none _ _ Hc) in Hs.
      injection Hs as <- <-. split; [done|]. by apply within_due_quiet.
    + rewrite (step_client_wait _ _ _ Hc) in Hs.
      destruct (thread_exited σ t); [|done]. injection Hs as <- <-.
      split; [done|]. by apply within_due_quiet.
    + rewrite (step_client_clear _ _ Hc) in Hs. injection Hs as <- <-.
      split; [done|]. apply within_due_final; [done|by destruct c].
    + destruct Hok as [-> Hh].
      unfold step_client in Hs. rewrite Hc in Hs.
      rewrite pictureThread_eq_on_hw in Hs by done.
      destruct (shutter_events (hw σ)) as [e1|] eqn:E1;
        [|injection Hs as <- <-; split; [done|]; by apply within_due_quiet].
      pose proof (shutter_quiet _ _ E1) as Q1.
      destruct (jpeg_events (hw σ)) as [e2|] eqn:E2; injection Hs as <- <-;
        (split; [done|]); (apply within_due_quiet; [done|]).
      * pose proof (jpeg_quiet _ _ E2) as Q2.
        change (forallb quiet_event
                  ((e1 ++ picture_open ++ e2 ++ picture_close) ++
                   [EvReturn TakePicture (RStatus NO_ERROR)]) = true).
        rewrite !forallb_app, Q1, Q2. reflexivity.
      * change (forallb quiet_event
                  (e1 ++ picture_open ++ [EvDev DevGrabJpegFrame]) = true).
        rewrite !forallb_app, Q1. reflexivity.
  - unfold step_preview in Hs.
    destruct (threads σ !! t) as [st|] eqn:Ht; [|done].
    assert (pc st ≠ Exited → mPreviewThread (hw σ) = Some t) as Hlive
      by apply (inv_live σ Hi t st Ht).
    pose proof (handled_pc_lookup σ t st) as Hpc0.
    unfold within_due, grabs_due, frames_due.
    destruct (pc st) eqn:Hpc; [| | | |done];
      (rewrite Hpc0 by (by auto)); clear Hpc0; specialize (Hlive ltac:(done)).
    + rewrite Hst in Hs. injection Hs as <- <-.
      rewrite (handled_pc_set_pc _ _ _ _ Hlive Ht). split; [done|]. simpl. lia.
    + unfold on_hw in Hs. rewrite grabPreviewFrame_eq in Hs.
      destruct (mHeap (hw σ)) as [h|]; injection Hs as <- <-.
      * rewrite set_hw_same. simpl spawn_all.
        rewrite (handled_pc_set_pc _ _ _ _ Hlive Ht). split; [done|].
        simpl. lia.
      * rewrite (handled_pc_same σ (set_crashed σ) eq_refl eq_refl).
        rewrite (handled_pc_lookup _ _ _ Hlive Ht), Hpc. simpl.
        split; [done|]. lia.
    + unfold on_hw in Hs. rewrite previewDispatch_eq in Hs.
      destruct (flag_set _ _); [destruct (mDataFn (hw σ))|];
        injection Hs as <- <-; rewrite ?set_hw_same; simpl spawn_all;
        rewrite ?(handled_pc_same σ (set_crashed σ) eq_refl eq_refl),
                ?(handled_pc_set_pc _ _ _ _ Hlive Ht),
                ?(handled_pc_lookup _ _ _ Hlive Ht), ?Hpc;
        (split; [done|]); simpl; lia.
    + injection Hs as <- <-. split; [by destruct (exitPending st)|].
      assert (handled_pc (if exitPending st then set_pc t Exited σ
                          else set_pc t AtLoop σ) =
              Some (if exitPending st then Exited else AtLoop)) as ->.
      { destruct (exitPending st); by apply (handled_pc_set_pc _ _ st). }
      destruct (exitPending st); simpl; lia.
  - unfold step_focus in Hs. destruct (focusTasks σ) as [|n]; [done|].
    unfold on_hw in Hs. simpl in Hs. rewrite autoFocusThread_eq in Hs.
    destruct (flag_set _ _); [destruct (mNotifyFn (hw σ))|];
      injection Hs as <- <-; (split; [done|]); by apply within_due_quiet.
Qed.

Lemma run_stale sched σ σ' tr :
  inv σ →
  previewStopped (hw σ) = true →
  forallb (λ l, negb (is_startPreview_label l)) sched = true →
  run sched σ = Some (σ', tr) →
  previewStopped (hw σ') = true ∧ within_due σ σ' tr.
Proof.
  revert σ tr. induction sched as [|l sched IH]; intros σ tr Hi Hst Hall Hr;
    simpl in Hr.
  - injection Hr as <- <-. split; [done|]. by apply within_due_quiet.
  - apply andb_true_iff in Hall as [Hl%negb_true_iff Hall].
    destruct (step l σ) as [[σ1 tr1]|] eqn:Hs; [|done].
    destruct (run sched σ1) as [[σ2 tr2]|] eqn:Hr2; [|done].
    injection Hr as <- <-.
    destruct (step_stale _ _ _ _ Hi Hst Hl Hs) as [Hst1 Hd1].
    destruct (IH σ1 tr2 (step_inv _ _ _ _ Hi Hs) Hst1 Hall Hr2) as [Hst2 Hd2].
    split; [done|]. by eapply within_due_trans.
Qed.

(** X11.  Once [previewStopped] is set, and until the next [startPreview],
    the preview thread finishes at most the pass it is in: over any run,
    whatever else the client calls and however the threads are scheduled,
    at most one more frame is grabbed and at most one more preview frame
    dispatched, and none at all if the thread was not past the test of
    [previewStopped] (a grab only if it had not grabbed yet).  The flag
    stays set. *)
Theorem stale_frames_bounded
    (σ σ' : System) (sched : list Label) (tr : list Event) :
  reachable σ →
  previewStopped (hw σ) = true →
  forallb (λ l, negb (is_startPreview_label l)) sched = true →
  run sched σ = Some (σ', tr) →
  previewStopped (hw σ') = true ∧
  (length (filter is_preview_grab tr) ≤ grabs_due σ)%nat ∧
  (length (filter is_preview_dispatch tr) ≤ frames_due σ)%nat ∧
  (grabs_due σ ≤ frames_due σ ≤ 1)%nat.
Proof.
  intros Hre Hst Hall Hr. apply reachable_inv in Hre.
  destruct (run_stale _ _ _ _ Hre Hst Hall Hr) as [Hst' [Hg Hf]].
  split; [done|]. split; [lia|]. split; [lia|].
  unfold grabs_due, frames_due.
  destruct (handled_pc σ) as [[]|]; simpl; lia.
Qed.

Lemma stale_frames_bounded_witness :
  ∃ σ0 σ tr0 σ' tr,
    boot 0 = Some σ0 ∧ run stale_demo σ0 = Some (σ, tr0) ∧
    run stale_rest σ = Some (σ', tr) ∧
    length (filter is_preview_dispatch tr) = 1%nat ∧
    previewStopped (hw σ') = true ∧
    (length (filter is_preview_grab tr) ≤ grabs_due σ)%nat ∧
    (length (filter is_preview_dispatch tr) ≤ frames_due σ)%nat ∧
    (grabs_due σ ≤ frames_due σ ≤ 1)%nat.
Proof.
  destruct (boot 0) as [σ0|] eqn:Hb; [|by vm_compute in Hb].
  destruct (run stale_demo σ0) as [[σ tr0]|] eqn:Hr;
    [|vm_compute in Hb; injection Hb as <-; by vm_compute in Hr].
  destruct (run stale_rest σ) as [[σ' tr]|] eqn:Hr';
    [|vm_compute in Hb; injection Hb as <-;
      vm_compute in Hr; injection Hr as <- <-; by vm_compute in Hr'].
  exists σ0, σ, tr0, σ', tr. split; [done|]. split; [done|]. split; [done|].
  assert (reachable σ) as Hre by (by exists 0, σ0, stale_demo, tr0).
  vm_compute in Hb. injection Hb as <-.
  vm_compute in Hr. injection Hr as <- <-.
  split.
  - vm_compute in Hr'. by injection Hr' as <- <-.
  - by apply (stale_frames_bounded _ σ' stale_rest tr Hre).
Defined.

(** ** Entry points that only observe *)

Lemma filter_all {A} (P : A → bool) (l : list A) :
  forallb P l = true → filter P l = l.
Proof.
  induction l as [|x l IH]; [done|]. simpl.
  intros [Hx Hl]%andb_true_iff. rewrite filter_cons, (IH Hl), Hx.
  by destruct (decide _) as [|[]].
Qed.

Lemma observer_step c σ σ' tr :
  is_observer c = true →
  step (LCall c) σ = Some (σ', tr) →
  σ' = σ ∧ ∃ r, tr = [EvCall c; EvReturn c r].
Proof.
  intros Ho Hs. unfold step in Hs. destruct (crashed σ); [done|].
  assert (is_split c = false) as Hsp by (by destruct c).
  apply step_call_atomic in Hs as [_ Hs]; [|done].
  destruct Hs as [(r & s' & tr0 & He & -> & ->)|(tr0 & He & _)];
    [|destruct (exec_call_atomic_done c (hw σ) Hsp) as (? & ? & ? & E);
      congruence].
  assert (s' = hw σ ∧ tr0 = []) as [-> ->].
  { destruct c as [| | | | | | | | | | |[|]| | | | | | | | | |];
      try discriminate Ho;
      unfold exec_call, lift in He; unfold_m; simpl in He;
      by injection He as <- <- <-. }
  rewrite set_hw_same. split; [done|]. by exists r.
Qed.

Lemma exec_call_inner (c : Call) (s : CameraHardware) r s' tr :
  is_split c = false →
  exec_call c s = Done r s' tr →
  forallb (λ e, negb (observer_event e)) tr = true.
Proof.
  intros Hsp He. destruct (changes_handle c) eqn:Hch.
  - destruct c; try done. unfold exec_call, lift, mbind, M_bind, bind in He.
    destruct (mPreviewThread s) as [t|] eqn:Hh.
    + rewrite (startPreview_running _ _ _ Hh) in He. simpl in He.
      by injection He as <- <- <-.
    + rewrite (startPreview_started _ _ Hh) in He. simpl in He.
      by injection He as <- <- <-.
  - revert He. clear Hsp.
    destruct c; try discriminate Hch;
      unfold exec_call, lift; unfold_m; simpl;
      try (intros [= <- <- <-]; reflexivity).
    + destruct created; intros [= <- <- <-]; reflexivity.
    + unfold setParameters. unfold_m.
      destruct (negb _); [intros [= <- <- <-]; reflexivity|].
      destruct (negb _); intros [= <- <- <-]; reflexivity.
Qed.

Lemma shutter_unobserved s e :
  shutter_events s = Some e → forallb (λ e, negb (observer_event e)) e = true.
Proof.
  unfold shutter_events.
  destruct (flag_set _ _); [destruct (mNotifyFn s)|]; by intros [= <-].
Qed.

Lemma jpeg_unobserved s e :
  jpeg_events s = Some e → forallb (λ e, negb (observer_event e)) e = true.
Proof.
  unfold jpeg_events.
  destruct (flag_set _ _); [destruct (mDataFn s)|]; by intros [= <-].
Qed.

Lemma other_step_trace l σ σ' tr :
  inv σ →
  observer_label l = false →
  step l σ = Some (σ', tr) →
  forallb (λ e, negb (observer_event e)) tr = true.
Proof.
  intros Hi Hl Hs. unfold step in Hs. destruct (crashed σ); [done|].
  destruct l as [c| |t|].
  - simpl in Hl. destruct (is_split c) eqn:Hsp.
    { unfold step_call in Hs. destruct (client σ); [|done].
      rewrite Hsp in Hs. injection Hs as <- <-. simpl. by rewrite Hl. }
    apply step_call_atomic in Hs as [_ Hs]; [|done].
    destruct Hs as [(r & s' & tr0 & He & -> & ->)|(tr0 & He & _)];
      [|destruct (exec_call_atomic_done c (hw σ) Hsp) as (? & ? & ? & E);
        congruence].
    simpl. rewrite forallb_app, (exec_call_inner _ _ _ _ _ Hsp He). simpl.
    by rewrite Hl.
  - destruct (client σ) as [|c pt] eqn:Hc;
      [unfold step_client in Hs; by rewrite Hc in Hs|].
    pose proof (inv_client σ Hi) as Hok. unfold client_ok in Hok.
    rewrite Hc in Hok. destruct Hok as [Hsp Hok].
    assert (is_observer c = false) as Hno by (by destruct c).
    destruct pt as [| | |[t|]|t| |].
    + rewrite (step_client_flag _ _ Hc) in Hs. by injection Hs as <- <-.
    + rewrite (step_client_teardown _ _ Hc) in Hs. injection Hs as <- <-.
      by destruct (mPreviewThread (hw σ)).
    + rewrite (step_client_read _ _ Hc) in Hs. by injection Hs as <- <-.
    + rewrite (step_client_request_some _ _ _ Hc) in Hs.
      by injection Hs as <- <-.
    + rewrite (step_client_request_none _ _ Hc) in Hs.
      by injection Hs as <- <-.
    + rewrite (step_client_wait _ _ _ Hc) in Hs.
      destruct (thread_exited σ t); [|done]. by injection Hs as <- <-.
    + rewrite (step_client_clear _ _ Hc) in Hs. injection Hs as <- <-.
      destruct c; try done.
    + destruct Hok as [-> Hh].
      unfold step_client in Hs. rewrite Hc in Hs.
      rewrite pictureThread_eq_on_hw in Hs by done.
      destruct (shutter_events (hw σ)) as [e1|] eqn:E1;
        [|by injection Hs as <- <-].
      pose proof (shutter_unobserved _ _ E1) as Q1.
      destruct (jpeg_events (hw σ)) as [e2|] eqn:E2; injection Hs as <- <-.
      * pose proof (jpeg_unobserved _ _ E2) as Q2.
        change (forallb (λ e, negb (observer_event e))
                  ((e1 ++ picture_open ++ e2 ++ picture_close) ++
                   [EvReturn TakePicture (RStatus NO_ERROR)]) = true).
        rewrite !forallb_app, Q1, Q2. reflexivity.
      * change (forallb (λ e, negb (observer_event e))
                  (e1 ++ picture_open ++ [EvDev DevGrabJpegFrame]) = true).
        rewrite !forallb_app, Q1. reflexivity.
  - unfold step_preview in Hs.
    destruct (threads σ !! t) as [st|]; [|done].
    destruct (pc st); [| | | |done].
    + by injection Hs as <- <-.
    + unfold on_hw in Hs. rewrite grabPreviewFrame_eq in Hs.
      destruct (mHeap (hw σ)); by injection Hs as <- <-.
    + unfold on_hw in Hs. rewrite previewDispatch_eq in Hs.
      destruct (flag_set _ _); [destruct (mDataFn (hw σ))|];
        by injection Hs as <- <-.
    + by injection Hs as <- <-.
  - unfold step_focus in Hs. destruct (focusTasks σ) as [|n]; [done|].
    unfold on_hw in Hs. simpl in Hs. rewrite autoFocusThread_eq in Hs.
    destruct (flag_set _ _); [destruct (mNotifyFn (hw σ))|];
      by injection Hs as <- <-.
Qed.

Lemma run_without_observers sched σ σ' tr :
  inv σ →
  run sched σ = Some (σ', tr) →
  run (without_observers sched) σ = Some (σ', without_observations tr).
Proof.
  unfold without_observers, without_observations.
  revert σ tr. induction sched as [|l sched IH]; intros σ tr Hi Hr;
    simpl in Hr.
  - by injection Hr as <- <-.
  - destruct (step l σ) as [[σ1 tr1]|] eqn:Hs; [|done].
    destruct (run sched σ1) as [[σ2 tr2]|] eqn:Hr2; [|done].
    injection Hr as <- <-.
    pose proof (IH σ1 tr2 (step_inv _ _ _ _ Hi Hs) Hr2) as IH1.
    rewrite filter_cons, filter_app.
    destruct (observer_label l) eqn:Hl; simpl.
    + destruct l as [c| | |]; try done.
      apply observer_step in Hs as [-> [r ->]]; [|done].
      rewrite !filter_cons. simpl in Hl. simpl. rewrite Hl. simpl.
      exact IH1.
    + rewrite Hs, IH1.
      by rewrite (filter_all _ _ (other_step_trace _ _ _ _ Hi Hl Hs)).
Qed.

(** X12.  The entry points that only observe ([msgTypeEnabled],
    [previewEnabled], [getParameters], [getPreviewHeap], [getRawHeap]),
    those with an empty or constant body ([startRecording],
    [stopRecording], [recordingEnabled], [releaseRecordingFrame],
    [cancelAutoFocus], [cancelPicture], [dump], [sendCommand]) and an
    [autoFocus] whose thread could not be created leave no trace: taking
    these calls out of any run gives a run that ends in the same state of
    the object, of the threads and of the client, and logs the same events
    but for the calls taken out and their returns.  In particular
    [cancelAutoFocus] and [cancelPicture] cancel nothing, and
    [startRecording] starts nothing. *)
Theorem observers_leave_no_trace
    (σ σ' : System) (sched : list Label) (tr : list Event) :
  reachable σ →
  run sched σ = Some (σ', tr) →
  run (without_observers sched) σ = Some (σ', without_observations tr).
Proof.
  intros Hre. apply run_without_observers. by apply reachable_inv.
Qed.

Lemma observers_leave_no_trace_witness :
  ∃ σ0 σ' tr,
    boot 0 = Some σ0 ∧ run observed_demo σ0 = Some (σ', tr) ∧
    without_observers observed_demo = stop_demo ∧
    (length tr = length (without_observations tr) + 18)%nat ∧
    run (without_observers observed_demo) σ0 =
      Some (σ', without_observations tr).
Proof.
  destruct (boot 0) as [σ0|] eqn:Hb; [|by vm_compute in Hb].
  destruct (run observed_demo σ0) as [[σ' tr]|] eqn:Hr;
    [|vm_compute in Hb; injection Hb as <-; by vm_compute in Hr].
  exists σ0, σ', tr. split; [done|]. split; [done|].
  split; [by vm_compute|]. split.
  - vm_compute in Hb. injection Hb as <-.
    vm_compute in Hr. by injection Hr as <- <-.
  - apply (observers_leave_no_trace σ0 σ' observed_demo tr); [|done].
    by exists 0, σ0, [], [].
Defined.

(** ** Where the callbacks go *)

Lemma reachable_step l σ σ' tr :
  reachable σ → step l σ = Some (σ', tr) → reachable σ'.
Proof.
  intros (junk & σ0 & sched & tr0 & Hb & Hr) Hs.
  exists junk, σ0, (sched ++ [l]), (tr0 ++ tr). split; [done|].
  rewrite run_app, Hr. simpl. rewrite Hs. by rewrite app_nil_r.
Qed.

Lemma callback_ok_same s s' e :
  same_registration s s' → callback_ok s' e = callback_ok s e.
Proof.
  intros (Hn & Hd & _ & Hu). destruct e; try done; simpl;
    by rewrite ?Hn, ?Hd, ?Hu.
Qed.

Lemma exec_call_no_callback (c : Call) (s s0 : CameraHardware) r s' tr :
  is_split c = false →
  exec_call c s = Done r s' tr →
  forallb (callback_ok s0) tr = true.
Proof.
  intros Hsp He. destruct (changes_handle c) eqn:Hch.
  - destruct c; try done. unfold exec_call, lift, mbind, M_bind, bind in He.
    destruct (mPreviewThread s) as [t|] eqn:Hh.
    + rewrite (startPreview_running _ _ _ Hh) in He. simpl in He.
      by injection He as <- <- <-.
    + rewrite (startPreview_started _ _ Hh) in He. simpl in He.
      by injection He as <- <- <-.
  - revert He. clear Hsp.
    destruct c; try discriminate Hch;
      unfold exec_call, lift; unfold_m; simpl;
      try (intros [= <- <- <-]; reflexivity).
    + destruct created; intros [= <- <- <-]; reflexivity.
    + unfold setParameters. unfold_m.
      destruct (negb _); [intros [= <- <- <-]; reflexivity|].
      destruct (negb _); intros [= <- <- <-]; reflexivity.
Qed.

Lemma shutter_callback_ok s e :
  shutter_events s = Some e → forallb (callback_ok s) e = true.
Proof.
  unfold shutter_events.
  destruct (flag_set _ _); [|by intros [= <-]].
  destruct (mNotifyFn s) as [nf|] eqn:Hn; [|done]. intros [= <-].
  simpl. rewrite Hn. by rewrite !bool_decide_eq_true_2 by done.
Qed.

Lemma jpeg_callback_ok s e :
  jpeg_events s = Some e → forallb (callback_ok s) e = true.
Proof.
  unfold jpeg_events.
  destruct (flag_set _ _); [|by intros [= <-]].
  destruct (mDataFn s) as [df|] eqn:Hd; [|done]. intros [= <-].
  simpl. rewrite Hd. by rewrite !bool_decide_eq_true_2 by done.
Qed.

Lemma step_registration l σ σ' tr :
  is_setCallbacks l = false →
  step l σ = Some (σ', tr) →
  same_registration (hw σ) (hw σ').
Proof.
  intros Hl Hs.
  apply step_hw in Hs
    as [(c & r & tr0 & -> & Hsp & He)|[->|[->| ->]]]; try done.
  apply exec_call_state in He
    as [->|[(n & d & t & u & -> & _)|[(m & _ & ->)|[(m & _ & ->)|
        [(fresh & _ & _ & ->)|(p & _ & E1 & E2 & ->)]]]]]; done.
Qed.

Lemma step_callbacks l σ σ' tr :
  inv σ →
  heap_ok (hw σ) →
  step l σ = Some (σ', tr) →
  forallb (callback_ok (hw σ)) tr = true.
Proof.
  intros Hi Hheap Hs. unfold step in Hs. destruct (crashed σ); [done|].
  destruct l as [c| |t|].
  - destruct (is_split c) eqn:Hsp.
    { unfold step_call in Hs. destruct (client σ); [|done].
      rewrite Hsp in Hs. by injection Hs as <- <-. }
    apply step_call_atomic in Hs as [_ Hs]; [|done].
    destruct Hs as [(r & s' & tr0 & He & -> & ->)|(tr0 & He & _)];
      [|destruct (exec_call_atomic_done c (hw σ) Hsp) as (? & ? & ? & E);
        congruence].
    simpl. rewrite forallb_app.
    by rewrite (exec_call_no_callback _ _ (hw σ) _ _ _ Hsp He).
  - destruct (client σ) as [|c pt] eqn:Hc;
      [unfold step_client in Hs; by rewrite Hc in Hs|].
    pose proof (inv_client σ Hi) as Hok. unfold client_ok in Hok.
    rewrite Hc in Hok. destruct Hok as [Hsp Hok].
    destruct pt as [| | |[t|]|t| |].
    + rewrite (step_client_flag _ _ Hc) in Hs. by injection Hs as <- <-.
    + rewrite (step_client_teardown _ _ Hc) in Hs. injection Hs as <- <-.
      by destruct (mPreviewThread (hw σ)).
    + rewrite (step_client_read _ _ Hc) in Hs. by injection Hs as <- <-.
    + rewrite (step_client_request_some _ _ _ Hc) in Hs.
      by injection Hs as <- <-.
    + rewrite (step_client_request_none _ _ Hc) in Hs.
      by injection Hs as <- <-.
    + rewrite (step_client_wait _ _ _ Hc) in Hs.
      destruct (thread_exited σ t); [|done]. by injection Hs as <- <-.
    + rewrite (step_client_clear _ _ Hc) in Hs. injection Hs as <- <-.
      by destruct c.
    + destruct Hok as [-> Hh].
      unfold step_client in Hs. rewrite Hc in Hs.
      rewrite pictureThread_eq_on_hw in Hs by done.
      destruct (shutter_events (hw σ)) as [e1|] eqn:E1;
        [|by injection Hs as <- <-].
      pose proof (shutter_callback_ok _ _ E1) as Q1.
      destruct (jpeg_events (hw σ)) as [e2|] eqn:E2; injection Hs as <- <-.
      * pose proof (jpeg_callback_ok _ _ E2) as Q2.
        change (forallb (callback_ok (hw σ))
                  ((e1 ++ picture_open ++ e2 ++ picture_close) ++
                   [EvReturn TakePicture (RStatus NO_ERROR)]) = true).
        rewrite !forallb_app, Q1, Q2. reflexivity.
      * change (forallb (callback_ok (hw σ))
                  (e1 ++ picture_open ++ [EvDev DevGrabJpegFrame]) = true).
        rewrite !forallb_app, Q1. reflexivity.
  - unfold step_preview in Hs.
    destruct (threads σ !! t) as [st|] eqn:Ht; [|done].
    destruct (pc st) eqn:Hpc; [| | | |done].
    + by injection Hs as <- <-.
    + unfold on_hw in Hs. rewrite grabPreviewFrame_eq in Hs.
      destruct (mHeap (hw σ)); by injection Hs as <- <-.
    + assert (mBuffer (hw σ) = Some (mkMem (mkHeap 614400) 0 614400)) as Hb.
      { assert (is_Some (mHeap (hw σ))) as [h Hh].
        { apply (inv_heap σ Hi t), (inv_live σ Hi t st Ht). by rewrite Hpc. }
        destruct Hheap as [_ [[HN _]|[_ HB]]]; [congruence|done]. }
      unfold on_hw in Hs. rewrite previewDispatch_eq in Hs.
      destruct (flag_set _ _); [|by injection Hs as <- <-].
      destruct (mDataFn (hw σ)) as [df|] eqn:Hd; injection Hs as <- <-;
        [|done].
      simpl. rewrite Hd, Hb. by rewrite !bool_decide_eq_true_2 by done.
    + by injection Hs as <- <-.
  - unfold step_focus in Hs. destruct (focusTasks σ) as [|n]; [done|].
    unfold on_hw in Hs. simpl in Hs. rewrite autoFocusThread_eq in Hs.
    destruct (flag_set _ _); [|by injection Hs as <- <-].
    destruct (mNotifyFn (hw σ)) as [nf|] eqn:Hn; injection Hs as <- <-;
      [|done].
    simpl. rewrite Hn. by rewrite !bool_decide_eq_true_2 by done.
Qed.

Lemma forallb_pointwise {A} (P Q : A → bool) (l : list A) :
  (∀ x, P x = Q x) → forallb P l = forallb Q l.
Proof.
  intros H. induction l as [|x l IH]; [done|]. simpl. by rewrite H, IH.
Qed.

Lemma same_registration_trans s1 s2 s3 :
  same_registration s1 s2 → same_registration s2 s3 → same_registration s1 s3.
Proof.
  unfold same_registration. intros (?&?&?&?) (?&?&?&?).
  split; [congruence|]. split; [congruence|]. split; congruence.
Qed.

(** X13.  As long as [setCallbacks] is not called again, every callback
    the session makes, on whichever thread, goes to the function that is
    registered, with the registered user token, and the registration is
    not touched by any other entry point.  The session only ever makes
    four callbacks: the shutter notification (with 0, 0), the focus
    notification (always reporting success: 1, 0), a preview frame (always
    with the whole 614400-byte buffer, never a null one) and a compressed
    image.  It never calls the timestamp callback and never reports an
    error. *)
Theorem callbacks_go_where_registered
    (σ σ' : System) (sched : list Label) (tr : list Event) :
  reachable σ →
  forallb (λ l, negb (is_setCallbacks l)) sched = true →
  run sched σ = Some (σ', tr) →
  same_registration (hw σ) (hw σ') ∧
  forallb (callback_ok (hw σ)) tr = true.
Proof.
  revert σ tr. induction sched as [|l sched IH]; intros σ tr Hre Hall Hr;
    simpl in Hr.
  - by injection Hr as <- <-.
  - apply andb_true_iff in Hall as [Hl%negb_true_iff Hall].
    destruct (step l σ) as [[σ1 tr1]|] eqn:Hs; [|done].
    destruct (run sched σ1) as [[σ2 tr2]|] eqn:Hr2; [|done].
    injection Hr as <- <-.
    pose proof (step_registration _ _ _ _ Hl Hs) as Hreg.
    pose proof (step_callbacks _ _ _ _ (reachable_inv _ Hre)
                  (reachable_heap_ok _ Hre) Hs) as Hcb.
    destruct (IH σ1 tr2 (reachable_step _ _ _ _ Hre Hs) Hall Hr2)
      as [Hreg2 Hcb2].
    split; [by eapply same_registration_trans|].
    rewrite forallb_app, Hcb. simpl.
    rewrite <- Hcb2. apply forallb_pointwise. intros e.
    symmetry. by apply callback_ok_same.
Qed.

Lemma callbacks_go_where_registered_witness :
  ∃ σ0 σ tr0 σ' tr,
    boot 0 = Some σ0 ∧ run stale_demo σ0 = Some (σ, tr0) ∧
    run stale_rest σ = Some (σ', tr) ∧
    length (filter is_callback tr) = 1%nat ∧
    same_registration (hw σ) (hw σ') ∧
    forallb (callback_ok (hw σ)) tr = true.
Proof.
  destruct (boot 0) as [σ0|] eqn:Hb; [|by vm_compute in Hb].
  destruct (run stale_demo σ0) as [[σ tr0]|] eqn:Hr;
    [|vm_compute in Hb; injection Hb as <-; by vm_compute in Hr].
  destruct (run stale_rest σ) as [[σ' tr]|] eqn:Hr';
    [|vm_compute in Hb; injection Hb as <-;
      vm_compute in Hr; injection Hr as <- <-; by vm_compute in Hr'].
  exists σ0, σ, tr0, σ', tr. split; [done|]. split; [done|]. split; [done|].
  assert (reachable σ) as Hre by (by exists 0, σ0, stale_demo, tr0).
  split.
  - vm_compute in Hb. injection Hb as <-.
    vm_compute in Hr. injection Hr as <- <-.
    vm_compute in Hr'. by injection Hr' as <- <-.
  - by apply (callbacks_go_where_registered σ σ' stale_rest tr Hre).
Defined.

(** ** Handles taken and given back *)

(** X14.  In any state the process can be in, a handle taken with
    [openCameraHardware] refers to the one session that is then alive, to
    which [singleton] refers too; giving that handle back leaves the
    process exactly as it was before the call, whether the call shared a
    live session or constructed one (the destructor then clears
    [singleton] again).  The same holds of a copied handle. *)
Theorem openCameraHardware_then_drop (p : Process) :
  proc_reachable p →
  (∀ addr junk a p',
     openCameraHardware addr junk p = Some (a, p') →
     singleton p' = Some a ∧
     (∃ s n, objects p' = {[ a := (s, S n) ]}) ∧
     dropHandle a p' = Some p) ∧
  (∀ a p',
     cloneHandle a p = Some p' →
     singleton p = Some a ∧ dropHandle a p' = Some p).
Proof.
  intros Hi%proc_reachable_inv. destruct p as [sg objs].
  unfold proc_inv in Hi. simpl in *.
  destruct Hi as [[-> ->]|(a0 & s0 & n0 & -> & ->)].
  - split.
    + intros addr junk a p' Ho. unfold openCameraHardware in Ho.
      rewrite createInstance_none in Ho by (done || set_solver).
      simpl in Ho. rewrite insert_empty in Ho. injection Ho as <- <-.
      split; [done|]. split; [by do 2 eexists|].
      unfold dropHandle. simpl.
      by rewrite lookup_singleton_eq, delete_singleton_eq.
    + intros a p' Hc. unfold cloneHandle, promote in Hc. simpl in Hc.
      by rewrite lookup_empty in Hc.
  - split.
    + intros addr junk a p' Ho. unfold openCameraHardware in Ho.
      rewrite (createInstance_live _ a0 s0 (S n0)) in Ho;
        [|done|apply lookup_singleton_eq].
      simpl in Ho. rewrite insert_singleton_eq in Ho. injection Ho as <- <-.
      split; [done|]. split; [by do 2 eexists|].
      unfold dropHandle. simpl.
      by rewrite lookup_singleton_eq, insert_singleton_eq.
    + intros a p' Hc. unfold cloneHandle, promote in Hc. simpl in Hc.
      destruct (decide (a = a0)) as [->|Hne];
        [|by rewrite lookup_singleton_ne in Hc].
      rewrite lookup_singleton_eq in Hc. injection Hc as <-.
      split; [done|]. unfold dropHandle. simpl.
      rewrite insert_singleton_eq.
      by rewrite lookup_singleton_eq, insert_singleton_eq.
Qed.

Lemma openCameraHardware_then_drop_witness :
  ∃ p a p',
    proc_run [PCreate 10 0; PCall 10 (EnableMsgType 16)] Process_start = Some p ∧
    openCameraHardware 11 5 p = Some (a, p') ∧
    a = 10%nat ∧ dropHandle a p' = Some p.
Proof.
  destruct (proc_run [PCreate 10 0; PCall 10 (EnableMsgType 16)] Process_start)
    as [p|] eqn:Hr; [|by vm_compute in Hr].
  destruct (openCameraHardware 11 5 p) as [[a p']|] eqn:Ho.
  - exists p, a, p'. split; [done|]. split; [done|].
    assert (proc_reachable p) as Hre by (by eexists).
    destruct (openCameraHardware_then_drop p Hre) as [H1 _].
    destruct (H1 11%nat 5 a p' Ho) as (Hs & _ & Hd). split; [|done].
    vm_compute in Hr. injection Hr as <-.
    vm_compute in Ho. by injection Ho as <- <-.
  - vm_compute in Hr. injection Hr as <-. by vm_compute in Ho.
Defined.

(** ** stopPreview runs to its return *)

Lemma drain_any t σ st :
  threads σ !! t = Some st →
  exitPending st = true →
  crashed σ = false →
  previewStopped (hw σ) = true →
  is_Some (mHeap (hw σ)) →
  (flag_set (mMsgEnabled (hw σ)) CAMERA_MSG_PREVIEW_FRAME = true →
   is_Some (mDataFn (hw σ))) →
  ∃ k σ' tr, (k ≤ 3)%nat ∧
             run (replicate k (LPreview t)) σ = Some (σ', tr) ∧ drained t σ σ'.
Proof.
  intros Hl He Hk Hst [h Hh] Hfn.
  assert (Hcheck : ∀ σ1, hw σ1 = hw σ → client σ1 = client σ →
            threads σ1 !! t = Some (mkThread AtExitCheck true) →
            crashed σ1 = false →
            run [LPreview t] σ1 = Some (set_pc t Exited σ1, []) ∧
            drained t σ (set_pc t Exited σ1)).
  { intros σ1 Hhw Hcl Hl1 Hk1. split.
    - simpl. unfold step, step_preview. by rewrite Hk1, Hl1.
    - unfold drained, thread_exited. rewrite (lookup_set_pc _ _ _ _ Hl1).
      by repeat split. }
  assert (Hdisp : ∀ σ1, hw σ1 = hw σ → client σ1 = client σ →
            threads σ1 !! t = Some (mkThread AtDispatch true) →
            crashed σ1 = false →
            ∃ σ' tr, run [LPreview t; LPreview t] σ1 = Some (σ', tr) ∧
                     drained t σ σ').
  { intros σ1 Hhw Hcl Hl1 Hk1.
    assert (∃ tr1, step (LPreview t) σ1 = Some (set_pc t AtExitCheck σ1, tr1))
      as [tr1 Hs1].
    { unfold step, step_preview, on_hw. rewrite Hk1, Hl1. simpl.
      rewrite previewDispatch_eq, Hhw.
      destruct (flag_set _ _) eqn:Hfl.
      - destruct (Hfn eq_refl) as [df ->]. rewrite <- Hhw, set_hw_same.
        by eexists.
      - rewrite <- Hhw, set_hw_same. by eexists. }
    destruct (Hcheck (set_pc t AtExitCheck σ1)) as [Hr2 Hd2]; try done.
    { by rewrite (lookup_set_pc _ _ _ _ Hl1). }
    do 2 eexists. split; [|exact Hd2].
    change [LPreview t; LPreview t] with ([LPreview t] ++ [LPreview t]).
    by rewrite run_app, (run_one _ _ _ _ Hs1), Hr2. }
  destruct st as [p ex]. simpl in He. subst ex. destruct p.
  - (* about to test previewStopped *)
    assert (step (LPreview t) σ = Some (set_pc t AtExitCheck σ, [])) as Hs1.
    { unfold step, step_preview. by rewrite Hk, Hl, Hst. }
    destruct (Hcheck (set_pc t AtExitCheck σ)) as [Hr2 Hd2]; try done.
    { by rewrite (lookup_set_pc _ _ _ _ Hl). }
    exists 2%nat. do 2 eexists. split; [lia|]. split; [|exact Hd2].
    change (replicate 2 (LPreview t)) with ([LPreview t] ++ [LPreview t]).
    by rewrite run_app, (run_one _ _ _ _ Hs1), Hr2.
  - (* about to grab *)
    assert (step (LPreview t) σ =
              Some (set_pc t AtDispatch σ, [EvDev (DevGrabPreviewFrame h)]))
      as Hs1.
    { unfold step, step_preview, on_hw. rewrite Hk, Hl. simpl.
      rewrite grabPreviewFrame_eq, Hh. simpl. by rewrite set_hw_same. }
    destruct (Hdisp (set_pc t AtDispatch σ)) as (σ' & tr' & Hr2 & Hd2);
      try done.
    { by rewrite (lookup_set_pc _ _ _ _ Hl). }
    exists 3%nat. do 2 eexists. split; [lia|]. split; [|exact Hd2].
    change (replicate 3 (LPreview t))
      with ([LPreview t] ++ [LPreview t; LPreview t]).
    by rewrite run_app, (run_one _ _ _ _ Hs1), Hr2.
  - destruct (Hdisp σ) as (σ' & tr' & Hr2 & Hd2); try done.
    exists 2%nat. do 2 eexists. split; [lia|]. by split.
  - destruct (Hcheck σ) as [Hr2 Hd2]; try done.
    exists 1%nat. do 2 eexists. split; [lia|]. by split.
  - exists 0%nat, σ, []. split; [lia|]. split; [done|].
    unfold drained, thread_exited. rewrite Hl. by repeat split.
Qed.

Lemma stop_prefix σ :
  client σ = CIdle → crashed σ = false →
  run [LCall StopPreview; LClient; LClient; LClient] σ =
    Some (set_client (CIn StopPreview (SRequest (mPreviewThread (hw σ))))
            (set_hw (set_previewStopped true (hw σ)) σ),
          EvCall StopPreview :: teardown_events (mPreviewThread (hw σ))).
Proof.
  intros Hc Hk. destruct σ as [s ts n cl cr]. simpl in *. subst cl cr.
  destruct s as [? ? ? ? ? ? ? ? ? ? ? ? ? ? ? [t|]]; reflexivity.
Qed.

Lemma stop_finish σ :
  client σ = CIn StopPreview SClear → crashed σ = false →
  run [LClient] σ =
    Some (set_client CIdle (set_hw (set_mPreviewThread None (hw σ)) σ),
          [EvReturn StopPreview RVoid]).
Proof.
  intros Hc Hk. apply run_one. unfold step. rewrite Hk.
  by rewrite (step_client_clear _ _ Hc).
Qed.

(** X15.  [stopPreview] can always run to its return.  In any reachable
    state that has not faulted, with the client between calls, and with a
    data callback registered if the preview kind is enabled, whatever the
    preview thread is doing: after the call has set [previewStopped],
    torn the device down and asked the thread to exit, at most three steps
    of the preview thread let the wait end, and the call returns.  Then no
    handle is held, every preview thread has exited, and nothing else of
    the object has changed. *)
Theorem stopPreview_can_always_return (σ : System) :
  reachable σ →
  client σ = CIdle →
  crashed σ = false →
  (flag_set (mMsgEnabled (hw σ)) CAMERA_MSG_PREVIEW_FRAME = true →
   is_Some (mDataFn (hw σ))) →
  ∃ sched σ' tr,
    Forall no_call sched ∧ (length sched ≤ 9)%nat ∧
    run (LCall StopPreview :: sched) σ = Some (σ', tr) ∧
    client σ' = CIdle ∧ crashed σ' = false ∧
    hw σ' = set_mPreviewThread None (set_previewStopped true (hw σ)) ∧
    all_exited σ'.
Proof.
  intros Hre Hc Hk Hfn. pose proof (reachable_inv _ Hre) as Hi.
  pose proof (stop_prefix σ Hc Hk) as Hpre.
  set (σ4 := set_client (CIn StopPreview (SRequest (mPreviewThread (hw σ))))
               (set_hw (set_previewStopped true (hw σ)) σ)) in *.
  assert (∃ sched σ' tr,
    Forall no_call sched ∧ (length sched ≤ 9)%nat ∧
    run (LCall StopPreview :: sched) σ = Some (σ', tr) ∧
    client σ' = CIdle ∧ crashed σ' = false ∧
    hw σ' = set_mPreviewThread None (set_previewStopped true (hw σ)))
    as (sched & σ' & tr & Hnc & Hlen & Hr & Hc' & Hk' & Hhw').
  { destruct (mPreviewThread (hw σ)) as [t|] eqn:Hh.
    - destruct (inv_handle σ Hi t Hh) as [st Hl].
      set (σ5 := set_client (CIn StopPreview (SWait t)) (request_exit t σ4)).
      assert (Hs5 : step LClient σ4 = Some (σ5, [EvRequestExitAndWait t])).
      { unfold step. simpl crashed. rewrite Hk.
        by rewrite (step_client_request_some σ4 StopPreview t). }
      destruct (drain_any t σ5 (mkThread (pc st) true))
        as (k & σ6 & tr6 & Hk3 & Hr6 & Hd); [|done|done|done| |done|].
      { simpl. by rewrite lookup_alter_eq, Hl. }
      { simpl. by apply (inv_heap σ Hi t). }
      destruct Hd as (Hex & Hhw & Hcl & Hk6).
      set (σ7 := set_client (CIn StopPreview SClear) σ6).
      assert (Hs7 : step LClient σ6 = Some (σ7, [])).
      { unfold step. rewrite Hk6.
        rewrite (step_client_wait σ6 StopPreview t) by done. by rewrite Hex. }
      pose proof (stop_finish σ7 eq_refl Hk6) as Hr8.
      exists ([LClient; LClient; LClient] ++ [LClient] ++
              replicate k (LPreview t) ++ [LClient] ++ [LClient]).
      do 2 eexists. split; [|split; [|split]].
      + repeat (apply Forall_app; split);
          try (by apply Forall_replicate, no_call_preview);
          repeat apply Forall_cons_2; auto using no_call_client.
      + rewrite !length_app, length_replicate. simpl. lia.
      + change (LCall StopPreview :: ?a ++ ?b)
          with ([LCall StopPreview; LClient; LClient; LClient] ++ b).
        rewrite run_app, Hpre.
        rewrite run_app, (run_one _ _ _ _ Hs5).
        rewrite run_app, Hr6.
        rewrite run_app, (run_one _ _ _ _ Hs7).
        rewrite Hr8. reflexivity.
      + split; [done|]. split; [done|]. simpl. by rewrite Hhw.
    - set (σ5 := set_client (CIn StopPreview SClear) σ4).
      assert (Hs5 : step LClient σ4 = Some (σ5, [])).
      { unfold step. simpl crashed. rewrite Hk.
        by rewrite (step_client_request_none σ4 StopPreview). }
      pose proof (stop_finish σ5 eq_refl Hk) as Hr8.
      exists ([LClient; LClient; LClient] ++ [LClient] ++ [LClient]).
      do 2 eexists. split; [|split; [|split]].
      + repeat apply Forall_cons_2; auto using no_call_client.
      + simpl. lia.
      + change (LCall StopPreview :: ?a ++ ?b)
          with ([LCall StopPreview; LClient; LClient; LClient] ++ b).
        rewrite run_app, Hpre.
        rewrite run_app, (run_one _ _ _ _ Hs5).
        rewrite Hr8. reflexivity.
      + done. }
  exists sched, σ', tr. repeat (split; [done|]).
  apply inv_no_handle_all_exited; [by eapply run_inv|by rewrite Hhw'].
Qed.

Lemma stopPreview_can_always_return_witness :
  ∃ σ0 σ tr0,
    boot 0 = Some σ0 ∧ run capture_demo σ0 = Some (σ, tr0) ∧
    mPreviewThread (hw σ) = Some 5%nat ∧
    ∃ sched σ' tr,
      Forall no_call sched ∧ (length sched ≤ 9)%nat ∧
      run (LCall StopPreview :: sched) σ = Some (σ', tr) ∧
      client σ' = CIdle ∧ crashed σ' = false ∧
      hw σ' = set_mPreviewThread None (set_previewStopped true (hw σ)) ∧
      all_exited σ'.
Proof.
  destruct (boot 0) as [σ0|] eqn:Hb; [|by vm_compute in Hb].
  destruct (run capture_demo σ0) as [[σ tr0]|] eqn:Hr;
    [|vm_compute in Hb; injection Hb as <-; by vm_compute in Hr].
  exists σ0, σ, tr0. split; [done|]. split; [done|].
  assert (reachable σ) as Hre by (by exists 0, σ0, capture_demo, tr0).
  vm_compute in Hb. injection Hb as <-.
  vm_compute in Hr. injection Hr as <- <-.
  split; [done|].
  apply (stopPreview_can_always_return _ Hre); [done|done|].
  intros _. by eexists.
Defined.

(** ** The mask of a fresh session *)

Lemma step_focus_hw σ σ' tr : step LFocus σ = Some (σ', tr) → hw σ' = hw σ.
Proof.
  unfold step. destruct (crashed σ); [done|].
  intros Hs. by apply step_focus_trace in Hs as [-> _].
Qed.

Lemma step_call_forward c σ r s' tr0 :
  crashed σ = false →
  client σ = CIdle →
  is_split c = false →
  (∀ fresh, c = StartPreview fresh → fresh ∉ dom (threads σ)) →
  exec_call c (hw σ) = Done r s' tr0 →
  step (LCall c) σ =
    Some (spawn_all tr0 (set_hw s' σ), EvCall c :: tr0 ++ [EvReturn c r]).
Proof.
  intros Hk Hc Hsp Hfresh He. unfold step, step_call.
  rewrite Hk, Hc, Hsp. unfold on_hw. rewrite He.
  destruct c; try done.
  by rewrite bool_decide_eq_false_2 by (by apply Hfresh).
Qed.

(** The first pass of a preview thread on a session without a data
    callback. *)
Lemma first_pass_unregistered (t : nat) (σ : System) (h : MemoryHeapBase) :
  crashed σ = false →
  threads σ !! t = Some (mkThread AtLoop false) →
  previewStopped (hw σ) = false →
  mHeap (hw σ) = Some h →
  mDataFn (hw σ) = None →
  ∃ σ' tr,
    run [LPreview t; LPreview t; LPreview t] σ = Some (σ', tr) ∧
    crashed σ' = flag_set (mMsgEnabled (hw σ)) CAMERA_MSG_PREVIEW_FRAME ∧
    hw σ' = hw σ ∧ client σ' = client σ.
Proof.
  intros Hk Hl Hst Hh Hd.
  assert (step (LPreview t) σ = Some (set_pc t AtGrab σ, [])) as Hs1.
  { unfold step, step_preview. by rewrite Hk, Hl, Hst. }
  assert (step (LPreview t) (set_pc t AtGrab σ) =
          Some (set_pc t AtDispatch (set_pc t AtGrab σ),
                [EvDev (DevGrabPreviewFrame h)])) as Hs2.
  { unfold step, step_preview, on_hw. simpl crashed. rewrite Hk.
    rewrite (lookup_set_pc _ _ _ _ Hl). simpl pc. cbv iota.
    rewrite grabPreviewFrame_eq. simpl hw. rewrite Hh. simpl.
    reflexivity. }
  set (σ2 := set_pc t AtDispatch (set_pc t AtGrab σ)) in *.
  assert (threads σ2 !! t = Some (mkThread AtDispatch false)) as Hl2.
  { unfold σ2. by rewrite (lookup_set_pc _ _ _ (mkThread AtGrab false)
                             (lookup_set_pc _ _ _ _ Hl)). }
  assert (∃ σ', step (LPreview t) σ2 = Some (σ', []) ∧
                crashed σ' = flag_set (mMsgEnabled (hw σ)) CAMERA_MSG_PREVIEW_FRAME ∧
                hw σ' = hw σ ∧ client σ' = client σ)
    as (σ' & Hs3 & Hk3).
  { unfold step, step_preview, on_hw. change (crashed σ2) with (crashed σ).
    rewrite Hk, Hl2. simpl pc. cbv iota. rewrite previewDispatch_eq.
    change (hw σ2) with (hw σ). rewrite Hd.
    destruct (flag_set _ _); by eexists. }
  exists σ'. eexists.
  change [LPreview t; LPreview t; LPreview t]
    with ([LPreview t] ++ [LPreview t] ++ [LPreview t]).
  rewrite run_app, (run_one _ _ _ _ Hs1).
  rewrite run_app, (run_one _ _ _ _ Hs2).
  by rewrite (run_one _ _ _ _ Hs3).
Qed.

(** X16.  The constructor gives [mMsgEnabled] no value and registers no
    callback, so what a fresh session does is decided by what its memory
    held.  For every such content: the first pass of the preview thread
    after [startPreview] faults on the null data callback exactly when
    bit 0x10 of it is set, and the first auto-focus faults on the null
    notify callback exactly when bit 0x04 is set.  After
    [disableMsgType(-1)] the mask is 0 and neither faults. *)
Theorem fresh_session_mask_is_what_memory_held (junk : Z) (t : nat) :
  ∃ σ0,
    boot junk = Some σ0 ∧
    mMsgEnabled (hw σ0) = junk ∧
    (∃ σ tr,
       run [LCall (StartPreview t); LPreview t; LPreview t; LPreview t] σ0
         = Some (σ, tr) ∧
       crashed σ = flag_set junk CAMERA_MSG_PREVIEW_FRAME) ∧
    (∃ σ tr,
       run [LCall (AutoFocus true); LFocus] σ0 = Some (σ, tr) ∧
       crashed σ = flag_set junk CAMERA_MSG_FOCUS) ∧
    (∃ σ tr,
       run [LCall (DisableMsgType (-1)); LCall (StartPreview t);
            LPreview t; LPreview t; LPreview t;
            LCall (AutoFocus true); LFocus] σ0 = Some (σ, tr) ∧
       mMsgEnabled (hw σ) = 0 ∧ crashed σ = false).
Proof.
  set (σ0 := mkSys (constructed junk) ∅ 0%nat CIdle false).
  exists σ0. split; [unfold boot; by rewrite CameraHardware_ctor_eq|].
  split; [done|].
  assert (Hstart : ∀ s, mPreviewThread s = None →
            ∃ tr1, step (LCall (StartPreview t)) (mkSys s ∅ 0%nat CIdle false) =
                     Some (mkSys (started t s) {[ t := mkThread AtLoop false ]}
                                 0%nat CIdle false, tr1)).
  { intros s Hs. eexists.
    rewrite (step_call_forward (StartPreview t) _ (RStatus NO_ERROR)
               (started t s)
               [EvDev (DevOpen VIDEO_DEVICE MIN_WIDTH MIN_HEIGHT PIXEL_FORMAT);
                EvDev DevInit; EvDev DevStartStreaming; EvSpawnPreview t]);
      try done.
    unfold exec_call, lift, mbind, M_bind, bind. simpl hw.
    by rewrite (startPreview_started s t Hs). }
  assert (Hfocus : ∀ σ, crashed σ = false → client σ = CIdle →
            mNotifyFn (hw σ) = None →
            ∃ σ' tr, run [LCall (AutoFocus true); LFocus] σ = Some (σ', tr) ∧
                     crashed σ' = flag_set (mMsgEnabled (hw σ)) CAMERA_MSG_FOCUS ∧
                     hw σ' = hw σ).
  { intros σ Hk Hc Hn.
    assert (step (LCall (AutoFocus true)) σ =
            Some (set_focusTasks (S (focusTasks σ)) σ,
                  [EvCall (AutoFocus true); EvSpawnFocus;
                   EvReturn (AutoFocus true) (RStatus NO_ERROR)])) as Hs1.
    { rewrite (step_call_forward (AutoFocus true) σ (RStatus NO_ERROR)
                 (hw σ) [EvSpawnFocus]); done. }
    assert (∃ σ', step LFocus (set_focusTasks (S (focusTasks σ)) σ) =
                    Some (σ', []) ∧
                  crashed σ' = flag_set (mMsgEnabled (hw σ)) CAMERA_MSG_FOCUS ∧
                  hw σ' = hw σ)
      as (σ' & Hs2 & Hk2).
    { unfold step, step_focus, on_hw. simpl. rewrite Hk.
      rewrite autoFocusThread_eq, Hn.
      destruct (flag_set _ _); by eexists. }
    exists σ'. eexists.
    change [LCall (AutoFocus true); LFocus]
      with ([LCall (AutoFocus true)] ++ [LFocus]).
    by rewrite run_app, (run_one _ _ _ _ Hs1), (run_one _ _ _ _ Hs2). }
  subst σ0. split; [|split].
  - destruct (Hstart (constructed junk) eq_refl) as [tr1 Hs1].
    destruct (first_pass_unregistered t
                (mkSys (started t (constructed junk))
                       {[ t := mkThread AtLoop false ]} 0%nat CIdle false)
                (mkHeap 614400))
      as (σ & tr & Hr & Hk); try done.
    { apply lookup_singleton_eq. }
    exists σ. eexists. split; [|exact (proj1 Hk)].
    change (LCall (StartPreview t) :: ?b) with ([LCall (StartPreview t)] ++ b).
    by rewrite run_app, (run_one _ _ _ _ Hs1), Hr.
  - destruct (Hfocus (mkSys (constructed junk) ∅ 0%nat CIdle false))
      as (σ & tr & Hr & Hk & _); try done.
    by exists σ, tr.
  - set (s1 := set_mMsgEnabled 0 (constructed junk)).
    assert (step (LCall (DisableMsgType (-1)))
                 (mkSys (constructed junk) ∅ 0%nat CIdle false) =
            Some (mkSys s1 ∅ 0%nat CIdle false,
                  [EvCall (DisableMsgType (-1));
                   EvReturn (DisableMsgType (-1)) RVoid])) as Hs0.
    { rewrite (step_call_forward (DisableMsgType (-1)) _ RVoid s1 []);
        try done.
      unfold exec_call, lift, enableMsgType, disableMsgType. unfold_m.
      simpl. unfold s1. do 2 f_equal.
      change (Z.lnot (-1)) with 0. by rewrite Z.land_0_r. }
    destruct (Hstart s1 eq_refl) as [tr1 Hs1].
    destruct (first_pass_unregistered t
                (mkSys (started t s1)
                       {[ t := mkThread AtLoop false ]} 0%nat CIdle false)
                (mkHeap 614400))
      as (σ & tr & Hr & Hk); try done.
    { apply lookup_singleton_eq. }
    destruct Hk as (Hk & Hhw & Hcl).
    change (flag_set _ _) with false in Hk. simpl in Hhw, Hcl.
    destruct (Hfocus σ Hk Hcl) as (σ' & tr' & Hr' & Hk' & Hhw');
      [by rewrite Hhw|].
    rewrite Hhw in Hk'. change (flag_set _ _) with false in Hk'.
    exists σ'. eexists. split; [|split; [by rewrite Hhw', Hhw|done]].
    change (LCall (DisableMsgType (-1)) :: LCall (StartPreview t) ::
            LPreview t :: LPreview t :: LPreview t :: ?b)
      with ([LCall (DisableMsgType (-1))] ++ [LCall (StartPreview t)] ++
            [LPreview t; LPreview t; LPreview t] ++ b).
    rewrite run_app, (run_one _ _ _ _ Hs0).
    rewrite run_app, (run_one _ _ _ _ Hs1).
    by rewrite run_app, Hr, Hr'.
Qed.

(** ** Auto-focus tasks and their notifications *)

Lemma filter_none {A} (P : A → bool) (l : list A) :
  forallb (λ x, negb (P x)) l = true → filter P l = [].
Proof.
  induction l as [|x l IH]; [done|]. simpl.
  intros [Hx%negb_true_iff Hl]%andb_true_iff.
  rewrite filter_cons, (IH Hl), Hx. by destruct (decide _) as [[]|].
Qed.

Lemma spawn_all_focusTasks tr σ :
  focusTasks (spawn_all tr σ) =
    (focusTasks σ + length (filter is_focus_spawn tr))%nat.
Proof.
  revert σ. induction tr as [|e tr IH]; intros σ; [simpl; lia|].
  change (spawn_all (e :: tr) σ) with (spawn_all tr (spawn e σ)).
  rewrite IH, filter_cons. destruct e; simpl; lia.
Qed.

Lemma exec_call_no_focus_notify (c : Call) (s : CameraHardware) r s' tr :
  is_split c = false →
  exec_call c s = Done r s' tr →
  forallb (λ e, negb (is_focus_notify e)) tr = true.
Proof.
  intros Hsp He. destruct (changes_handle c) eqn:Hch.
  - destruct c; try done. unfold exec_call, lift, mbind, M_bind, bind in He.
    destruct (mPreviewThread s) as [t|] eqn:Hh.
    + rewrite (startPreview_running _ _ _ Hh) in He. simpl in He.
      by injection He as <- <- <-.
    + rewrite (startPreview_started _ _ Hh) in He. simpl in He.
      by injection He as <- <- <-.
  - revert He. clear Hsp.
    destruct c; try discriminate Hch;
      unfold exec_call, lift; unfold_m; simpl;
      try (intros [= <- <- <-]; reflexivity).
    + destruct created; intros [= <- <- <-]; reflexivity.
    + unfold setParameters. unfold_m.
      destruct (negb _); [intros [= <- <- <-]; reflexivity|].
      destruct (negb _); intros [= <- <- <-]; reflexivity.
Qed.

Lemma shutter_no_focus s e :
  shutter_events s = Some e →
  filter is_focus_spawn e = [] ∧ filter is_focus_notify e = [].
Proof.
  unfold shutter_events.
  destruct (flag_set _ _); [destruct (mNotifyFn s)|]; by intros [= <-].
Qed.

Lemma jpeg_no_focus s e :
  jpeg_events s = Some e →
  filter is_focus_spawn e = [] ∧ filter is_focus_notify e = [].
Proof.
  unfold jpeg_events.
  destruct (flag_set _ _); [destruct (mDataFn s)|]; by intros [= <-].
Qed.

Lemma step_focus_count l σ σ' tr :
  inv σ →
  step l σ = Some (σ', tr) →
  (focusTasks σ' + (if is_focus_label l then 1 else 0) =
   focusTasks σ + length (filter is_focus_spawn tr))%nat ∧
  (length (filter is_focus_notify tr) ≤ if is_focus_label l then 1 else 0)%nat.
Proof.
  intros Hi Hs. unfold step in Hs. destruct (crashed σ); [done|].
  destruct l as [c| |t|]; simpl is_focus_label; cbv iota.
  - destruct (is_split c) eqn:Hsp.
    { unfold step_call in Hs. destruct (client σ); [|done].
      rewrite Hsp in Hs. injection Hs as <- <-. simpl. lia. }
    apply step_call_atomic in Hs as [_ Hs]; [|done].
    destruct Hs as [(r & s' & tr0 & He & -> & ->)|(tr0 & He & _)];
      [|destruct (exec_call_atomic_done c (hw σ) Hsp) as (? & ? & ? & E);
        congruence].
    rewrite spawn_all_focusTasks.
    change (EvCall c :: tr0 ++ [EvReturn c r])
      with ([EvCall c] ++ tr0 ++ [EvReturn c r]).
    rewrite !filter_app, !length_app.
    rewrite (filter_none _ _ (exec_call_no_focus_notify _ _ _ _ _ Hsp He)).
    simpl. lia.
  - destruct (client σ) as [|c pt] eqn:Hc;
      [unfold step_client in Hs; by rewrite Hc in Hs|].
    pose proof (inv_client σ Hi) as Hok. unfold client_ok in Hok.
    rewrite Hc in Hok. destruct Hok as [Hsp Hok].
    destruct pt as [| | |[t|]|t| |].
    + rewrite (step_client_flag _ _ Hc) in Hs. injection Hs as <- <-.
      simpl. lia.
    + rewrite (step_client_teardown _ _ Hc) in Hs. injection Hs as <- <-.
      destruct (mPreviewThread (hw σ)); simpl; lia.
    + rewrite (step_client_read _ _ Hc) in Hs. injection Hs as <- <-.
      simpl. lia.
    + rewrite (step_client_request_some _ _ _ Hc) in Hs.
      injection Hs as <- <-. simpl. lia.
    + rewrite (step_client_request_none _ _ Hc) in Hs.
      injection Hs as <- <-. simpl. lia.
    + rewrite (step_client_wait _ _ _ Hc) in Hs.
      destruct (thread_exited σ t); [|done]. injection Hs as <- <-.
      simpl. lia.
    + rewrite (step_client_clear _ _ Hc) in Hs. injection Hs as <- <-.
      destruct c; simpl; lia.
    + destruct Hok as [-> Hh].
      unfold step_client in Hs. rewrite Hc in Hs.
      rewrite pictureThread_eq_on_hw in Hs by done.
      destruct (shutter_events (hw σ)) as [e1|] eqn:E1;
        [|injection Hs as <- <-; simpl; lia].
      destruct (shutter_no_focus _ _ E1) as [Q1 Q1'].
      destruct (jpeg_events (hw σ)) as [e2|] eqn:E2; injection Hs as <- <-.
      * destruct (jpeg_no_focus _ _ E2) as [Q2 Q2'].
        change (e1 ++ EvDev _ :: _ :: _ :: e2 ++ picture_close)
          with (e1 ++ picture_open ++ e2 ++ picture_close).
        rewrite !filter_app, Q1, Q1', Q2, Q2'. simpl. lia.
      * change (e1 ++ _)
          with (e1 ++ picture_open ++ [EvDev DevGrabJpegFrame]).
        rewrite !filter_app, Q1, Q1'. simpl. lia.
  - unfold step_preview in Hs.
    destruct (threads σ !! t) as [st|]; [|done].
    destruct (pc st); [| | | |done].
    + injection Hs as <- <-. destruct (previewStopped (hw σ)); simpl; lia.
    + unfold on_hw in Hs. rewrite grabPreviewFrame_eq in Hs.
      destruct (mHeap (hw σ)); injection Hs as <- <-; simpl; lia.
    + unfold on_hw in Hs. rewrite previewDispatch_eq in Hs.
      destruct (flag_set _ _); [destruct (mDataFn (hw σ))|];
        injection Hs as <- <-; simpl; lia.
    + injection Hs as <- <-. destruct (exitPending st); simpl; lia.
  - unfold step_focus in Hs. destruct (focusTasks σ) as [|n]; [done|].
    unfold on_hw in Hs. simpl in Hs. rewrite autoFocusThread_eq in Hs.
    destruct (flag_set _ _); [destruct (mNotifyFn (hw σ))|];
      injection Hs as <- <-; simpl; lia.
Qed.

(** X17.  Auto-focus tasks are neither lost nor made up.  Over any run,
    the tasks still pending plus the tasks that ran are the tasks pending
    at the start plus one for each [autoFocus] call that could create its
    thread; [cancelAutoFocus] takes none away.  Each task that runs
    notifies at most once, so focus notifications never outnumber the
    tasks that ran. *)
Theorem focus_tasks_accounted
    (σ σ' : System) (sched : list Label) (tr : list Event) :
  reachable σ →
  run sched σ = Some (σ', tr) →
  (focusTasks σ' + length (filter is_focus_label sched) =
   focusTasks σ + length (filter is_focus_spawn tr))%nat ∧
  (length (filter is_focus_notify tr) ≤
   length (filter is_focus_label sched))%nat.
Proof.
  intros Hre. apply reachable_inv in Hre. revert σ tr Hre.
  induction sched as [|l sched IH]; intros σ tr Hi Hr; simpl in Hr.
  - injection Hr as <- <-. simpl. lia.
  - destruct (step l σ) as [[σ1 tr1]|] eqn:Hs; [|done].
    destruct (run sched σ1) as [[σ2 tr2]|] eqn:Hr2; [|done].
    injection Hr as <- <-.
    destruct (step_focus_count _ _ _ _ Hi Hs) as [H1 H2].
    destruct (IH σ1 tr2 (step_inv _ _ _ _ Hi Hs) Hr2) as [H3 H4].
    rewrite !filter_app, !length_app, filter_cons.
    destruct (is_focus_label l); simpl in *; lia.
Qed.

Lemma focus_tasks_accounted_witness :
  ∃ σ0 σ' tr,
    boot 0 = Some σ0 ∧ run focus_demo σ0 = Some (σ', tr) ∧
    focusTasks σ' = 1%nat ∧
    length (filter is_focus_spawn tr) = 3%nat ∧
    length (filter is_focus_notify tr) = 1%nat ∧
    (focusTasks σ' + length (filter is_focus_label focus_demo) =
     focusTasks σ0 + length (filter is_focus_spawn tr))%nat ∧
    (length (filter is_focus_notify tr) ≤
     length (filter is_focus_label focus_demo))%nat.
Proof.
  destruct (boot 0) as [σ0|] eqn:Hb; [|by vm_compute in Hb].
  destruct (run focus_demo σ0) as [[σ' tr]|] eqn:Hr;
    [|vm_compute in Hb; injection Hb as <-; by vm_compute in Hr].
  exists σ0, σ', tr. split; [done|]. split; [done|].
  assert (reachable σ0) as Hre by (by exists 0, σ0, [], []).
  pose proof (focus_tasks_accounted σ0 σ' focus_demo tr Hre Hr) as Hthm.
  vm_compute in Hb. injection Hb as <-.
  vm_compute in Hr. injection Hr as <- <-.
  split; [done|]. split; [done|]. split; [done|]. exact Hthm.
Defined.

(** ** One preview thread at a time *)

(** X18.  At any time at most one preview thread is still running, and it
    is the one [mPreviewThread] refers to: in every reachable state, two
    preview threads that have not exited are the same thread; a thread
    that has not exited is the one the handle refers to; the handle, when
    held, refers to a thread that was started; and when no handle is held
    every preview thread has exited and [previewStopped] is set. *)
Theorem single_preview_thread (σ : System) :
  reachable σ →
  (∀ t t' st st',
     threads σ !! t = Some st → threads σ !! t' = Some st' →
     pc st ≠ Exited → pc st' ≠ Exited → t = t') ∧
  (∀ t st, threads σ !! t = Some st → pc st ≠ Exited →
           previewEnabled (hw σ) = Done true (hw σ) [] ∧
           mPreviewThread (hw σ) = Some t) ∧
  (∀ t, mPreviewThread (hw σ) = Some t → is_Some (threads σ !! t)) ∧
  (previewEnabled (hw σ) = Done false (hw σ) [] →
   all_exited σ ∧ previewStopped (hw σ) = true).
Proof.
  intros Hi%reachable_inv. split; [|split; [|split]].
  - intros t t' st st' Ht Ht' Hp Hp'.
    pose proof (inv_live σ Hi t st Ht Hp) as H1.
    pose proof (inv_live σ Hi t' st' Ht' Hp') as H2.
    congruence.
  - intros t st Ht Hp. pose proof (inv_live σ Hi t st Ht Hp) as H1.
    split; [|done]. unfold previewEnabled. unfold_m. by rewrite H1.
  - apply (inv_handle σ Hi).
  - unfold previewEnabled. unfold_m. intros He.
    assert (mPreviewThread (hw σ) = None) as Hn.
    { destruct (mPreviewThread (hw σ)); [discriminate He|done]. }
    split; [by apply inv_no_handle_all_exited|by apply (inv_stopped σ Hi)].
Qed.

Lemma single_preview_thread_witness :
  ∃ σ0 σ tr,
    boot 0 = Some σ0 ∧ run capture_demo σ0 = Some (σ, tr) ∧
    threads σ !! 5%nat = Some (mkThread AtDispatch false) ∧
    previewEnabled (hw σ) = Done true (hw σ) [] ∧
    mPreviewThread (hw σ) = Some 5%nat.
Proof.
  destruct (boot 0) as [σ0|] eqn:Hb; [|by vm_compute in Hb].
  destruct (run capture_demo σ0) as [[σ tr]|] eqn:Hr;
    [|vm_compute in Hb; injection Hb as <-; by vm_compute in Hr].
  exists σ0, σ, tr. split; [done|]. split; [done|].
  assert (reachable σ) as Hre by (by exists 0, σ0, capture_demo, tr).
  assert (threads σ !! 5%nat = Some (mkThread AtDispatch false)) as Hl.
  { vm_compute in Hb. injection Hb as <-.
    vm_compute in Hr. by injection Hr as <- <-. }
  split; [exact Hl|].
  exact (proj1 (proj2 (single_preview_thread σ Hre)) 5%nat _ Hl
           ltac:(discriminate)).
Defined.

(** ** A frame grabbed from a closed device *)

(** X19.  [stopPreview] tears the device down before it waits for the
    preview thread, and the thread takes no lock: whenever the client is
    about to tear the device down while the preview thread is past its
    test of [previewStopped] and about to grab, the client can go first,
    and the thread then calls [GrabPreviewFrame] on the device that has
    just been closed. *)
Theorem preview_grab_can_follow_close
    (σ : System) (c : Call) (t : nat) (st : ThreadState) :
  reachable σ →
  crashed σ = false →
  client σ = CIn c STeardown →
  threads σ !! t = Some st →
  pc st = AtGrab →
  ∃ h σ',
    mHeap (hw σ) = Some h ∧
    run [LClient; LPreview t] σ =
      Some (σ', [EvDev DevUninit; EvDev DevStopStreaming; EvDev DevClose;
                 EvDev (DevGrabPreviewFrame h)]) ∧
    dev_follow DStreaming
      [EvDev DevUninit; EvDev DevStopStreaming; EvDev DevClose] = Some DClosed ∧
    crashed σ' = false.
Proof.
  intros Hi%reachable_inv Hk Hc Ht Hpc.
  assert (mPreviewThread (hw σ) = Some t) as Hh.
  { apply (inv_live σ Hi t st Ht). by rewrite Hpc. }
  destruct (inv_heap σ Hi t Hh) as [h Hheap].
  exists h. eexists. split; [done|].
  assert (step LClient σ =
          Some (set_client (CIn c SRead) σ,
                [EvDev DevUninit; EvDev DevStopStreaming; EvDev DevClose]))
    as Hs1.
  { unfold step. rewrite Hk, (step_client_teardown _ _ Hc), Hh. done. }
  assert (step (LPreview t) (set_client (CIn c SRead) σ) =
          Some (set_pc t AtDispatch (set_client (CIn c SRead) σ),
                [EvDev (DevGrabPreviewFrame h)])) as Hs2.
  { unfold step, step_preview, on_hw. simpl crashed. rewrite Hk.
    simpl threads. rewrite Ht, Hpc. rewrite grabPreviewFrame_eq.
    simpl hw. rewrite Hheap. reflexivity. }
  split; [|split; [done|]].
  - change [LClient; LPreview t] with ([LClient] ++ [LPreview t]).
    rewrite run_app, (run_one _ _ _ _ Hs1), (run_one _ _ _ _ Hs2).
    reflexivity.
  - done.
Qed.

Lemma preview_grab_can_follow_close_witness :
  ∃ σ0 σ tr0,
    boot 0 = Some σ0 ∧ run stale_demo σ0 = Some (σ, tr0) ∧
    ∃ h σ',
      mHeap (hw σ) = Some h ∧
      run [LClient; LPreview 5%nat] σ =
        Some (σ', [EvDev DevUninit; EvDev DevStopStreaming; EvDev DevClose;
                   EvDev (DevGrabPreviewFrame h)]) ∧
      dev_follow DStreaming
        [EvDev DevUninit; EvDev DevStopStreaming; EvDev DevClose]
        = Some DClosed ∧
      crashed σ' = false.
Proof.
  destruct (boot 0) as [σ0|] eqn:Hb; [|by vm_compute in Hb].
  destruct (run stale_demo σ0) as [[σ tr0]|] eqn:Hr;
    [|vm_compute in Hb; injection Hb as <-; by vm_compute in Hr].
  exists σ0, σ, tr0. split; [done|]. split; [done|].
  assert (reachable σ) as Hre by (by exists 0, σ0, stale_demo, tr0).
  vm_compute in Hb. injection Hb as <-.
  vm_compute in Hr. injection Hr as <- <-.
  by apply (preview_grab_can_follow_close _ StopPreview 5%nat
              (mkThread AtGrab false) Hre).
Defined.
